(** * minio_ext: request construction and execution core (lib/minio_ext/api.go)

    A shallow embedding of the client code of [api.go]: region resolution and
    its cache, target-URL construction, request construction and presigning,
    the redirect hook and the retry loop of [executeMethod].

    Go strings are [string], Go integers are [Z], Go maps
    ([http.Header], [url.Values], the bucket location cache) are [gmap]s.
    Functions of imported packages and of package files other than [api.go]
    are fields of the class [External]; the behaviour of the network, of the
    credential provider and of the request body is an oracle of the class
    [World], indexed by a logical clock kept in the state. *)

From Stdlib Require Import ZArith String Ascii List Bool Lia DecimalString.
From stdpp Require Import base option gmap strings list fin_maps sorting.

Local Open Scope Z_scope.
Local Open Scope string_scope.

(** ** Data model *)

(** [url.URL], restricted to the fields the code reads or writes. *)
Record URL : Type := mkURL {
  Scheme : string;
  uHost : string;
  Path : string;
  RawQuery : string
}.

(** [ErrorResponse], restricted to the fields the code reads or writes. *)
Record ErrorResponse : Type := mkErrorResponse {
  erStatusCode : Z;
  Code : string;
  Message : string;
  BucketName : string;
  Region : string
}.

(** Go [error] values.  The inner error of a [*url.Error] is kept as its
    [Error()] text, the only thing [do] reads from it. *)
Inductive error : Type :=
| ErrNew (msg : string)                    (* errors.New(msg) *)
| ErrURL (Op uURL ErrText : string)        (* &url.Error{Op, URL, Err} *)
| ErrOfResponse (e : ErrorResponse)        (* an ErrorResponse used as error *)
| ErrOther (text : string).                (* any other error value *)

(** The outcome of a Go call returning [(T, error)]: a value, an error, or a
    run-time panic. *)
Inductive result (A : Type) : Type :=
| Ok (a : A)
| Err (e : error)
| Panic (why : string).
Arguments Ok {A} a.
Arguments Err {A} e.
Arguments Panic {A} why.

(** [credentials.SignatureType] is declared in the imported credentials
    package; the client only compares it with two of its constants and asks
    its three predicates, so it is kept abstract in [External]. *)

(** [io.Reader] values used as request bodies: what the type assertions of
    [executeMethod] can tell about them. *)
Inductive stdStream : Type := Stdin | Stdout | Stderr.

Inductive Reader : Type :=
| StdFile (f : stdStream)                  (* os.Stdin, os.Stdout, os.Stderr *)
| SeekReader (id : nat) (closer : bool)    (* implements io.Seeker *)
| PlainReader (id : nat) (closer : bool).  (* does not implement io.Seeker *)

(** The body of a response: its bytes, or the error reading it gives. *)
Inductive body : Type :=
| BodyBytes (b : string)
| BodyFails (e : error).

Record Request : Type := mkRequest {
  Method : string;
  rURL : URL;
  Host : string;
  Header : gmap string (list string);
  rBody : option Reader;
  ContentLength : Z;
  TransferEncoding : list string
}.

Record Response : Type := mkResponse {
  StatusCode : Z;
  Status : string;
  respHeader : gmap string (list string);
  respBody : body
}.

(** [credentials.Value]. *)
Record Value (SignatureType : Type) : Type := mkValue {
  AccessKeyID : string;
  SecretAccessKey : string;
  SessionToken : string;
  SignerType : SignatureType
}.
Arguments mkValue {SignatureType}.
Arguments AccessKeyID {SignatureType}.
Arguments SecretAccessKey {SignatureType}.
Arguments SessionToken {SignatureType}.
Arguments SignerType {SignatureType}.

Inductive BucketLookupType : Type :=
| BucketLookupAuto
| BucketLookupDNS
| BucketLookupPath.

(** [requestMetadata]. *)
Record requestMetadata : Type := mkRequestMetadata {
  presignURL : bool;
  bucketName : string;
  objectName : string;
  queryValues : gmap string (list string);
  customHeader : gmap string (list string);
  expires : Z;
  bucketLocation : string;
  contentBody : option Reader;
  contentLength : Z;
  contentMD5Base64 : string;
  contentSHA256Hex : string
}.

(** ** Strings *)

(** [strings.Contains]. *)
Fixpoint strings_Contains (s substr : string) : bool :=
  String.prefix substr s ||
  match s with
  | EmptyString => false
  | String _ s' => strings_Contains s' substr
  end.

(** [strconv.Itoa]. *)
Definition strconv_Itoa (n : Z) : string :=
  DecimalString.NilZero.string_of_int (Z.to_int n).

(** [==] and [!=] on Go strings. *)
Notation "a =? b" := (String.eqb a b) : string_scope.
Notation "a ≠? b" := (negb (String.eqb a b)) (at level 70) : string_scope.

(** ** Imported packages and the rest of the package *)

Class External : Type := {
  (* credentials *)
  SignatureType : Type;
  SignatureType_eqb : SignatureType -> SignatureType -> bool;
  SignatureDefault : SignatureType;
  SignatureAnonymous : SignatureType;
  IsV2 : SignatureType -> bool;
  IsV4 : SignatureType -> bool;
  IsAnonymous : SignatureType -> bool;
  (* s3utils *)
  CheckValidBucketName : string -> option error;
  CheckValidObjectName : string -> option error;
  GetRegionFromURL : URL -> string;
  IsAmazonEndpoint : URL -> bool;
  IsAmazonFIPSEndpoint : URL -> bool;
  IsVirtualHostSupported : URL -> string -> bool;
  EncodePath : string -> string;
  QueryEncode : gmap string (list string) -> string;
  (* s3signer; the last argument is the time at which the signer runs *)
  SignV2 : Request -> string -> string -> bool -> nat -> Request;
  SignV4 : Request -> string -> string -> string -> string -> nat -> Request;
  PreSignV2 : Request -> string -> string -> Z -> bool -> nat -> Request;
  PreSignV4 : Request -> string -> string -> string -> string -> Z -> nat -> Request;
  StreamingSignV4 : Request -> string -> string -> string -> string -> Z -> nat -> Request;
  (* net, net/url, net/http, net/textproto, path, runtime *)
  url_Parse : string -> error + URL;
  URL_String : URL -> string;
  net_SplitHostPort : string -> option (string * string);
  http_NewRequest : string -> string -> error + Request;
  CanonicalHeaderKey : string -> string;
  path_Join : string -> string -> string;
  Values_Encode : gmap string (list string) -> string;
  runtime_GOOS : string;
  runtime_GOARCH : string;
  (* other files of the package *)
  httpRespToErrorResponse : option Response -> string -> string -> error;
  ToErrorResponse : error -> ErrorResponse;
  xmlDecoder : body -> error + string;
  ErrInvalidArgument : string -> error;
  isS3CodeRetryable : string -> bool;
  isHTTPStatusRetryable : Z -> bool;
  isHTTPReqErrorRetryable : error -> bool;
  MaxRetry : nat;
  maxPartSize : Z;
  unsignedPayload : string;
  emptySHA256Hex : string;
  reportIssue : string
}.

(** [Client], without the fields that point to shared mutable data
    ([endpointURL], [bucketLocCache], kept in [state]) and without the
    handles of the outside world ([credsProvider], [httpClient],
    [traceOutput], [random], kept in [World]). *)
Record Client `{External} : Type := mkClient {
  overrideSignerType : SignatureType;
  appName : string;
  appVersion : string;
  secure : bool;
  isTraceEnabled : bool;
  traceErrorsOnly : bool;
  s3AccelerateEndpoint : string;
  region : string;
  lookup : BucketLookupType
}.

(** ** The outside world

    Every call that leaves the program reads its answer from an oracle at the
    current value of a logical clock and advances the clock.
    [httpClient_Do] also answers the endpoint URL left in [*c.endpointURL]
    by the redirect hook, which the transport runs while it follows
    redirects (it is the argument when no redirect was followed).
    [dumpHTTP] only writes to the trace output; its answer is the first
    error of these writes. *)
Class World `{External} : Type := {
  credsProvider_Get : nat -> error + Value SignatureType;
  httpClient_Do : nat -> URL -> Request -> (option Response * option error) * URL;
  bodySeeker_Seek : nat -> option error;
  dumpHTTP : nat -> Request -> Response -> option error
}.

(** What an observer of a call sees, in order. *)
Inductive event : Type :=
| EvSeek                                   (* bodySeeker.Seek(0, 0) *)
| EvNewRequest                             (* c.newRequest(method, metadata) *)
| EvDo (req : Request)                     (* c.httpClient.Do(req) *)
| EvCacheSet (bucket location : string)    (* c.bucketLocCache.Set *)
| EvClose.                                 (* bodyCloser.Close() *)

(** The data shared by all copies of a client, the clock and the events so
    far (latest first). *)
Record state : Type := mkState {
  endpointURL : URL;
  items : gmap string string;
  clock : nat;
  events : list event
}.

(** ** A state and error monad for Go calls *)

Definition M (A : Type) : Type := state -> result A * state.

#[export] Instance M_ret : MRet M := fun A a s => (Ok a, s).

#[export] Instance M_bind : MBind M := fun A B f m s =>
  match m s with
  | (Ok a, s') => f a s'
  | (Err e, s') => (Err e, s')
  | (Panic w, s') => (Panic w, s')
  end.

Definition fail {A} (e : error) : M A := fun s => (Err e, s).
Definition panic {A} (why : string) : M A := fun s => (Panic why, s).

(** A call whose error is inspected by the caller. *)
Definition catch {A} (m : M A) : M (error + A) := fun s =>
  match m s with
  | (Ok a, s') => (Ok (inr a), s')
  | (Err e, s') => (Ok (inl e), s')
  | (Panic w, s') => (Panic w, s')
  end.

(** [defer f()] around [m]: [f] runs when [m] returns or panics. *)
Definition defer {A} (f : state -> state) (m : M A) : M A := fun s =>
  let '(r, s') := m s in (r, f s').

Definition lift {A} (r : result A) : M A := fun s => (r, s).

Definition get_endpointURL : M URL := fun s => (Ok (endpointURL s), s).

Definition log (e : event) (s : state) : state :=
  mkState (endpointURL s) (items s) (clock s) (e :: events s).

Definition emit (e : event) : M unit := fun s => (Ok tt, log e s).

Definition tick (s : state) : state :=
  mkState (endpointURL s) (items s) (S (clock s)) (events s).

Definition now : M nat := fun s => (Ok (clock s), s).

(** ** The program *)

Section Program.

Context `{Ext : External} {W : World}.

(** [http.Header.Set] and [http.Header.Get]. *)
Definition Header_Set (h : gmap string (list string)) (k v : string) :
    gmap string (list string) :=
  <[CanonicalHeaderKey k := [v]]> h.

Definition Header_Get (h : gmap string (list string)) (k : string) : string :=
  match h !! CanonicalHeaderKey k with
  | Some (v :: _) => v
  | _ => ""
  end.

Definition withHeader (req : Request) (h : gmap string (list string)) : Request :=
  mkRequest (Method req) (rURL req) (Host req) h (rBody req)
            (ContentLength req) (TransferEncoding req).

Definition libraryName : string := "minio-go".
Definition libraryVersion : string := "v6.0.44".
Definition libraryUserAgentPrefix : string :=
  "MinIO (" +:+ runtime_GOOS +:+ "; " +:+ runtime_GOARCH +:+ ") ".
Definition libraryUserAgent : string :=
  libraryUserAgentPrefix +:+ libraryName +:+ "/" +:+ libraryVersion.

(** [successStatus]. *)
Definition successStatus : list Z := [200; 204; 206].

(** [newBucketLocationCache]. *)
Definition newBucketLocationCache : gmap string string := ∅.

(** [bucketLocationCache.Get]. *)
Definition bucketLocCache_Get (bucketName : string) : M (string * bool) := fun s =>
  match items s !! bucketName with
  | Some location => (Ok (location, true), s)
  | None => (Ok ("", false), s)
  end.

(** [bucketLocationCache.Set]. *)
Definition bucketLocCache_Set (bucketName location : string) : M unit := fun s =>
  (Ok tt, log (EvCacheSet bucketName location)
              (mkState (endpointURL s) (<[bucketName := location]> (items s))
                       (clock s) (events s))).

(** [c.credsProvider.Get()]. *)
Definition credsGet : M (Value SignatureType) := fun s =>
  match credsProvider_Get (clock s) with
  | inl e => (Err e, tick s)
  | inr value => (Ok value, tick s)
  end.

(** The signer type in force, computed alike in [redirectHeaders],
    [getBucketLocationRequest] and [newRequest]: the client's override unless
    it is the default, and anonymous whenever the provider says anonymous. *)
Definition effectiveSignerType (c : Client) (value : Value SignatureType) :
    SignatureType :=
  let signerType := SignerType value in
  let signerType :=
    if negb (SignatureType_eqb (overrideSignerType c) SignatureDefault)
    then overrideSignerType c else signerType in
  if SignatureType_eqb (SignerType value) SignatureAnonymous
  then SignatureAnonymous else signerType.

(** [setUserAgent]. *)
Definition setUserAgent (c : Client) (req : Request) : Request :=
  let h := Header_Set (Header req) "User-Agent" libraryUserAgent in
  let h :=
    if (appName c ≠? "") && (appVersion c ≠? "")
    then Header_Set h "User-Agent"
           (libraryUserAgent +:+ " " +:+ appName c +:+ "/" +:+ appVersion c)
    else h in
  withHeader req h.

(** The port is dropped from [host] when it is the default one of [scheme]
    ([getBucketLocationRequest] and [makeTargetURL]). *)
Definition stripDefaultPort (scheme host : string) : string :=
  match net_SplitHostPort host with
  | Some (h, p) =>
      if (scheme =? "http") && (p =? "80") || (scheme =? "https") && (p =? "443")
      then h else host
  | None => host
  end.

(** [getBucketLocationRequest]. *)
Definition getBucketLocationRequest (c : Client) (bucketName : string) : M Request :=
  let urlValues : gmap string (list string) := <["location" := [""]]> ∅ in
  targetURL ← get_endpointURL;
  let targetURL :=
    mkURL (Scheme targetURL) (stripDefaultPort (Scheme targetURL) (uHost targetURL))
          (path_Join bucketName "" +:+ "/") (Values_Encode urlValues) in
  match http_NewRequest "GET" (URL_String targetURL) with
  | inl err => fail err
  | inr req =>
      let req := setUserAgent c req in
      value ← credsGet;
      let signerType := effectiveSignerType c value in
      t ← now;
      if IsAnonymous signerType then mret req
      else if IsV2 signerType then
        let isVirtualHost := false in
        mret (SignV2 req (AccessKeyID value) (SecretAccessKey value) isVirtualHost t)
      else
        let contentSha256 := if secure c then unsignedPayload else emptySHA256Hex in
        let req := withHeader req
                     (Header_Set (Header req) "X-Amz-Content-Sha256" contentSha256) in
        mret (SignV4 req (AccessKeyID value) (SecretAccessKey value)
                     (SessionToken value) "us-east-1" t)
  end.

(** [c.httpClient.Do(req)]. *)
Definition httpDo (req : Request) : M (option Response * option error) := fun s =>
  let '(answer, u) := httpClient_Do (clock s) (endpointURL s) req in
  (Ok answer, log (EvDo req) (mkState u (items s) (S (clock s)) (events s))).

(** [c.dumpHTTP(req, resp)]. *)
Definition dump (req : Request) (resp : Response) : M unit := fun s =>
  match dumpHTTP (clock s) req resp with
  | Some err => (Err err, tick s)
  | None => (Ok tt, tick s)
  end.

(** [do]. *)
Definition do (c : Client) (req : Request) : M Response :=
  '(resp, err) ← httpDo req;
  match err with
  | Some err =>
      match err with
      | ErrURL op u text =>
          if strings_Contains text "EOF"
          then fail (ErrURL op u
                 ("Connection closed by foreign host " +:+ u +:+ ". Retry again."))
          else fail err
      | _ => fail err
      end
  | None =>
      match resp with
      | None => fail (ErrInvalidArgument ("Response is empty. " +:+ reportIssue))
      | Some resp =>
          if isTraceEnabled c && negb (traceErrorsOnly c && (StatusCode resp =? 200)%Z)
          then _ ← dump req resp; mret resp
          else mret resp
      end
  end.

(** The normalisation of the decoded location constraint in
    [processBucketLocationResponse]. *)
Definition normalizeLocation (locationConstraint : string) : string :=
  let location := locationConstraint in
  let location := if location =? "" then "us-east-1" else location in
  let location := if location =? "EU" then "eu-west-1" else location in
  location.

(** [processBucketLocationResponse]. *)
Definition processBucketLocationResponse (resp : option Response)
    (bucketName : string) : result string :=
  let extract (b : option body) : result string :=
    match b with
    | None => Panic "invalid memory address or nil pointer dereference"
    | Some b =>
        match xmlDecoder b with
        | inl err => Err err
        | inr locationConstraint => Ok (normalizeLocation locationConstraint)
        end
    end in
  match resp with
  | Some r =>
      if negb (StatusCode r =? 200)%Z then
        let err := httpRespToErrorResponse resp bucketName "" in
        let errResp := ToErrorResponse err in
        if (Code errResp =? "AuthorizationHeaderMalformed")
           || (Code errResp =? "InvalidRegion")
           || (Code errResp =? "AccessDenied")
        then
          if Region errResp =? "" then Ok "us-east-1" else Ok (Region errResp)
        else Err err
      else extract (Some (respBody r))
  | None => extract None
  end.

(** [getBucketLocation]. *)
Definition getBucketLocation (c : Client) (bucketName : string) : M string :=
  match CheckValidBucketName bucketName with
  | Some err => fail err
  | None =>
      if region c ≠? "" then mret (region c)
      else
        '(location, ok) ← bucketLocCache_Get bucketName;
        if ok : bool then mret location
        else
          req ← getBucketLocationRequest c bucketName;
          resp ← do c req;
          location ← lift (processBucketLocationResponse (Some resp) bucketName);
          _ ← bucketLocCache_Set bucketName location;
          mret location
  end.

(** [getDefaultLocation]. *)
Definition getDefaultLocation (u : URL) (regionOverride : string) : string :=
  if regionOverride ≠? "" then regionOverride
  else
    let region := GetRegionFromURL u in
    let region := if region =? "" then "us-east-1" else region in
    region.

(** [isVirtualHostStyleRequest]. *)
Definition isVirtualHostStyleRequest (c : Client) (url : URL) (bucketName : string) :
    bool :=
  if bucketName =? "" then false
  else
    match lookup c with
    | BucketLookupDNS => true
    | BucketLookupPath => false
    | BucketLookupAuto => IsVirtualHostSupported url bucketName
    end.

(** [ErrTransferAccelerationBucket]. *)
Definition ErrTransferAccelerationBucket (bucketName : string) : error :=
  ErrOfResponse
    (mkErrorResponse 400 "InvalidArgument"
       "The name of the bucket used for Transfer Acceleration must be DNS-compliant and must not contain periods ‘.’."
       bucketName "").

(** [awsS3EndpointMap]. *)
Definition awsS3EndpointMap : gmap string string :=
  list_to_map
    [ ("us-east-1", "s3.dualstack.us-east-1.amazonaws.com");
      ("us-east-2", "s3.dualstack.us-east-2.amazonaws.com");
      ("us-west-2", "s3.dualstack.us-west-2.amazonaws.com");
      ("us-west-1", "s3.dualstack.us-west-1.amazonaws.com");
      ("ca-central-1", "s3.dualstack.ca-central-1.amazonaws.com");
      ("eu-west-1", "s3.dualstack.eu-west-1.amazonaws.com");
      ("eu-west-2", "s3.dualstack.eu-west-2.amazonaws.com");
      ("eu-west-3", "s3.dualstack.eu-west-3.amazonaws.com");
      ("eu-central-1", "s3.dualstack.eu-central-1.amazonaws.com");
      ("eu-north-1", "s3.dualstack.eu-north-1.amazonaws.com");
      ("ap-east-1", "s3.dualstack.ap-east-1.amazonaws.com");
      ("ap-south-1", "s3.dualstack.ap-south-1.amazonaws.com");
      ("ap-southeast-1", "s3.dualstack.ap-southeast-1.amazonaws.com");
      ("ap-southeast-2", "s3.dualstack.ap-southeast-2.amazonaws.com");
      ("ap-northeast-1", "s3.dualstack.ap-northeast-1.amazonaws.com");
      ("ap-northeast-2", "s3.dualstack.ap-northeast-2.amazonaws.com");
      ("sa-east-1", "s3.dualstack.sa-east-1.amazonaws.com");
      ("us-gov-west-1", "s3.dualstack.us-gov-west-1.amazonaws.com");
      ("us-gov-east-1", "s3.dualstack.us-gov-east-1.amazonaws.com");
      ("cn-north-1", "s3.cn-north-1.amazonaws.com.cn");
      ("cn-northwest-1", "s3.cn-northwest-1.amazonaws.com.cn") ].

(** [getS3Endpoint]. *)
Definition getS3Endpoint (bucketLocation : string) : string :=
  match awsS3EndpointMap !! bucketLocation with
  | Some s3Endpoint => s3Endpoint
  | None => "s3.dualstack.us-east-1.amazonaws.com"
  end.

(** The host [makeTargetURL] settles on before it strips the port. *)
Definition targetHost (c : Client) (ep : URL) (bucketName bucketLocation : string) :
    result string :=
  let host := uHost ep in
  if IsAmazonEndpoint ep then
    if (s3AccelerateEndpoint c ≠? "") && (bucketName ≠? "") then
      if strings_Contains bucketName "."
      then Err (ErrTransferAccelerationBucket bucketName)
      else Ok (s3AccelerateEndpoint c)
    else
      if negb (IsAmazonFIPSEndpoint ep)
      then Ok (getS3Endpoint bucketLocation)
      else Ok host
  else Ok host.

(** The string [makeTargetURL] hands to [url.Parse], for the host settled. *)
Definition targetURLString (scheme host bucketName objectName : string)
    (isVirtualHostStyle : bool) (queryValues : gmap string (list string)) : string :=
  let host := stripDefaultPort scheme host in
  let urlStr := scheme +:+ "://" +:+ host +:+ "/" in
  let urlStr :=
    if bucketName ≠? "" then
      if isVirtualHostStyle then
        let urlStr := scheme +:+ "://" +:+ bucketName +:+ "." +:+ host +:+ "/" in
        if objectName ≠? "" then urlStr +:+ EncodePath objectName else urlStr
      else
        let urlStr := urlStr +:+ bucketName +:+ "/" in
        if objectName ≠? "" then urlStr +:+ EncodePath objectName else urlStr
    else urlStr in
  if (0 <? Z.of_nat (size queryValues))%Z
  then urlStr +:+ "?" +:+ QueryEncode queryValues
  else urlStr.

(** [makeTargetURL]; [ep] is [*c.endpointURL]. *)
Definition makeTargetURL (c : Client) (ep : URL)
    (bucketName objectName bucketLocation : string) (isVirtualHostStyle : bool)
    (queryValues : gmap string (list string)) : result URL :=
  match targetHost c ep bucketName bucketLocation with
  | Ok host =>
      match url_Parse (targetURLString (Scheme ep) host bucketName objectName
                         isVirtualHostStyle queryValues) with
      | inl err => Err err
      | inr u => Ok u
      end
  | Err err => Err err
  | Panic why => Panic why
  end.

(** The loop of [newRequest] over [metadata.customHeader]:
    [req.Header.Set(k, v[0])].  Go ranges over a map in an unspecified order;
    the order of [map_fold] is one of them. *)
Definition setCustomHeaders (customHeader h : gmap string (list string)) :
    result (gmap string (list string)) :=
  map_fold
    (fun k v acc =>
       match acc with
       | Ok h =>
           match v with
           | v0 :: _ => Ok (Header_Set h k v0)
           | [] => Panic "index out of range [0] with length 0"
           end
       | other => other
       end)
    (Ok h) customHeader.

(** [newRequest], from the resolution of the location to [http.NewRequest]:
    the location, the addressing style and the bare request. *)
Definition newRequestTarget (c : Client) (method : string) (metadata : requestMetadata) :
    M (string * bool * Request) :=
  let location := bucketLocation metadata in
  location ←
    (if location =? "" then
       location ← (if bucketName metadata ≠? ""
                   then getBucketLocation c (bucketName metadata)
                   else mret location);
       if location =? "" then
         ep ← get_endpointURL; mret (getDefaultLocation ep (region c))
       else mret location
     else mret location);
  ep ← get_endpointURL;
  let isMakeBucket :=
    (objectName metadata =? "") && (method =? "PUT")
    && (Z.of_nat (size (queryValues metadata)) =? 0)%Z in
  let isVirtualHost :=
    isVirtualHostStyleRequest c ep (bucketName metadata) && negb isMakeBucket in
  targetURL ← lift (makeTargetURL c ep (bucketName metadata) (objectName metadata)
                      location isVirtualHost (queryValues metadata));
  match http_NewRequest method (URL_String targetURL) with
  | inl err => fail err
  | inr req => mret (location, isVirtualHost, req)
  end.

(** [newRequest], from the credentials on. *)
Definition newRequestSign (c : Client) (method : string) (metadata : requestMetadata)
    (location : string) (isVirtualHost : bool) (req : Request)
    (value : Value SignatureType) : M Request :=
  let signerType := effectiveSignerType c value in
  let accessKeyID := AccessKeyID value in
  let secretAccessKey := SecretAccessKey value in
  let sessionToken := SessionToken value in
  t ← now;
  if negb (expires metadata =? 0)%Z && presignURL metadata then
    if IsAnonymous signerType then
      fail (ErrInvalidArgument
              "Presigned URLs cannot be generated with anonymous credentials.")
    else if IsV2 signerType then
      mret (PreSignV2 req accessKeyID secretAccessKey (expires metadata) isVirtualHost t)
    else if IsV4 signerType then
      mret (PreSignV4 req accessKeyID secretAccessKey sessionToken location
                      (expires metadata) t)
    else mret req
  else
    let req := setUserAgent c req in
    h ← lift (setCustomHeaders (customHeader metadata) (Header req));
    let req := withHeader req h in
    let req :=
      mkRequest (Method req) (rURL req) (Host req) (Header req)
        (if (contentLength metadata =? 0)%Z then None else contentBody metadata)
        (contentLength metadata)
        (if (contentLength metadata <=? -1)%Z then ["chunked"]
         else TransferEncoding req) in
    let req :=
      if (0 <? Z.of_nat (String.length (contentMD5Base64 metadata)))%Z
      then withHeader req (Header_Set (Header req) "Content-Md5"
                             (contentMD5Base64 metadata))
      else req in
    if IsAnonymous signerType then mret req
    else if IsV2 signerType then
      mret (SignV2 req accessKeyID secretAccessKey isVirtualHost t)
    else if (objectName metadata ≠? "") && (method =? "PUT")
            && (Header_Get (customHeader metadata) "X-Amz-Copy-Source" =? "")
            && negb (secure c) then
      mret (StreamingSignV4 req accessKeyID secretAccessKey sessionToken location
                            (contentLength metadata) t)
    else
      let shaHeader :=
        if contentSHA256Hex metadata ≠? "" then contentSHA256Hex metadata
        else unsignedPayload in
      let req := withHeader req
                   (Header_Set (Header req) "X-Amz-Content-Sha256" shaHeader) in
      mret (SignV4 req accessKeyID secretAccessKey sessionToken location t).

(** [newRequest]. *)
Definition newRequest (c : Client) (method : string) (metadata : requestMetadata) :
    M Request :=
  let method := if method =? "" then "POST" else method in
  '(location, isVirtualHost, req) ← newRequestTarget c method metadata;
  value ← credsGet;
  newRequestSign c method metadata location isVirtualHost req value.

(** [time.Second], in nanoseconds. *)
Definition time_Second : Z := 1000000000.

(** The query values [GenUploadPartSignedUrl] builds. *)
Definition uploadPartValues (partNumber : Z) (uploadID : string) :
    gmap string (list string) :=
  <["uploadId" := [uploadID]]> (<["partNumber" := [strconv_Itoa partNumber]]> ∅).

(** The [requestMetadata] [GenUploadPartSignedUrl] builds; [expires] is a
    [time.Duration], in nanoseconds, and Go's division truncates. *)
Definition uploadPartMetadata (uploadID bucketName objectName : string)
    (partNumber size expires : Z) (bucketLocation : string) : requestMetadata :=
  mkRequestMetadata true bucketName objectName
    (uploadPartValues partNumber uploadID) ∅
    (Z.quot expires time_Second) bucketLocation None size "" "".

(** [GenUploadPartSignedUrl]. *)
Definition GenUploadPartSignedUrl (c : Client) (uploadID bucketName objectName : string)
    (partNumber size expires : Z) (bucketLocation : string) : M string :=
  match CheckValidBucketName bucketName with
  | Some err => fail err
  | None =>
  match CheckValidObjectName objectName with
  | Some err => fail err
  | None =>
      if (size >? maxPartSize)%Z then fail (ErrNew "size is illegal")
      else if (size <=? -1)%Z then fail (ErrNew "size is illegal")
      else if (partNumber <=? 0)%Z then fail (ErrNew "partNumber is illegal")
      else if uploadID =? "" then fail (ErrNew "uploadID is illegal")
      else
        req ← newRequest c "PUT"
                (uploadPartMetadata uploadID bucketName objectName partNumber size
                                    expires bucketLocation);
        mret (URL_String (rURL req))
  end
  end.

(** *** The retry loop *)

(** The named results [res] and [err] of [executeMethod]. *)
Record locals : Type := mkLocals {
  res : option Response;
  err : option error
}.

(** How one pass through the body of the loop ends. *)
Inductive control : Type :=
| Continue (l : locals)
| Break (l : locals)
| Return (res : option Response) (err : option error).

(** [bodySeeker.Seek(0, 0)]. *)
Definition seekStart : M (option error) := fun s =>
  (Ok (bodySeeker_Seek (clock s)), log EvSeek (tick s)).

(** The type assertions of [executeMethod] on [metadata.contentBody]. *)
Definition isSeeker (r : Reader) : bool :=
  match r with
  | StdFile _ | SeekReader _ _ => true
  | PlainReader _ _ => false
  end.

Definition isCloser (r : Reader) : bool :=
  match r with
  | StdFile _ => true
  | SeekReader _ closer | PlainReader _ closer => closer
  end.

(** The correction of the cached region on a region mismatch.  The answer
    is [true] when the cache was set, where the source says [continue]. *)
Definition correctRegion (c : Client) (metadata : requestMetadata)
    (errResponse : ErrorResponse) : M bool :=
  if (bucketLocation metadata =? "") && (region c =? "") then
    if (Code errResponse =? "AuthorizationHeaderMalformed")
       || (Code errResponse =? "InvalidRegion") then
      if (bucketName metadata ≠? "") && (Region errResponse ≠? "") then
        '(_, cachedLocationError) ← bucketLocCache_Get (bucketName metadata);
        if negb (Bool.eqb cachedLocationError false) then
          _ ← bucketLocCache_Set (bucketName metadata) (Region errResponse);
          mret true
        else mret false
      else mret false
    else mret false
  else mret false.

(** The body of the loop, from the answer of [c.do] on. *)
Definition handleResponse (c : Client) (metadata : requestMetadata) (r : Response) :
    M control :=
  if existsb (fun httpStatus => (httpStatus =? StatusCode r)%Z) successStatus
  then mret (Return (Some r) None)
  else
    match respBody r with
    | BodyFails err => mret (Return None (Some err))
    | BodyBytes errBodyBytes =>
        let r := mkResponse (StatusCode r) (Status r) (respHeader r)
                            (BodyBytes errBodyBytes) in
        let errResponse :=
          ToErrorResponse (httpRespToErrorResponse (Some r) (bucketName metadata)
                                                   (objectName metadata)) in
        corrected ← correctRegion c metadata errResponse;
        if corrected : bool then mret (Continue (mkLocals (Some r) None))
        else if isS3CodeRetryable (Code errResponse)
        then mret (Continue (mkLocals (Some r) None))
        else if isHTTPStatusRetryable (StatusCode r)
        then mret (Continue (mkLocals (Some r) None))
        else mret (Break (mkLocals (Some r) None))
    end.

(** The body of the loop, from [c.newRequest] on. *)
Definition attemptRequest (c : Client) (method : string) (metadata : requestMetadata)
    (l : locals) : M control :=
  req ← catch (newRequest c method metadata);
  match req with
  | inl err =>
      let errResponse := ToErrorResponse err in
      if isS3CodeRetryable (Code errResponse)
      then mret (Continue (mkLocals (res l) (Some err)))
      else mret (Return None (Some err))
  | inr req =>
      r ← catch (do c req);
      match r with
      | inl err =>
          if isHTTPReqErrorRetryable err
          then mret (Continue (mkLocals None (Some err)))
          else mret (Return None (Some err))
      | inr r => handleResponse c metadata r
      end
  end.

(** The body of the loop. *)
Definition attempt (c : Client) (method : string) (metadata : requestMetadata)
    (isRetryable : bool) (l : locals) : M control :=
  seekErr ← (if isRetryable then seekStart else mret None);
  match seekErr with
  | Some err => mret (Return None (Some err))
  | None =>
      _ ← emit EvNewRequest;
      attemptRequest c method metadata l
  end.

(** Modelled from the spec: [newRetryTimer] is in another file of the
    package.  It gives the loop one tick per attempt of the budget
    [maxRetry], numbered from 1, and waits a jittered delay between ticks. *)
Definition newRetryTimer (maxRetry : nat) : list nat := seq 1 maxRetry.

(** [for range c.newRetryTimer(...) { ... }; return res, err]. *)
Fixpoint retryLoop (c : Client) (method : string) (metadata : requestMetadata)
    (isRetryable : bool) (ticks : list nat) (l : locals) :
    M (option Response * option error) :=
  match ticks with
  | [] => mret (res l, err l)
  | _ :: ticks =>
      ctl ← attempt c method metadata isRetryable l;
      match ctl with
      | Continue l => retryLoop c method metadata isRetryable ticks l
      | Break l => mret (res l, err l)
      | Return res err => mret (res, err)
      end
  end.

(** The attempt budget [reqRetry] and the flag [isRetryable]. *)
Definition retryPlan (contentBody : option Reader) : bool * nat :=
  match contentBody with
  | Some body =>
      let isRetryable := isSeeker body in
      let isRetryable :=
        match body with
        | StdFile _ => false
        | _ => isRetryable
        end in
      (isRetryable, if negb isRetryable then 1%nat else MaxRetry)
  | None => (false, MaxRetry)
  end.

(** [executeMethod]. *)
Definition executeMethod (c : Client) (method : string) (metadata : requestMetadata) :
    M (option Response * option error) :=
  let '(isRetryable, reqRetry) := retryPlan (contentBody metadata) in
  let loop := retryLoop c method metadata isRetryable (newRetryTimer reqRetry)
                        (mkLocals None None) in
  match contentBody metadata with
  | Some body => if isCloser body then defer (log EvClose) loop else loop
  | None => loop
  end.

(** *** The redirect hook *)

(** The loop of [redirectHeaders] over the headers of the last request:
    the flag [reAuth] and the headers of [req]. *)
Definition copyHeaders (req lastRequest : Request) :
    bool * gmap string (list string) :=
  map_fold
    (fun attr val '(reAuth, h) =>
       if (attr =? "Authorization") && (Host req ≠? Host lastRequest)
       then (true, h)
       else
         match h !! attr with
         | Some _ => (reAuth, h)
         | None => (reAuth, <[attr := val]> h)
         end)
    (false, Header req) (Header lastRequest).

Definition set_endpointURL (u : URL) : M unit := fun s =>
  (Ok tt, mkState u (items s) (clock s) (events s)).

(** [redirectHeaders]; the answer is [req] as the hook leaves it.  [SignV4]
    gets a copy of [*req] and its result is dropped: what stays is what it
    wrote into the header map, which the copy shares. *)
Definition redirectHeaders (c : Client) (req : Request) (via : list Request) :
    M Request :=
  if (5 <=? Z.of_nat (length via))%Z then fail (ErrNew "stopped after 5 redirects")
  else
    match last via with
    | None => mret req
    | Some lastRequest =>
        let '(reAuth, h) := copyHeaders req lastRequest in
        let req := withHeader req h in
        _ ← set_endpointURL (rURL req);
        value ← credsGet;
        let signerType := effectiveSignerType c value in
        let region := region c in
        if reAuth : bool then
          ep ← get_endpointURL;
          let region := if region =? "" then GetRegionFromURL ep else region in
          if IsV2 signerType then
            fail (ErrNew "signature V2 cannot support redirection")
          else if IsV4 signerType then
            t ← now;
            mret (withHeader req
                    (Header (SignV4 req (AccessKeyID value) (SecretAccessKey value)
                               (SessionToken value) (getDefaultLocation ep region) t)))
          else mret req
        else mret req
    end.

End Program.

(** * The vocabulary of the properties *)

Section Vocabulary.

Context `{Ext : External}.

(** Every run of [m] takes a state to a state related by [R]. *)
Definition preserves (R : state -> state -> Prop) {A} (m : M A) : Prop :=
  forall s, R s (m s).2.

Definition nonEmptyCache (s : state) : Prop :=
  map_Forall (fun _ location => location <> "") (items s).

(** The events of the calls inside an attempt: transport calls, and cache
    writes of a region that is not empty. *)
Definition quiet (e : event) : Prop :=
  match e with
  | EvDo _ => True
  | EvCacheSet _ location => location <> ""
  | _ => False
  end.

Definition inner (s s' : state) : Prop :=
  (exists new, events s' = (new ++ events s)%list /\ Forall quiet new) /\
  (nonEmptyCache s -> nonEmptyCache s').

(** A write into the cache of a region that is not empty; any other event. *)
Definition writesNonEmpty (e : event) : Prop :=
  match e with
  | EvCacheSet _ location => location <> ""
  | _ => True
  end.

(** From [s] to [s']: the events added write no empty region into the cache,
    and no entry of the cache is empty. *)
Definition cacheKept (s s' : state) : Prop :=
  nonEmptyCache s' /\
  exists new, events s' = (new ++ events s)%list /\ Forall writesNonEmpty new.

(** The events of a loop with a budget of [n] attempts, in the order they
    happen: every attempt opens with [EvNewRequest], directly after a seek
    to the start when [seek] holds, and goes on with events of the calls it
    makes; a seek with no attempt behind it ends the trace. *)
Inductive attemptsTrace (seek : bool) : nat -> list event -> Prop :=
| trace_done (n : nat) : attemptsTrace seek n []
| trace_seek_only (n : nat) : seek = true -> attemptsTrace seek (S n) [EvSeek]
| trace_attempt (n : nat) (calls rest : list event) :
    Forall quiet calls ->
    attemptsTrace seek n rest ->
    attemptsTrace seek (S n)
      ((if seek then [EvSeek] else []) ++ EvNewRequest :: calls ++ rest)%list.

(** The number of attempts and of seeks in a trace. *)
Fixpoint attempts (chrono : list event) : nat :=
  match chrono with
  | [] => 0
  | EvNewRequest :: chrono => S (attempts chrono)
  | _ :: chrono => attempts chrono
  end.

Fixpoint seeks (chrono : list event) : nat :=
  match chrono with
  | [] => 0
  | EvSeek :: chrono => S (seeks chrono)
  | _ :: chrono => seeks chrono
  end.

(** The events of the deferred [Close] of the body. *)
Definition closeEvents (contentBody : option Reader) : list event :=
  match contentBody with
  | Some body => if isCloser body then [EvClose] else []
  | None => []
  end.

(** The codes [processBucketLocationResponse] takes for a hint of the region. *)
Definition regionHintCodes : list string :=
  ["AuthorizationHeaderMalformed"; "InvalidRegion"; "AccessDenied"].

(** The conditions of the correction, in the words of the specification. *)
Definition regionMismatch (c : Client) (metadata : requestMetadata)
    (errResponse : ErrorResponse) (s : state) : Prop :=
  bucketLocation metadata = "" /\
  region c = "" /\
  (Code errResponse = "AuthorizationHeaderMalformed" \/
   Code errResponse = "InvalidRegion") /\
  bucketName metadata <> "" /\
  Region errResponse <> "" /\
  is_Some (items s !! bucketName metadata).

(** The state after the correction. *)
Definition correctedState (metadata : requestMetadata) (errResponse : ErrorResponse)
    (s : state) : state :=
  mkState (endpointURL s)
          (<[bucketName metadata := Region errResponse]> (items s))
          (clock s)
          (EvCacheSet (bucketName metadata) (Region errResponse) :: events s).

(** The method [newRequest] works with. *)
Definition methodOrPOST (method : string) : string :=
  if method =? "" then "POST" else method.

(** The headers [copyHeaders] takes from the last request: all of them, but
    [Authorization] when the hosts differ. *)
Definition copied (req lastRequest : Request) (m : gmap string (list string)) :
    gmap string (list string) :=
  if Host req ≠? Host lastRequest then delete "Authorization" m else m.

Definition hasAuthorization (m : gmap string (list string)) : bool :=
  match m !! "Authorization" with
  | Some _ => true
  | None => false
  end.

(** The region [redirectHeaders] signs with. *)
Definition redirectRegion (c : Client) (target : URL) : string :=
  if region c ≠? "" then region c
  else if GetRegionFromURL target ≠? "" then GetRegionFromURL target
  else "us-east-1".

End Vocabulary.

(** * A stand-in for the outside

    Instances of [External] and [World] on which the program runs: the
    signature types of the credentials package, and simple versions of the
    functions of the imported packages and of the other files of the
    package, which do on the inputs used below what the real ones do.  The
    signers write a mark where the real ones write a signature. *)

Module Double.

Inductive SigType : Type :=
| SigDefault | SigV4 | SigV2 | SigV4Streaming | SigAnonymous.

Definition SigType_eqb (a b : SigType) : bool :=
  match a, b with
  | SigDefault, SigDefault | SigV4, SigV4 | SigV2, SigV2
  | SigV4Streaming, SigV4Streaming | SigAnonymous, SigAnonymous => true
  | _, _ => false
  end.

(** The text of [s] between the first [opening] and the next [closing]. *)
Definition between (opening closing s : string) : option string :=
  match String.index 0 opening s with
  | Some i =>
      let start := (i + String.length opening)%nat in
      match String.index start closing s with
      | Some j => Some (String.substring start (j - start) s)
      | None => None
      end
  | None => None
  end.

Definition bodyText (b : body) : string :=
  match b with
  | BodyBytes t => t
  | BodyFails _ => ""
  end.

Definition invalidArgument (message : string) : error :=
  ErrOfResponse (mkErrorResponse 400 "InvalidArgument" message "" "").

Definition parseURL (s : string) : error + URL :=
  match String.index 0 "://" s with
  | None => inl (ErrOther "missing protocol scheme")
  | Some i =>
      let scheme := String.substring 0 i s in
      let rest := String.substring (i + 3) (String.length s - (i + 3)) s in
      let '(authority, pathQuery) :=
        match String.index 0 "/" rest with
        | Some j =>
            (String.substring 0 j rest,
             String.substring j (String.length rest - j) rest)
        | None => (rest, "")
        end in
      let '(path, query) :=
        match String.index 0 "?" pathQuery with
        | Some k =>
            (String.substring 0 k pathQuery,
             String.substring (k + 1) (String.length pathQuery - (k + 1)) pathQuery)
        | None => (pathQuery, "")
        end in
      inr (mkURL scheme authority path query)
  end.

Definition printURL (u : URL) : string :=
  Scheme u +:+ "://" +:+ uHost u
  +:+ (if (Path u =? "") || String.prefix "/" (Path u) then Path u
       else "/" +:+ Path u)
  +:+ (if RawQuery u =? "" then "" else "?" +:+ RawQuery u).

Definition splitHostPort (host : string) : option (string * string) :=
  match String.index 0 ":" host with
  | Some i =>
      Some (String.substring 0 i host,
            String.substring (i + 1) (String.length host - (i + 1)) host)
  | None => None
  end.

Definition newRequestOf (method urlStr : string) : error + Request :=
  match parseURL urlStr with
  | inl err => inl err
  | inr u => inr (mkRequest method u (uHost u) ∅ None 0 [])
  end.

Definition encodeValues (values : gmap string (list string)) : string :=
  String.concat "&"
    (map (fun kv : string * list string => kv.1 +:+ "=" +:+ hd "" kv.2)
         (merge_sort (fun a b : string * list string => String.leb a.1 b.1)
                     (map_to_list values))).

Definition checkBucketName (bucketName : string) : option error :=
  if (String.length bucketName <? 3)%nat
  then Some (ErrNew "Bucket name cannot be shorter than 3 characters")
  else if (63 <? String.length bucketName)%nat
  then Some (ErrNew "Bucket name cannot be longer than 63 characters")
  else None.

Definition checkObjectName (objectName : string) : option error :=
  if objectName =? "" then Some (ErrNew "Object name cannot be empty") else None.

Definition isAmazon (u : URL) : bool := uHost u =? "s3.amazonaws.com".

Definition virtualHostSupported (u : URL) (bucketName : string) : bool :=
  if bucketName =? "" then false
  else if (Scheme u =? "https") && strings_Contains bucketName "." then false
  else isAmazon u.

Definition mark (h : gmap string (list string)) (v : string) :
    gmap string (list string) :=
  <["Authorization" := [v]]> h.

Definition withMark (r : Request) (v : string) : Request :=
  mkRequest (Method r) (rURL r) (Host r) (mark (Header r) v) (rBody r)
            (ContentLength r) (TransferEncoding r).

Definition withQuery (r : Request) (q : string) : Request :=
  mkRequest (Method r)
            (mkURL (Scheme (rURL r)) (uHost (rURL r)) (Path (rURL r)) q)
            (Host r) (Header r) (rBody r) (ContentLength r) (TransferEncoding r).

Definition signV2 (r : Request) (accessKeyID secretAccessKey : string)
    (virtualHost : bool) (t : nat) : Request :=
  withMark r ("AWS " +:+ accessKeyID +:+ ":signature").

Definition signV4 (r : Request) (accessKeyID secretAccessKey sessionToken
    location : string) (t : nat) : Request :=
  withMark r ("AWS4-HMAC-SHA256 Credential=" +:+ accessKeyID +:+ "/" +:+ location
              +:+ "/s3/aws4_request, Signature=signature").

Definition streamingSignV4 (r : Request) (accessKeyID secretAccessKey sessionToken
    location : string) (dataLen : Z) (t : nat) : Request :=
  withMark r ("AWS4-HMAC-SHA256 Credential=" +:+ accessKeyID +:+ "/" +:+ location
              +:+ "/s3/aws4_request, Signature=seed-signature").

Definition preSignV2 (r : Request) (accessKeyID secretAccessKey : string)
    (expires : Z) (virtualHost : bool) (t : nat) : Request :=
  withQuery r ("AWSAccessKeyId=" +:+ accessKeyID +:+ "&Expires="
               +:+ strconv_Itoa (Z.of_nat t + expires) +:+ "&"
               +:+ RawQuery (rURL r) +:+ "&Signature=signature").

Definition preSignV4 (r : Request) (accessKeyID secretAccessKey sessionToken
    location : string) (expires : Z) (t : nat) : Request :=
  withQuery r ("X-Amz-Algorithm=AWS4-HMAC-SHA256&X-Amz-Credential=" +:+ accessKeyID
               +:+ "%2F" +:+ location +:+ "%2Fs3%2Faws4_request&X-Amz-Expires="
               +:+ strconv_Itoa expires +:+ "&" +:+ RawQuery (rURL r)
               +:+ "&X-Amz-Signature=signature").

Definition headerRegion (r : Response) : string :=
  match respHeader r !! "X-Amz-Bucket-Region" with
  | Some (v :: _) => v
  | _ => ""
  end.

Definition orElse (o : option string) (d : string) : string :=
  match o with
  | Some v => v
  | None => d
  end.

(** An XML error body gives the code, the message and the region; a body
    without a code gives an error that only tells the status. *)
Definition errorOfResponse (resp : option Response) (bucketName objectName : string) :
    error :=
  match resp with
  | None => invalidArgument "Response is empty. "
  | Some r =>
      let text := bodyText (respBody r) in
      match between "<Code>" "</Code>" text with
      | Some code =>
          ErrOfResponse
            (mkErrorResponse (StatusCode r) code
               (orElse (between "<Message>" "</Message>" text) "")
               (orElse (between "<BucketName>" "</BucketName>" text) "")
               (match between "<Region>" "</Region>" text with
                | Some region => region
                | None => headerRegion r
                end))
      | None =>
          ErrOfResponse
            (if (StatusCode r =? 403)%Z
             then mkErrorResponse 403 "AccessDenied" "Access Denied." bucketName
                                  (headerRegion r)
             else mkErrorResponse (StatusCode r) (Status r) (Status r) bucketName
                                  (headerRegion r))
      end
  end.

Definition toErrorResponse (err : error) : ErrorResponse :=
  match err with
  | ErrOfResponse e => e
  | _ => mkErrorResponse 0 "" "" "" ""
  end.

Definition decodeLocation (b : body) : error + string :=
  match b with
  | BodyFails err => inl err
  | BodyBytes text =>
      match between "<LocationConstraint>" "</LocationConstraint>" text with
      | Some location => inr location
      | None =>
          if strings_Contains text "<LocationConstraint/>" then inr ""
          else inl (ErrOther "EOF")
      end
  end.

Definition retryableCodes : list string :=
  ["RequestError"; "RequestTimeout"; "Throttling"; "ThrottlingException";
   "RequestLimitExceeded"; "RequestThrottled"; "InternalError"; "ExpiredToken";
   "ExpiredTokenException"; "SlowDown"].

Definition retryableStatus : list Z := [429; 500; 502; 503].

#[export] Instance ext : External := {|
  SignatureType := SigType;
  SignatureType_eqb := SigType_eqb;
  SignatureDefault := SigDefault;
  SignatureAnonymous := SigAnonymous;
  IsV2 := fun s => SigType_eqb s SigV2;
  IsV4 := fun s => SigType_eqb s SigV4 || SigType_eqb s SigDefault;
  IsAnonymous := fun s => SigType_eqb s SigAnonymous;
  CheckValidBucketName := checkBucketName;
  CheckValidObjectName := checkObjectName;
  GetRegionFromURL := fun _ => "";
  IsAmazonEndpoint := isAmazon;
  IsAmazonFIPSEndpoint := fun _ => false;
  IsVirtualHostSupported := virtualHostSupported;
  EncodePath := fun p => p;
  QueryEncode := encodeValues;
  SignV2 := signV2;
  SignV4 := signV4;
  PreSignV2 := preSignV2;
  PreSignV4 := preSignV4;
  StreamingSignV4 := streamingSignV4;
  url_Parse := parseURL;
  URL_String := printURL;
  net_SplitHostPort := splitHostPort;
  http_NewRequest := newRequestOf;
  CanonicalHeaderKey := fun k => k;
  path_Join := fun a _ => a;
  Values_Encode := encodeValues;
  runtime_GOOS := "linux";
  runtime_GOARCH := "amd64";
  httpRespToErrorResponse := errorOfResponse;
  ToErrorResponse := toErrorResponse;
  xmlDecoder := decodeLocation;
  ErrInvalidArgument := invalidArgument;
  isS3CodeRetryable := fun code => existsb (String.eqb code) retryableCodes;
  isHTTPStatusRetryable := fun status => existsb (Z.eqb status) retryableStatus;
  isHTTPReqErrorRetryable := fun err =>
    match err with
    | ErrURL _ _ text => negb (strings_Contains text "context canceled")
    | _ => true
    end;
  MaxRetry := 10;
  maxPartSize := 5368709120;
  unsignedPayload := "UNSIGNED-PAYLOAD";
  emptySHA256Hex := "e3b0c44298fc1c149afbf4c8996fb92427ae41e4649b934ca495991b7852b855";
  reportIssue := "Please report this issue at https://github.com/minio/minio-go/issues."
|}.

(** A world without redirects: the provider always answers [value], the
    transport answers [answers t] to the call made at time [t], and the seek
    made at time [t] gives [seeksAt t]. *)
Definition world (value : Value SigType)
    (answers : nat -> option Response * option error)
    (seeksAt : nat -> option error) : @World ext := {|
  credsProvider_Get := fun _ => inr value;
  httpClient_Do := fun t u _ => (answers t, u);
  bodySeeker_Seek := seeksAt;
  dumpHTTP := fun _ _ _ => None
|}.

Definition staticV4 : Value SigType := mkValue "AKIAEXAMPLE" "secret" "" SigV4.
Definition staticV2 : Value SigType := mkValue "AKIAEXAMPLE" "secret" "" SigV2.
Definition anonymous : Value SigType := mkValue "" "" "" SigAnonymous.

Definition response (status : Z) (text body : string) : Response :=
  mkResponse status text ∅ (BodyBytes body).

Definition offline : nat -> option Response * option error :=
  fun _ => (None, Some (ErrURL "Get" "https://s3.amazonaws.com/" "dial tcp: no route to host")).

Definition noSeekError : nat -> option error := fun _ => None.

(** A client of https://s3.amazonaws.com. *)
Definition amazon : URL := mkURL "https" "s3.amazonaws.com" "" "".

Definition client (region accelerate : string) (lookup : BucketLookupType) :
    @Client ext :=
  @mkClient ext SigV4 "" "" true false false accelerate region lookup.

Definition start : state := mkState amazon newBucketLocationCache 0 [].

(** Calls made below. *)
Definition getObject : requestMetadata :=
  mkRequestMetadata false "my-bucket" "key.bin" ∅ ∅ 0 "" None 0 "" "".

Definition putObject : requestMetadata :=
  mkRequestMetadata false "my-bucket" "key.bin" ∅ ∅ 0 "" (Some (SeekReader 0 false))
                    4 "" "".

Definition presignPut (expires : Z) : requestMetadata :=
  mkRequestMetadata true "my-bucket" "key.bin" ∅ ∅ expires "us-east-1" None 0 "" "".

Definition ok : option Response * option error :=
  (Some (response 200 "200 OK" ""), None).

Definition unavailable : option Response * option error :=
  (Some (response 503 "503 Service Unavailable" ""), None).

(** The transport answers 503 to the call made at time 1 and 200 after. *)
Definition unavailableOnce (t : nat) : option Response * option error :=
  if (t =? 1)%nat then unavailable else ok.

Definition wrongRegion : Response :=
  response 400 "400 Bad Request"
    "<Error><Code>AuthorizationHeaderMalformed</Code><Message>The authorization header is malformed; the region is wrong.</Message><Region>eu-west-1</Region></Error>".

Definition accessDenied : Response :=
  response 403 "403 Forbidden"
    "<Error><Code>AccessDenied</Code><Message>Access Denied.</Message></Error>".

Definition locationEU (status : Z) (text : string) : Response :=
  response status text "<LocationConstraint>EU</LocationConstraint>".

Definition cached : state :=
  mkState amazon (<["my-bucket" := "us-east-1"]> newBucketLocationCache) 0 [].

(** The bare request for the object key.bin of my-bucket in us-east-1. *)
Definition bareURL (query : string) : URL :=
  mkURL "https" "my-bucket.s3.dualstack.us-east-1.amazonaws.com" "/key.bin" query.

Definition bare (query : string) : Request :=
  mkRequest "PUT" (bareURL query) "my-bucket.s3.dualstack.us-east-1.amazonaws.com"
            ∅ None 0 [].

(** A redirect from s3.amazonaws.com to another host. *)
Definition signedRequest : Request :=
  mkRequest "GET" (mkURL "https" "s3.amazonaws.com" "/my-bucket/key.bin" "")
            "s3.amazonaws.com"
            (<["Authorization" := ["AWS4-HMAC-SHA256 Credential=AKIAEXAMPLE/us-east-1/s3/aws4_request, Signature=signature"]]> ∅)
            None 0 [].

Definition redirected : Request :=
  mkRequest "GET" (mkURL "https" "s3.eu-west-1.example.com" "/my-bucket/key.bin" "")
            "s3.eu-west-1.example.com" ∅ None 0 [].

(** Clients of https://s3.amazonaws.com: with a region set, with none, and
    with an accelerate endpoint. *)
Definition fixedRegion : @Client ext := client "us-east-1" "" BucketLookupAuto.
Definition anyRegion : @Client ext := client "" "" BucketLookupAuto.
Definition accelerated : @Client ext :=
  client "" "s3-accelerate.amazonaws.com" BucketLookupAuto.

End Double.

(** * The vocabulary of further properties *)

Section Frames.

Context `{Ext : External}.

(** From [s] to [s'] nothing but the clock moved: no transport call, no
    write into the cache, no change of the endpoint. *)
Definition untouched (s s' : state) : Prop :=
  items s' = items s /\ events s' = events s /\ endpointURL s' = endpointURL s.

(** From [s] to [s'] the cache is the same. *)
Definition cacheSame (s s' : state) : Prop := items s' = items s.

(** From [s] to [s'] the entries of the buckets other than [bucket] are
    the same, and no entry went away. *)
Definition frame (bucket : string) (s s' : state) : Prop :=
  (forall b, b <> bucket -> items s' !! b = items s !! b) /\
  (forall b, is_Some (items s !! b) -> is_Some (items s' !! b)).

(** The state in which an attempt calls [newRequest]: after the seek, when
    the body is seeked, and the event of the attempt. *)
Definition attemptStart (isRetryable : bool) (s : state) : state :=
  log EvNewRequest (if isRetryable then log EvSeek (tick s) else s).

(** The deferred [Close] of the body, run on the state the loop leaves. *)
Definition closeBody (contentBody : option Reader) (s : state) : state :=
  match contentBody with
  | Some body => if isCloser body then log EvClose s else s
  | None => s
  end.

(** The number of times the body was closed in a list of events. *)
Fixpoint closes (evs : list event) : nat :=
  match evs with
  | [] => 0
  | EvClose :: evs => S (closes evs)
  | _ :: evs => closes evs
  end.

End Frames.

(** * Making a client *)

(** What [privateNew] and [New] use of other packages and files. *)
Class Construction `{External} : Type := {
  getEndpointURL : string -> bool -> error + URL;
  cookiejar_New : option error;
  DefaultTransport : bool -> option error;
  IsGoogleEndpoint : URL -> bool;
  SignatureV2 : SignatureType;
  SignatureV4 : SignatureType
}.

Section Making.

Context `{Ext : External} {Con : Construction}.

Definition withSignerType (c : Client) (signerType : SignatureType) : Client :=
  @mkClient Ext signerType (appName c) (appVersion c) (secure c) (isTraceEnabled c)
           (traceErrorsOnly c) (s3AccelerateEndpoint c) (region c) (lookup c).

(** [privateNew]: the client and the data it shares with its copies.  The
    credentials given are the provider of the [World]; the fields of
    [new(Client)] that are not set have their zero value, which is
    [SignatureDefault] for the signer type. *)
Definition privateNew (endpoint : string) (secure : bool) (region : string)
    (lookup : BucketLookupType) : result (Client * state) :=
  match getEndpointURL endpoint secure with
  | inl err => Err err
  | inr endpointURL =>
      match cookiejar_New with
      | Some err => Err err
      | None =>
          match DefaultTransport secure with
          | Some err => Err err
          | None =>
              let region :=
                if region =? "" then GetRegionFromURL endpointURL else region in
              Ok (@mkClient Ext SignatureDefault "" "" secure false false "" region lookup,
                  mkState endpointURL newBucketLocationCache 0 [])
          end
      end
  end.

(** [New]. *)
Definition New (endpoint accessKeyID secretAccessKey : string) (secure : bool) :
    result (Client * state) :=
  match privateNew endpoint secure "" BucketLookupAuto with
  | Ok (clnt, st) =>
      let clnt :=
        if IsGoogleEndpoint (endpointURL st) then withSignerType clnt SignatureV2
        else clnt in
      let clnt :=
        if IsAmazonEndpoint (endpointURL st) then withSignerType clnt SignatureV4
        else clnt in
      Ok (clnt, st)
  | Err err => Err err
  | Panic why => Panic why
  end.

End Making.


(** * More of the stand-in *)

Module Scenes.

Import Double.

#[export] Instance con : @Construction ext := {|
  getEndpointURL := fun endpoint secure =>
    parseURL ((if secure then "https" else "http") +:+ "://" +:+ endpoint);
  cookiejar_New := None;
  DefaultTransport := fun _ => None;
  IsGoogleEndpoint := fun u => uHost u =? "storage.googleapis.com";
  SignatureV2 := SigV2;
  SignatureV4 := SigV4
|}.

(** An endpoint that is not one of Amazon. *)
Definition minio : URL := mkURL "https" "play.min.io:9000" "" "".

Definition dnsClient : @Client ext := client "us-east-1" "" BucketLookupDNS.

(** Calls made below. *)
Definition makeBucket : requestMetadata :=
  mkRequestMetadata false "my-bucket" "" ∅ ∅ 0 "" None 0 "" "".

Definition shortName : requestMetadata :=
  mkRequestMetadata false "ab" "key.bin" ∅ ∅ 0 "" None 0 "" "".

Definition tagged : gmap string (list string) :=
  <["X-Amz-Meta-Tag" := ["blue"; "green"]]> ∅.

Definition putTagged : requestMetadata :=
  mkRequestMetadata false "my-bucket" "key.bin" ∅ tagged 0 "" None 4 "" "".

(** Answers of the transport. *)
Definition hinted : nat -> option Response * option error :=
  fun _ => (Some wrongRegion, None).

Definition alwaysUnavailable : nat -> option Response * option error :=
  fun _ => unavailable.

Definition alwaysOk : nat -> option Response * option error := fun _ => ok.

Definition canceled : nat -> option Response * option error :=
  fun _ => (None, Some (ErrURL "Get" "https://s3.amazonaws.com/" "context canceled")).

Definition closedEarly : nat -> option Response * option error :=
  fun _ => (None, Some (ErrURL "Get" "https://s3.amazonaws.com/" "unexpected EOF")).

(** A redirect to the same host. *)
Definition sameHost : Request :=
  mkRequest "GET" (mkURL "https" "s3.amazonaws.com" "/my-bucket/other.bin" "")
            "s3.amazonaws.com" ∅ None 0 [].

End Scenes.

(** * Properties *)

(** ** Strings *)

Lemma eqb_true (a b : string) : (a =? b) = true <-> a = b.
Proof. apply String.eqb_eq. Qed.

Lemma eqb_false (a b : string) : (a =? b) = false <-> a <> b.
Proof. apply String.eqb_neq. Qed.

Lemma eqb_refl' (a : string) : (a =? a) = true.
Proof. apply String.eqb_refl. Qed.

(** Case analysis on every string comparison of the goal. *)
Ltac string_cases :=
  repeat match goal with
  | |- context [String.eqb ?a ?b] =>
      lazymatch a with context [String.eqb _ _] => fail | _ => idtac end;
      let E := fresh "E" in
      destruct (String.eqb a b) eqn:E;
      [apply eqb_true in E | apply eqb_false in E]
  end.

Lemma prefix_cons (a : ascii) (p s : string) :
  String.prefix (String a p) s = true <-> exists s', s = String a s' /\ String.prefix p s' = true.
Proof.
  destruct s as [|b s]; simpl.
  - split; [discriminate | intros (s' & H & _); discriminate].
  - destruct (Ascii.ascii_dec a b) as [->|Hne].
    + split; [eauto | intros (s' & H & Hp); congruence].
    + split; [discriminate | intros (s' & H & _); congruence].
Qed.

Lemma prefix_app (p s : string) :
  String.prefix p s = true <-> exists post, s = p +:+ post.
Proof.
  revert s; induction p as [|a p IH]; intros s.
  - destruct s; simpl; split; eauto.
  - rewrite prefix_cons. split.
    + intros (s' & -> & Hp). apply IH in Hp as [post ->]. by exists post.
    + intros [post ->]. simpl. eexists; split; [done|]. apply IH. eauto.
Qed.

(** [strings.Contains s sub] says that [sub] occurs in [s]. *)
Lemma strings_Contains_spec (s sub : string) :
  strings_Contains s sub = true <-> exists pre post, s = pre +:+ sub +:+ post.
Proof.
  induction s as [|a s IH]; cbn [strings_Contains].
  - rewrite orb_false_r, prefix_app. split.
    + intros [post H]. by exists "", post.
    + intros (pre & post & H). destruct pre; simpl in H; [eauto | discriminate].
  - rewrite orb_true_iff, prefix_app, IH. split.
    + intros [[post H] | (pre & post & ->)].
      * by exists "", post.
      * by exists (String a pre), post.
    + intros (pre & post & H). destruct pre as [|b pre]; simpl in H.
      * left. eauto.
      * right. injection H as -> ->. eauto.
Qed.

Section Properties.

Context `{Ext : External} {W : World}.

(** ** Region normalisation and the answer to get-bucket-location *)

Lemma normalizeLocation_empty : normalizeLocation "" = "us-east-1".
Proof. reflexivity. Qed.

Lemma normalizeLocation_EU : normalizeLocation "EU" = "eu-west-1".
Proof. reflexivity. Qed.

Lemma normalizeLocation_other (l : string) :
  l <> "" -> l <> "EU" -> normalizeLocation l = l.
Proof. intros H1 H2. unfold normalizeLocation. string_cases; congruence. Qed.

Lemma normalizeLocation_nonempty (l : string) : normalizeLocation l <> "".
Proof. unfold normalizeLocation. string_cases; congruence. Qed.

Lemma normalizeLocation_idem (l : string) :
  normalizeLocation (normalizeLocation l) = normalizeLocation l.
Proof.
  destruct (String.eqb l "") eqn:E1; [apply eqb_true in E1 as ->; reflexivity|].
  destruct (String.eqb l "EU") eqn:E2; [apply eqb_true in E2 as ->; reflexivity|].
  apply eqb_false in E1. apply eqb_false in E2.
  rewrite (normalizeLocation_other l) by done. by apply normalizeLocation_other.
Qed.

Lemma getDefaultLocation_nonempty (u : URL) (regionOverride : string) :
  getDefaultLocation u regionOverride <> "".
Proof. unfold getDefaultLocation. string_cases; simpl; congruence. Qed.

Lemma regionHintCodes_test (code : string) :
  (code =? "AuthorizationHeaderMalformed") || (code =? "InvalidRegion")
  || (code =? "AccessDenied") = true <-> In code regionHintCodes.
Proof.
  unfold regionHintCodes. simpl. rewrite !orb_true_iff, !eqb_true. intuition congruence.
Qed.

(** The answer for every status other than 200. *)
Lemma processBucketLocationResponse_not200 (r : Response) (bucketName : string) :
  StatusCode r <> 200%Z ->
  let err := httpRespToErrorResponse (Some r) bucketName "" in
  let errResp := ToErrorResponse err in
  (In (Code errResp) regionHintCodes ->
     (Region errResp <> "" ->
        processBucketLocationResponse (Some r) bucketName = Ok (Region errResp)) /\
     (Region errResp = "" ->
        processBucketLocationResponse (Some r) bucketName = Ok "us-east-1")) /\
  (~ In (Code errResp) regionHintCodes ->
     processBucketLocationResponse (Some r) bucketName = Err err).
Proof.
  intros Hst err errResp. unfold processBucketLocationResponse.
  fold err. fold errResp.
  apply Z.eqb_neq in Hst. rewrite Hst. simpl negb. cbv iota.
  destruct ((Code errResp =? "AuthorizationHeaderMalformed")
            || (Code errResp =? "InvalidRegion")
            || (Code errResp =? "AccessDenied")) eqn:Hc.
  - apply regionHintCodes_test in Hc. split; [|tauto].
    intros _. split; intros Hr.
    + apply eqb_false in Hr. by rewrite Hr.
    + by rewrite Hr.
  - split; [|done]. intros Hin. apply regionHintCodes_test in Hin. congruence.
Qed.

Lemma processBucketLocationResponse_nonempty (resp : option Response)
    (bucketName location : string) :
  processBucketLocationResponse resp bucketName = Ok location -> location <> "".
Proof.
  unfold processBucketLocationResponse.
  destruct resp as [r|]; [|discriminate].
  destruct (negb (StatusCode r =? 200)%Z).
  - destruct (_ || _); [|discriminate].
    destruct (String.eqb (Region _) "") eqn:E; intros [= <-]; [done|].
    by apply eqb_false in E.
  - destruct (xmlDecoder (respBody r)); intros [= <-].
    apply normalizeLocation_nonempty.
Qed.

(** C4 (amended): on a response of status 200 whose body decodes,
    [processBucketLocationResponse] answers the decoded location constraint
    normalised: the empty string gives us-east-1, EU gives eu-west-1, any
    other string is kept, and normalising twice is normalising once. *)
Theorem processBucketLocationResponse_status200 (r : Response)
    (bucketName locationConstraint : string) :
  StatusCode r = 200%Z ->
  xmlDecoder (respBody r) = inr locationConstraint ->
  processBucketLocationResponse (Some r) bucketName
    = Ok (normalizeLocation locationConstraint) /\
  normalizeLocation "" = "us-east-1" /\
  normalizeLocation "EU" = "eu-west-1" /\
  (locationConstraint <> "" -> locationConstraint <> "EU" ->
     normalizeLocation locationConstraint = locationConstraint) /\
  normalizeLocation (normalizeLocation locationConstraint)
    = normalizeLocation locationConstraint.
Proof.
  intros Hst Hdec. repeat split.
  - unfold processBucketLocationResponse. rewrite Hst. simpl. by rewrite Hdec.
  - apply normalizeLocation_other.
  - apply normalizeLocation_idem.
Qed.

(** C5: on a response whose status is not 2xx, a parsed error code among
    AuthorizationHeaderMalformed, InvalidRegion and AccessDenied makes
    [processBucketLocationResponse] succeed with the region of the error, or
    with us-east-1 when the error has none; any other code makes it fail with
    the parsed error. *)
Theorem processBucketLocationResponse_non2xx (r : Response) (bucketName : string) :
  ~ (200 <= StatusCode r < 300)%Z ->
  let err := httpRespToErrorResponse (Some r) bucketName "" in
  let errResp := ToErrorResponse err in
  (In (Code errResp) regionHintCodes ->
     (Region errResp <> "" ->
        processBucketLocationResponse (Some r) bucketName = Ok (Region errResp)) /\
     (Region errResp = "" ->
        processBucketLocationResponse (Some r) bucketName = Ok "us-east-1")) /\
  (~ In (Code errResp) regionHintCodes ->
     processBucketLocationResponse (Some r) bucketName = Err err).
Proof.
  intros Hst. apply processBucketLocationResponse_not200. lia.
Qed.

(** ** Reasoning on the monad *)

Section Preserve.

Variable R : state -> state -> Prop.
Hypothesis R_refl : forall s, R s s.
Hypothesis R_trans : forall s1 s2 s3, R s1 s2 -> R s2 s3 -> R s1 s3.

Lemma preserves_ret {A} (a : A) : preserves R (mret a).
Proof. intros s. apply R_refl. Qed.

Lemma preserves_fail {A} (e : error) : preserves R (@fail A e).
Proof. intros s. apply R_refl. Qed.

Lemma preserves_panic {A} (w : string) : preserves R (@panic A w).
Proof. intros s. apply R_refl. Qed.

Lemma preserves_lift {A} (r : result A) : preserves R (lift r).
Proof. intros s. apply R_refl. Qed.

Lemma preserves_now : preserves R now.
Proof. intros s. apply R_refl. Qed.

Lemma preserves_get_endpointURL : preserves R get_endpointURL.
Proof. intros s. apply R_refl. Qed.

Lemma preserves_bind {A B} (m : M A) (f : A -> M B) :
  preserves R m -> (forall a, preserves R (f a)) -> preserves R (m ≫= f).
Proof.
  intros Hm Hf s. unfold mbind, M_bind. specialize (Hm s).
  destruct (m s) as [[a|e|w] s1]; simpl in *; try done.
  eapply R_trans; [exact Hm | apply Hf].
Qed.

Lemma preserves_bind_lift {A B} (r : result A) (f : A -> M B) :
  (forall a, r = Ok a -> preserves R (f a)) -> preserves R (lift r ≫= f).
Proof.
  intros Hf s. unfold mbind, M_bind, lift.
  destruct r as [a|e|w]; simpl; try done. by apply Hf.
Qed.

Lemma preserves_catch {A} (m : M A) : preserves R m -> preserves R (catch m).
Proof.
  intros Hm s. unfold catch. specialize (Hm s).
  by destruct (m s) as [[a|e|w] s1].
Qed.

End Preserve.

(** ** What the calls inside an attempt do to the state *)

Lemma inner_refl (s : state) : inner s s.
Proof. split; [by exists [] | done]. Qed.

Lemma inner_trans (s1 s2 s3 : state) : inner s1 s2 -> inner s2 s3 -> inner s1 s3.
Proof.
  intros [(n1 & E1 & F1) C1] [(n2 & E2 & F2) C2]. split; [|tauto].
  exists (n2 ++ n1)%list. rewrite E2, E1, app_assoc. split; [done|].
  by apply Forall_app.
Qed.

Lemma inner_tick (s : state) : inner s (tick s).
Proof. split; [by exists [] | done]. Qed.

Lemma inner_credsGet : preserves inner credsGet.
Proof.
  intros s. unfold credsGet.
  destruct (credsProvider_Get (clock s)); apply inner_tick.
Qed.

Lemma inner_httpDo (req : Request) : preserves inner (httpDo req).
Proof.
  intros s. unfold httpDo.
  destruct (httpClient_Do (clock s) (endpointURL s) req) as [answer u]. simpl.
  split; [|done]. exists [EvDo req]. split; [done|]. by repeat constructor.
Qed.

Lemma inner_dump (req : Request) (resp : Response) : preserves inner (dump req resp).
Proof.
  intros s. unfold dump. destruct (dumpHTTP (clock s) req resp); apply inner_tick.
Qed.

Lemma inner_Get (bucketName : string) : preserves inner (bucketLocCache_Get bucketName).
Proof.
  intros s. unfold bucketLocCache_Get.
  destruct (items s !! bucketName); apply inner_refl.
Qed.

Lemma inner_Set (bucketName location : string) :
  location <> "" -> preserves inner (bucketLocCache_Set bucketName location).
Proof.
  intros Hne s. unfold bucketLocCache_Set. simpl. split.
  - exists [EvCacheSet bucketName location]. split; [done|]. by repeat constructor.
  - unfold nonEmptyCache. simpl. intros Hc. by apply map_Forall_insert_2.
Qed.

Lemma inner_set_endpointURL (u : URL) : preserves inner (set_endpointURL u).
Proof. intros s. split; [by exists [] | done]. Qed.

(** One step of a proof that a computation preserves [inner]. *)
Ltac inner_step :=
  lazymatch goal with
  | |- preserves inner (mbind _ (lift _)) =>
      apply (preserves_bind_lift inner inner_refl); intros ? ?
  | |- preserves inner (mbind _ _) =>
      apply (preserves_bind inner inner_trans); [|intros ?]
  | |- preserves inner (mret _) => apply (preserves_ret inner inner_refl)
  | |- preserves inner (fail _) => apply (preserves_fail inner inner_refl)
  | |- preserves inner (panic _) => apply (preserves_panic inner inner_refl)
  | |- preserves inner (lift _) => apply (preserves_lift inner inner_refl)
  | |- preserves inner now => apply (preserves_now inner inner_refl)
  | |- preserves inner get_endpointURL =>
      apply (preserves_get_endpointURL inner inner_refl)
  | |- preserves inner (catch _) => apply (preserves_catch inner)
  | |- preserves inner credsGet => apply inner_credsGet
  | |- preserves inner (httpDo _) => apply inner_httpDo
  | |- preserves inner (dump _ _) => apply inner_dump
  | |- preserves inner (bucketLocCache_Get _) => apply inner_Get
  | |- preserves inner (set_endpointURL _) => apply inner_set_endpointURL
  | |- preserves inner (if ?b then _ else _) => destruct b eqn:?
  | |- preserves inner (match ?x with _ => _ end) => destruct x eqn:?
  end.

Lemma inner_getBucketLocationRequest (c : Client) (bucketName : string) :
  preserves inner (getBucketLocationRequest c bucketName).
Proof. unfold getBucketLocationRequest. repeat inner_step. Qed.

Lemma inner_do (c : Client) (req : Request) : preserves inner (do c req).
Proof. unfold do. repeat inner_step. Qed.

Lemma inner_getBucketLocation (c : Client) (bucketName : string) :
  preserves inner (getBucketLocation c bucketName).
Proof.
  unfold getBucketLocation. repeat inner_step.
  - apply inner_getBucketLocationRequest.
  - apply inner_do.
  - apply inner_Set. eapply processBucketLocationResponse_nonempty. eassumption.
Qed.

Lemma inner_newRequestTarget (c : Client) (method : string) (metadata : requestMetadata) :
  preserves inner (newRequestTarget c method metadata).
Proof.
  unfold newRequestTarget. repeat inner_step; apply inner_getBucketLocation.
Qed.

Lemma inner_newRequestSign (c : Client) (method : string) (metadata : requestMetadata)
    (location : string) (isVirtualHost : bool) (req : Request)
    (value : Value SignatureType) :
  preserves inner (newRequestSign c method metadata location isVirtualHost req value).
Proof. unfold newRequestSign. repeat inner_step. Qed.

Lemma inner_newRequest (c : Client) (method : string) (metadata : requestMetadata) :
  preserves inner (newRequest c method metadata).
Proof.
  unfold newRequest. repeat inner_step.
  - apply inner_newRequestTarget.
  - apply inner_newRequestSign.
Qed.

Lemma inner_correctRegion (c : Client) (metadata : requestMetadata)
    (errResponse : ErrorResponse) :
  preserves inner (correctRegion c metadata errResponse).
Proof.
  unfold correctRegion. repeat inner_step.
  apply inner_Set. rewrite andb_true_iff, !negb_true_iff, !eqb_false in *. tauto.
Qed.

Lemma inner_handleResponse (c : Client) (metadata : requestMetadata) (r : Response) :
  preserves inner (handleResponse c metadata r).
Proof. unfold handleResponse. repeat inner_step. apply inner_correctRegion. Qed.

Lemma inner_attemptRequest (c : Client) (method : string) (metadata : requestMetadata)
    (l : locals) :
  preserves inner (attemptRequest c method metadata l).
Proof.
  unfold attemptRequest. repeat inner_step.
  - apply inner_newRequest.
  - apply inner_do.
  - apply inner_handleResponse.
Qed.

(** ** The attempts of [executeMethod] *)

Lemma attempts_app (a b : list event) :
  attempts (a ++ b) = (attempts a + attempts b)%nat.
Proof. induction a as [|[] a IH]; simpl; lia. Qed.

Lemma seeks_app (a b : list event) : seeks (a ++ b) = (seeks a + seeks b)%nat.
Proof. induction a as [|[] a IH]; simpl; lia. Qed.

Lemma quiet_attempts (calls : list event) :
  Forall quiet calls -> attempts calls = 0%nat /\ seeks calls = 0%nat.
Proof. induction 1 as [|[] calls Hq _ IH]; simpl in *; done. Qed.

Lemma attemptsTrace_count (seek : bool) (n : nat) (chrono : list event) :
  attemptsTrace seek n chrono ->
  (attempts chrono <= n)%nat /\
  (if seek then attempts chrono <= seeks chrono else seeks chrono = 0)%nat.
Proof.
  induction 1 as [n|n ->|n calls rest Hq _ [IH1 IH2]].
  - simpl. destruct seek; lia.
  - simpl. lia.
  - rewrite attempts_app, seeks_app. simpl.
    rewrite attempts_app, seeks_app.
    destruct (quiet_attempts calls Hq) as [-> ->].
    destruct seek; simpl; lia.
Qed.

Lemma attemptsTrace_weaken (seek : bool) (n m : nat) (chrono : list event) :
  attemptsTrace seek n chrono -> (n <= m)%nat -> attemptsTrace seek m chrono.
Proof.
  intros H. revert m. induction H as [n|n Hs|n calls rest Hq _ IH]; intros m Hm.
  - constructor.
  - destruct m; [lia|]. by constructor.
  - destruct m; [lia|]. constructor; [done|]. apply IH. lia.
Qed.

(** A failed seek ends the pass, and the loop, with its error. *)
Lemma attempt_seek_failed (c : Client) (method : string) (metadata : requestMetadata)
    (l : locals) (s : state) (e : error) :
  bodySeeker_Seek (clock s) = Some e ->
  attempt c method metadata true l s
    = (Ok (Return None (Some e)), log EvSeek (tick s)).
Proof.
  intros H. unfold attempt, mbind, M_bind, seekStart. by rewrite H.
Qed.

Lemma attempt_seek_ok (c : Client) (method : string) (metadata : requestMetadata)
    (l : locals) (s : state) :
  bodySeeker_Seek (clock s) = None ->
  attempt c method metadata true l s
    = attemptRequest c method metadata l (log EvNewRequest (log EvSeek (tick s))).
Proof.
  intros H. unfold attempt, mbind, M_bind, seekStart, emit. by rewrite H.
Qed.

Lemma attempt_plain (c : Client) (method : string) (metadata : requestMetadata)
    (l : locals) (s : state) :
  attempt c method metadata false l s
    = attemptRequest c method metadata l (log EvNewRequest s).
Proof. reflexivity. Qed.

(** One pass through the body of the loop: either the seek fails and the
    pass returns its error at once, or the pass is an attempt. *)
Lemma attempt_spec (c : Client) (method : string) (metadata : requestMetadata)
    (isRetryable : bool) (l : locals) (s : state) :
  let out := attempt c method metadata isRetryable l s in
  (isRetryable = true /\
   exists e, bodySeeker_Seek (clock s) = Some e /\
             out = (Ok (Return None (Some e)), log EvSeek (tick s))) \/
  ((isRetryable = true -> bodySeeker_Seek (clock s) = None) /\
   exists calls,
     events out.2
       = (rev ((if isRetryable then [EvSeek] else []) ++ EvNewRequest :: calls)
          ++ events s)%list /\
     Forall quiet calls /\
     (nonEmptyCache s -> nonEmptyCache out.2)).
Proof.
  intros out. subst out.
  destruct isRetryable.
  - destruct (bodySeeker_Seek (clock s)) as [e|] eqn:Hseek.
    + left. split; [done|]. exists e. split; [done|].
      by apply attempt_seek_failed.
    + right. split; [done|]. rewrite attempt_seek_ok by done.
      destruct (inner_attemptRequest c method metadata l
                  (log EvNewRequest (log EvSeek (tick s))))
        as [(new & Hev & Hq) Hc].
      exists (rev new). rewrite Hev. split; [|split].
      * simpl. rewrite rev_involutive.
        by rewrite <- !app_assoc.
      * by apply Forall_rev.
      * exact Hc.
  - right. split; [done|]. rewrite attempt_plain.
    destruct (inner_attemptRequest c method metadata l (log EvNewRequest s))
      as [(new & Hev & Hq) Hc].
    exists (rev new). rewrite Hev. split; [|split].
    + simpl. rewrite rev_involutive.
      by rewrite <- !app_assoc.
    + by apply Forall_rev.
    + exact Hc.
Qed.

Lemma retryLoop_cons (c : Client) (method : string) (metadata : requestMetadata)
    (isRetryable : bool) (t : nat) (ticks : list nat) (l : locals) (s : state) :
  retryLoop c method metadata isRetryable (t :: ticks) l s =
  match attempt c method metadata isRetryable l s with
  | (Ok (Continue l'), s') => retryLoop c method metadata isRetryable ticks l' s'
  | (Ok (Break l'), s') => (Ok (res l', err l'), s')
  | (Ok (Return res err), s') => (Ok (res, err), s')
  | (Err e, s') => (Err e, s')
  | (Panic w, s') => (Panic w, s')
  end.
Proof.
  simpl. unfold mbind, M_bind.
  destruct (attempt c method metadata isRetryable l s) as [[[l'|l'|r e]|e|w] s'];
    reflexivity.
Qed.

(** The loop stops after a pass that does not say [continue]. *)
Lemma retryLoop_stops (c : Client) (method : string) (metadata : requestMetadata)
    (isRetryable : bool) (t : nat) (ticks : list nat) (l : locals) (s : state) :
  (forall l', (attempt c method metadata isRetryable l s).1 <> Ok (Continue l')) ->
  (retryLoop c method metadata isRetryable (t :: ticks) l s).2
    = (attempt c method metadata isRetryable l s).2.
Proof.
  intros H. rewrite retryLoop_cons.
  destruct (attempt c method metadata isRetryable l s) as [[[l'|l'|r e]|e|w] s'];
    try reflexivity.
  by destruct (H l').
Qed.

(** The events of the loop are the events of at most one attempt per tick. *)
Lemma retryLoop_trace (c : Client) (method : string) (metadata : requestMetadata)
    (isRetryable : bool) (ticks : list nat) (l : locals) (s : state) :
  exists chrono,
    events (retryLoop c method metadata isRetryable ticks l s).2
      = (rev chrono ++ events s)%list /\
    attemptsTrace isRetryable (length ticks) chrono /\
    (nonEmptyCache s ->
     nonEmptyCache (retryLoop c method metadata isRetryable ticks l s).2).
Proof.
  revert l s. induction ticks as [|t ticks IH]; intros l s.
  - exists []. split; [done|]. split; [constructor | done].
  - rewrite retryLoop_cons.
    destruct (attempt_spec c method metadata isRetryable l s)
      as [(-> & e & Hseek & ->) | (Hseek & calls & Hev & Hq & Hc)].
    + exists [EvSeek]. split; [done|]. split; [by constructor | done].
    + destruct (attempt c method metadata isRetryable l s) as [r s1].
      simpl in Hev, Hc.
      assert (Hone : exists chrono,
                 events s1 = (rev chrono ++ events s)%list /\
                 attemptsTrace isRetryable (S (length ticks)) chrono).
      { exists ((if isRetryable then [EvSeek] else [])
                ++ EvNewRequest :: calls ++ [])%list.
        split; [by rewrite app_nil_r|]. constructor; [done | constructor]. }
      destruct r as [[l'|l'|r e]|e|w]; try (destruct Hone as (ch & ? & ?); by exists ch).
      destruct (IH l' s1) as (chrono & Hev' & Htr & Hc').
      exists ((if isRetryable then [EvSeek] else [])
              ++ EvNewRequest :: calls ++ chrono)%list.
      split; [|split].
      * rewrite Hev', Hev.
        rewrite app_comm_cons, (app_assoc _ _ chrono), (rev_app_distr _ chrono).
        by rewrite <- app_assoc.
      * by constructor.
      * tauto.
Qed.

(** With a budget of one attempt and no seek, the loop makes its attempt. *)
Lemma retryLoop_once (c : Client) (method : string) (metadata : requestMetadata)
    (t : nat) (l : locals) (s : state) :
  exists calls,
    events (retryLoop c method metadata false [t] l s).2
      = (rev (EvNewRequest :: calls) ++ events s)%list /\
    Forall quiet calls.
Proof.
  rewrite retryLoop_cons.
  destruct (attempt_spec c method metadata false l s)
    as [(? & _) | (_ & calls & Hev & Hq & _)]; [done|].
  exists calls. split; [|done].
  change ([] ++ EvNewRequest :: calls)%list with (EvNewRequest :: calls) in Hev.
  rewrite <- Hev.
  by destruct (attempt c method metadata false l s) as [[[l'|l'|r e]|e|w] s1].
Qed.

Lemma executeMethod_events (c : Client) (method : string) (metadata : requestMetadata)
    (s : state) :
  events (executeMethod c method metadata s).2
  = (closeEvents (contentBody metadata)
     ++ events (retryLoop c method metadata (retryPlan (contentBody metadata)).1
                  (newRetryTimer (retryPlan (contentBody metadata)).2)
                  (mkLocals None None) s).2)%list.
Proof.
  unfold executeMethod, closeEvents.
  destruct (retryPlan (contentBody metadata)) as [isRetryable reqRetry]. simpl.
  destruct (contentBody metadata) as [body|]; [|done].
  destruct (isCloser body); [|done].
  unfold defer. by destruct (retryLoop _ _ _ _ _ _ s).
Qed.

Lemma newRetryTimer_length (maxRetry : nat) : length (newRetryTimer maxRetry) = maxRetry.
Proof. apply length_seq. Qed.

(** C1 (amended): a call of [executeMethod] whose body is not nil and
    either has no seek capability or is os.Stdin, os.Stdout or os.Stderr
    makes exactly one attempt, whatever the maximum of retries, and never
    seeks; a call whose body is seekable makes at most [MaxRetry] attempts,
    each of them directly after a seek to offset 0, the first one included,
    and a seek that fails ends the call at once with its error; a call with
    no body makes at most [MaxRetry] attempts and never seeks. *)
Theorem executeMethod_attempts (c : Client) (method : string)
    (metadata : requestMetadata) :
  (forall s, exists chrono,
     events (executeMethod c method metadata s).2
       = (closeEvents (contentBody metadata) ++ rev chrono ++ events s)%list /\
     match contentBody metadata with
     | Some (SeekReader _ _) =>
         attemptsTrace true MaxRetry chrono /\
         (attempts chrono <= MaxRetry)%nat /\
         (attempts chrono <= seeks chrono)%nat
     | Some _ =>
         (exists calls, chrono = EvNewRequest :: calls /\ Forall quiet calls) /\
         attempts chrono = 1%nat /\
         seeks chrono = 0%nat
     | None =>
         attemptsTrace false MaxRetry chrono /\
         (attempts chrono <= MaxRetry)%nat /\
         seeks chrono = 0%nat
     end) /\
  (forall t ticks l s e,
     bodySeeker_Seek (clock s) = Some e ->
     retryLoop c method metadata true (t :: ticks) l s
       = (Ok (None, Some e), log EvSeek (tick s))).
Proof.
  split.
  - intros s. rewrite executeMethod_events.
    assert (Hplain : forall body,
              contentBody metadata = Some body ->
              retryPlan (Some body) = (false, 1%nat) ->
              exists chrono,
                events (retryLoop c method metadata (retryPlan (Some body)).1
                          (newRetryTimer (retryPlan (Some body)).2)
                          (mkLocals None None) s).2
                  = (rev chrono ++ events s)%list /\
                (exists calls, chrono = EvNewRequest :: calls /\ Forall quiet calls) /\
                attempts chrono = 1%nat /\ seeks chrono = 0%nat).
    { intros body _ ->. simpl.
      destruct (retryLoop_once c method metadata 1%nat (mkLocals None None) s)
        as (calls & Hev & Hq).
      exists (EvNewRequest :: calls). split; [done|]. split; [eauto|].
      destruct (quiet_attempts calls Hq) as [Ha Hs]. simpl. by rewrite Ha, Hs. }
    destruct (contentBody metadata) as [[f|id closer|id closer]|] eqn:Hbody.
    + destruct (Hplain _ eq_refl eq_refl) as (chrono & Hev & H).
      exists chrono. by rewrite Hev.
    + simpl retryPlan. cbn [fst snd].
      destruct (retryLoop_trace c method metadata true (newRetryTimer MaxRetry)
                  (mkLocals None None) s) as (chrono & Hev & Htr & _).
      rewrite newRetryTimer_length in Htr.
      exists chrono. rewrite Hev. split; [done|]. split; [done|].
      apply (attemptsTrace_count true MaxRetry chrono Htr).
    + destruct (Hplain _ eq_refl eq_refl) as (chrono & Hev & H).
      exists chrono. by rewrite Hev.
    + simpl retryPlan. cbn [fst snd].
      destruct (retryLoop_trace c method metadata false (newRetryTimer MaxRetry)
                  (mkLocals None None) s) as (chrono & Hev & Htr & _).
      rewrite newRetryTimer_length in Htr.
      exists chrono. rewrite Hev. split; [done|]. split; [done|].
      apply (attemptsTrace_count false MaxRetry chrono Htr).
  - intros t ticks l s e Hseek.
    rewrite retryLoop_cons. by rewrite (attempt_seek_failed _ _ _ _ _ e).
Qed.

(** ** The region-correcting retry *)

Lemma correctRegion_spec (c : Client) (metadata : requestMetadata)
    (errResponse : ErrorResponse) (s : state) :
  (regionMismatch c metadata errResponse s /\
   correctRegion c metadata errResponse s
     = (Ok true, correctedState metadata errResponse s)) \/
  (~ regionMismatch c metadata errResponse s /\
   correctRegion c metadata errResponse s = (Ok false, s)).
Proof.
  unfold correctRegion, regionMismatch.
  destruct (String.eqb (bucketLocation metadata) "") eqn:E1;
    [apply eqb_true in E1 | apply eqb_false in E1; right; split; [tauto | done]].
  destruct (String.eqb (region c) "") eqn:E2;
    [apply eqb_true in E2 | apply eqb_false in E2; right; split; [tauto | done]].
  simpl andb. cbv iota.
  destruct ((Code errResponse =? "AuthorizationHeaderMalformed")
            || (Code errResponse =? "InvalidRegion")) eqn:E3.
  2: { right. split; [|done]. apply orb_false_iff in E3 as [E3 E4].
       apply eqb_false in E3. apply eqb_false in E4. tauto. }
  apply orb_true_iff in E3. rewrite !eqb_true in E3.
  destruct (String.eqb (bucketName metadata) "") eqn:E4;
    [apply eqb_true in E4; right; split; [tauto | done] | apply eqb_false in E4].
  destruct (String.eqb (Region errResponse) "") eqn:E5;
    [apply eqb_true in E5; right; split; [tauto | done] | apply eqb_false in E5].
  simpl. unfold mbind, M_bind, bucketLocCache_Get.
  destruct (items s !! bucketName metadata) as [cached|] eqn:E6.
  - left. split; [|done]. repeat split; done.
  - right. split; [|done]. intros (_ & _ & _ & _ & _ & [x Hx]). done.
Qed.

Lemma attempt_run (c : Client) (method : string) (metadata : requestMetadata)
    (isRetryable : bool) (l : locals) (s : state) :
  (isRetryable = true -> bodySeeker_Seek (clock s) = None) ->
  attempt c method metadata isRetryable l s
  = attemptRequest c method metadata l (attemptStart isRetryable s).
Proof.
  intros H. destruct isRetryable.
  - by rewrite attempt_seek_ok by auto.
  - by rewrite attempt_plain.
Qed.

Lemma attemptRequest_response (c : Client) (method : string)
    (metadata : requestMetadata) (l : locals) (s s1 s2 : state) (req : Request)
    (r : Response) :
  newRequest c method metadata s = (Ok req, s1) ->
  do c req s1 = (Ok r, s2) ->
  attemptRequest c method metadata l s = handleResponse c metadata r s2.
Proof.
  intros Hn Hd. unfold attemptRequest, mbind, M_bind, catch. by rewrite Hn, Hd.
Qed.

(** C2: in a pass of the loop of [executeMethod] that has made its request
    and got an answer that is not a success and whose body was read, the
    region-correcting retry happens exactly when the location override of
    the call is empty, the region of the client is empty, the parsed code is
    AuthorizationHeaderMalformed or InvalidRegion, the bucket name is not
    empty, the error has a region and the cache has an entry for the bucket.
    The entry is then overwritten with the region of the error and the loop
    goes on with the ticks that are left, so the retry counts against the
    attempt budget: on the last tick the entry is corrected and the call
    ends with the answer.  Otherwise the pass leaves the cache as [do] left
    it, and the loop goes on only for a retryable code or status.  The first
    pass of [executeMethod] is such a pass: the call answers what the rest
    of the loop answers, and closes the body after it. *)
Theorem region_correcting_retry (c : Client) (method : string)
    (metadata : requestMetadata) (isRetryable : bool) (t : nat) (ticks : list nat)
    (l : locals) (s s1 s2 : state) (req : Request) (r : Response)
    (errBodyBytes : string) :
  (isRetryable = true -> bodySeeker_Seek (clock s) = None) ->
  newRequest c method metadata (attemptStart isRetryable s) = (Ok req, s1) ->
  do c req s1 = (Ok r, s2) ->
  ~ In (StatusCode r) successStatus ->
  respBody r = BodyBytes errBodyBytes ->
  let errResponse :=
    ToErrorResponse (httpRespToErrorResponse (Some r) (bucketName metadata)
                                             (objectName metadata)) in
  let rest := retryLoop c method metadata isRetryable ticks (mkLocals (Some r) None) in
  let corrected := rest (correctedState metadata errResponse s2) in
  let plain :=
    if isS3CodeRetryable (Code errResponse) || isHTTPStatusRetryable (StatusCode r)
    then rest s2
    else (Ok (Some r, None), s2) in
  ((regionMismatch c metadata errResponse s2 /\
    retryLoop c method metadata isRetryable (t :: ticks) l s = corrected) \/
   (~ regionMismatch c metadata errResponse s2 /\
    retryLoop c method metadata isRetryable (t :: ticks) l s = plain)) /\
  (ticks = [] ->
   corrected = (Ok (Some r, None), correctedState metadata errResponse s2)) /\
  (forall reqRetry,
     retryPlan (contentBody metadata) = (isRetryable, reqRetry) ->
     newRetryTimer reqRetry = t :: ticks ->
     (regionMismatch c metadata errResponse s2 ->
      executeMethod c method metadata s
      = (corrected.1, closeBody (contentBody metadata) corrected.2)) /\
     (~ regionMismatch c metadata errResponse s2 ->
      executeMethod c method metadata s
      = (plain.1, closeBody (contentBody metadata) plain.2))).
Proof.
  intros Hseek Hn Hd Hstatus Hbody errResponse rest corrected plain.
  assert (Hpass : forall l0,
            (regionMismatch c metadata errResponse s2 /\
             retryLoop c method metadata isRetryable (t :: ticks) l0 s = corrected) \/
            (~ regionMismatch c metadata errResponse s2 /\
             retryLoop c method metadata isRetryable (t :: ticks) l0 s = plain)).
  { intros l0.
    rewrite retryLoop_cons, (attempt_run _ _ _ _ _ _ Hseek).
    rewrite (attemptRequest_response _ _ _ _ _ _ _ _ _ Hn Hd).
    unfold handleResponse.
    assert (Hnot : existsb (fun httpStatus => (httpStatus =? StatusCode r)%Z)
                     successStatus = false).
    { apply not_true_is_false. intros H. apply existsb_exists in H as (x & Hin & Hx).
      apply Z.eqb_eq in Hx. by subst x. }
    rewrite Hnot, Hbody.
    replace (mkResponse (StatusCode r) (Status r) (respHeader r)
                        (BodyBytes errBodyBytes)) with r
      by (destruct r; simpl in *; by subst).
    fold errResponse. unfold mbind, M_bind.
    destruct (correctRegion_spec c metadata errResponse s2) as [[Hm ->]|[Hm ->]].
    - left. by split.
    - right. split; [done|]. subst plain.
      destruct (isS3CodeRetryable _); [done|].
      by destruct (isHTTPStatusRetryable _). }
  split; [apply Hpass|]. split; [by intros ->|].
  intros reqRetry Hplan Htimer.
  assert (Hexec : executeMethod c method metadata s
                  = ((retryLoop c method metadata isRetryable (t :: ticks)
                                (mkLocals None None) s).1,
                     closeBody (contentBody metadata)
                       (retryLoop c method metadata isRetryable (t :: ticks)
                                  (mkLocals None None) s).2)).
  { unfold executeMethod, closeBody. rewrite Hplan, Htimer.
    destruct (contentBody metadata) as [body|];
      [destruct (isCloser body)|]; unfold defer;
      by destruct (retryLoop _ _ _ _ _ _ s). }
  rewrite Hexec.
  destruct (Hpass (mkLocals None None)) as [[Hm ->]|[Hm ->]]; split; intros Hm';
    done.
Qed.

(** ** Building the request *)

Lemma bind_Ok {A B} (m : M A) (f : A -> M B) (s s1 : state) (a : A) :
  m s = (Ok a, s1) -> (m ≫= f) s = f a s1.
Proof. intros H. unfold mbind, M_bind. by rewrite H. Qed.

Lemma bind_Err {A B} (m : M A) (f : A -> M B) (s s1 : state) (e : error) :
  m s = (Err e, s1) -> (m ≫= f) s = (Err e, s1).
Proof. intros H. unfold mbind, M_bind. by rewrite H. Qed.

Lemma bind_inv_Ok {A B} (m : M A) (f : A -> M B) (s s' : state) (b : B) :
  (m ≫= f) s = (Ok b, s') ->
  exists a s1, m s = (Ok a, s1) /\ f a s1 = (Ok b, s').
Proof.
  unfold mbind, M_bind. destruct (m s) as [[a|e|w] s1]; try done. eauto.
Qed.

Lemma credsGet_Ok (s : state) (value : Value SignatureType) :
  credsProvider_Get (clock s) = inr value -> credsGet s = (Ok value, tick s).
Proof. intros H. unfold credsGet. by rewrite H. Qed.

(** [newRequest] once the bare request is there and the provider answers. *)
Lemma newRequest_run (c : Client) (method : string) (metadata : requestMetadata)
    (s s1 : state) (location : string) (isVirtualHost : bool) (req : Request)
    (value : Value SignatureType) :
  newRequestTarget c (methodOrPOST method) metadata s
    = (Ok (location, isVirtualHost, req), s1) ->
  credsProvider_Get (clock s1) = inr value ->
  newRequest c method metadata s
    = newRequestSign c (methodOrPOST method) metadata location isVirtualHost req
                     value (tick s1).
Proof.
  intros Ht Hc. unfold newRequest. fold (methodOrPOST method).
  rewrite (bind_Ok _ _ _ _ _ Ht). simpl.
  by rewrite (bind_Ok _ _ _ _ _ (credsGet_Ok _ _ Hc)).
Qed.

(** The bare request of [newRequest] is what [http.NewRequest] makes of the
    target URL, whose string is built from the bucket, the object and the
    query values of the call. *)
Lemma newRequestTarget_inv (c : Client) (method : string) (metadata : requestMetadata)
    (s s1 : state) (location : string) (isVirtualHost : bool) (req : Request) :
  newRequestTarget c method metadata s = (Ok (location, isVirtualHost, req), s1) ->
  exists host targetURL,
    targetHost c (endpointURL s1) (bucketName metadata) location = Ok host /\
    url_Parse (targetURLString (Scheme (endpointURL s1)) host (bucketName metadata)
                 (objectName metadata) isVirtualHost (queryValues metadata))
      = inr targetURL /\
    http_NewRequest method (URL_String targetURL) = inr req.
Proof.
  unfold newRequestTarget. intros H.
  apply bind_inv_Ok in H as (loc & s2 & _ & H).
  apply bind_inv_Ok in H as (ep & s3 & Hep & H).
  injection Hep as <- <-.
  apply bind_inv_Ok in H as (targetURL & s4 & Hurl & H).
  unfold lift in Hurl. injection Hurl as Hurl <-.
  destruct (http_NewRequest method (URL_String targetURL)) as [e|req'] eqn:Hreq;
    [discriminate|].
  injection H as <- <- <- <-.
  unfold makeTargetURL in Hurl.
  destruct (targetHost c (endpointURL s2) (bucketName metadata) loc)
    as [host| |] eqn:Hhost; try discriminate.
  destruct (url_Parse _) as [e|u] eqn:Hparse; [discriminate|].
  injection Hurl as <-. by exists host, u.
Qed.

(** [newRequest] on its way through the presign branch. *)
Lemma newRequest_presign_run (c : Client) (method : string) (metadata : requestMetadata)
    (s s1 : state) (location : string) (isVirtualHost : bool) (req : Request)
    (value : Value SignatureType) :
  presignURL metadata = true ->
  expires metadata <> 0%Z ->
  newRequestTarget c (methodOrPOST method) metadata s
    = (Ok (location, isVirtualHost, req), s1) ->
  credsProvider_Get (clock s1) = inr value ->
  let signerType := effectiveSignerType c value in
  let t := S (clock s1) in
  (IsAnonymous signerType = true ->
   newRequest c method metadata s
     = (Err (ErrInvalidArgument
               "Presigned URLs cannot be generated with anonymous credentials."),
        tick s1)) /\
  (IsAnonymous signerType = false -> IsV2 signerType = true ->
   newRequest c method metadata s
     = (Ok (PreSignV2 req (AccessKeyID value) (SecretAccessKey value)
                      (expires metadata) isVirtualHost t), tick s1)) /\
  (IsAnonymous signerType = false -> IsV2 signerType = false ->
   IsV4 signerType = true ->
   newRequest c method metadata s
     = (Ok (PreSignV4 req (AccessKeyID value) (SecretAccessKey value)
                      (SessionToken value) location (expires metadata) t),
        tick s1)).
Proof.
  intros Hpre Hexp Ht Hc signerType t.
  rewrite (newRequest_run _ _ _ _ _ _ _ _ _ Ht Hc).
  unfold newRequestSign. fold signerType.
  apply Z.eqb_neq in Hexp.
  unfold mbind, M_bind, now. rewrite Hexp, Hpre. simpl negb. simpl andb. cbv iota.
  repeat split.
  - by intros ->.
  - by intros -> ->.
  - by intros -> -> ->.
Qed.

(** C3 (amended): once the bare request is there and the provider has
    answered, a request to presign with an expiry other than zero fails with
    [ErrInvalidArgument] when the signer type in force is anonymous; when it
    is V2, or else V4, the answer is the bare request as [PreSignV2], or
    [PreSignV4], signs it in its query string: no header, no body and no
    header signature is put on it. *)
Theorem newRequest_presign (c : Client) (method : string) (metadata : requestMetadata)
    (s s1 : state) (location : string) (isVirtualHost : bool) (req : Request)
    (value : Value SignatureType) :
  presignURL metadata = true ->
  expires metadata <> 0%Z ->
  newRequestTarget c (methodOrPOST method) metadata s
    = (Ok (location, isVirtualHost, req), s1) ->
  credsProvider_Get (clock s1) = inr value ->
  let signerType := effectiveSignerType c value in
  let t := S (clock s1) in
  (IsAnonymous signerType = true ->
   newRequest c method metadata s
     = (Err (ErrInvalidArgument
               "Presigned URLs cannot be generated with anonymous credentials."),
        tick s1)) /\
  (IsAnonymous signerType = false -> IsV2 signerType = true ->
   newRequest c method metadata s
     = (Ok (PreSignV2 req (AccessKeyID value) (SecretAccessKey value)
                      (expires metadata) isVirtualHost t), tick s1)) /\
  (IsAnonymous signerType = false -> IsV2 signerType = false ->
   IsV4 signerType = true ->
   newRequest c method metadata s
     = (Ok (PreSignV4 req (AccessKeyID value) (SecretAccessKey value)
                      (SessionToken value) location (expires metadata) t),
        tick s1)).
Proof.
  intros Hpre Hexp Ht Hc.
  exact (newRequest_presign_run c method metadata s s1 location isVirtualHost req
           value Hpre Hexp Ht Hc).
Qed.

(** ** The target URL under transfer acceleration *)

(** C6 (amended): on an Amazon endpoint with an accelerate endpoint set,
    [makeTargetURL] fails with [ErrTransferAccelerationBucket] for every
    bucket name with a period in it; for every other bucket name that is not
    empty, its answer is the answer of [url.Parse] on a string whose host is
    the accelerate endpoint, without its port when it is the default one of
    the scheme, and behind the bucket name and a period in virtual-host
    style. *)
Theorem makeTargetURL_accelerate (c : Client) (ep : URL)
    (bucketName objectName bucketLocation : string) (isVirtualHostStyle : bool)
    (queryValues : gmap string (list string)) :
  IsAmazonEndpoint ep = true ->
  s3AccelerateEndpoint c <> "" ->
  ((exists pre post, bucketName = pre +:+ "." +:+ post) ->
   makeTargetURL c ep bucketName objectName bucketLocation isVirtualHostStyle
                 queryValues
     = Err (ErrTransferAccelerationBucket bucketName)) /\
  (bucketName <> "" ->
   ~ (exists pre post, bucketName = pre +:+ "." +:+ post) ->
   let scheme := Scheme ep in
   let host := stripDefaultPort scheme (s3AccelerateEndpoint c) in
   let urlStr :=
     if isVirtualHostStyle
     then scheme +:+ "://" +:+ bucketName +:+ "." +:+ host +:+ "/"
     else (scheme +:+ "://" +:+ host +:+ "/") +:+ bucketName +:+ "/" in
   let urlStr :=
     if objectName ≠? "" then urlStr +:+ EncodePath objectName else urlStr in
   let urlStr :=
     if (0 <? Z.of_nat (size queryValues))%Z
     then urlStr +:+ "?" +:+ QueryEncode queryValues else urlStr in
   makeTargetURL c ep bucketName objectName bucketLocation isVirtualHostStyle
                 queryValues
     = match url_Parse urlStr with
       | inl err => Err err
       | inr u => Ok u
       end).
Proof.
  intros Hamz Hacc. apply eqb_false in Hacc. split.
  - intros Hdot. apply strings_Contains_spec in Hdot.
    assert (Hne : (bucketName =? "") = false).
    { apply eqb_false. intros ->. discriminate. }
    unfold makeTargetURL, targetHost. by rewrite Hamz, Hacc, Hne, Hdot.
  - intros Hne Hdot. apply eqb_false in Hne.
    assert (Hc : strings_Contains bucketName "." = false).
    { apply not_true_is_false. by rewrite strings_Contains_spec. }
    unfold makeTargetURL, targetHost, targetURLString.
    rewrite Hamz, Hacc, Hne, Hc. simpl negb. simpl andb. cbv iota.
    by destruct isVirtualHostStyle.
Qed.

(** ** The redirect hook *)

Lemma union_insert_present (m1 m2 : gmap string (list string)) (i : string)
    (x : list string) :
  is_Some (m1 !! i) -> m1 ∪ <[i := x]> m2 = m1 ∪ m2.
Proof.
  intros [y Hy]. apply map_eq. intros j. rewrite !lookup_union.
  destruct (decide (i = j)) as [<-|Hne].
  - rewrite Hy. by destruct (<[i:=x]> m2 !! i), (m2 !! i).
  - by rewrite lookup_insert_ne.
Qed.

(** [copyHeaders] in one step: the flag says that an [Authorization] header
    was held back, and the headers of [req] are completed, not replaced. *)
Lemma copyHeaders_spec (req lastRequest : Request) :
  copyHeaders req lastRequest =
  ((Host req ≠? Host lastRequest) && hasAuthorization (Header lastRequest),
   Header req ∪ copied req lastRequest (Header lastRequest)).
Proof.
  unfold copyHeaders.
  apply (map_fold_weak_ind
           (fun acc m =>
              acc = ((Host req ≠? Host lastRequest) && hasAuthorization m,
                     Header req ∪ copied req lastRequest m))).
  - unfold copied, hasAuthorization. rewrite lookup_empty.
    destruct (Host req ≠? Host lastRequest); simpl;
      by rewrite ?delete_empty, (right_id_L ∅ (∪)).
  - intros attr val m acc Hfresh ->. unfold hasAuthorization.
    destruct (String.eqb attr "Authorization") eqn:Ea;
      [apply eqb_true in Ea | apply eqb_false in Ea].
    + subst attr. unfold copied.
      destruct (Host req ≠? Host lastRequest) eqn:Eh; simpl.
      * by rewrite lookup_insert_eq, delete_insert_eq.
      * rewrite lookup_union, Hfresh, (right_id_L None union).
        destruct (Header req !! "Authorization") eqn:Er.
        -- by rewrite union_insert_present by eauto.
        -- by rewrite insert_union_r.
    + simpl. assert (Hc : copied req lastRequest (<[attr := val]> m)
                          = <[attr := val]> (copied req lastRequest m)).
      { unfold copied. destruct (Host req ≠? Host lastRequest); [|done].
        by rewrite delete_insert_ne. }
      assert (Hf : copied req lastRequest m !! attr = None).
      { unfold copied. destruct (Host req ≠? Host lastRequest); [|done].
        by rewrite lookup_delete_ne. }
      rewrite Hc, lookup_union, Hf, (right_id_L None union).
      rewrite lookup_insert_ne by done.
      destruct (Header req !! attr) eqn:Er.
      * by rewrite union_insert_present by eauto.
      * by rewrite insert_union_r.
Qed.

Lemma copyHeaders_Authorization (req lastRequest : Request) :
  Host req <> Host lastRequest ->
  (copyHeaders req lastRequest).2 !! "Authorization" = Header req !! "Authorization".
Proof.
  intros Hh. apply eqb_false in Hh. rewrite copyHeaders_spec. simpl.
  unfold copied. rewrite Hh. simpl.
  rewrite lookup_union, lookup_delete_eq. by destruct (Header req !! "Authorization").
Qed.

Lemma redirectRegion_spec (c : Client) (ep : URL) :
  getDefaultLocation ep (if region c =? "" then GetRegionFromURL ep else region c)
  = redirectRegion c ep.
Proof.
  unfold getDefaultLocation, redirectRegion.
  destruct (String.eqb (region c) "") eqn:E1; simpl; [|by rewrite E1].
  by destruct (String.eqb (GetRegionFromURL ep) "") eqn:E2; simpl; rewrite ?E2.
Qed.

(** C7: the redirect hook gives up with an error once five requests were
    made; for a redirect to another host than the one of the last request, it
    does not copy the [Authorization] header of that request, and when that
    request had one and the provider answers, it fails with an error under a
    V2 signer and, under a V4 signer, signs the new request again for the
    region of the client or, when that is empty, for the region of the URL
    of the redirect, or for us-east-1 when that URL tells none. *)
Theorem redirectHeaders_reauth (c : Client) (req : Request) (via : list Request)
    (s : state) :
  ((5 <= length via)%nat ->
   redirectHeaders c req via s = (Err (ErrNew "stopped after 5 redirects"), s)) /\
  (forall lastRequest,
     (length via < 5)%nat ->
     last via = Some lastRequest ->
     Host req <> Host lastRequest ->
     let h := (copyHeaders req lastRequest).2 in
     let req' := withHeader req h in
     let s1 := tick (mkState (rURL req) (items s) (clock s) (events s)) in
     h !! "Authorization" = Header req !! "Authorization" /\
     (forall value,
        is_Some (Header lastRequest !! "Authorization") ->
        credsProvider_Get (clock s) = inr value ->
        let signerType := effectiveSignerType c value in
        (IsV2 signerType = true ->
         redirectHeaders c req via s
           = (Err (ErrNew "signature V2 cannot support redirection"), s1)) /\
        (IsV2 signerType = false -> IsV4 signerType = true ->
         redirectHeaders c req via s
           = (Ok (withHeader req'
                    (Header (SignV4 req' (AccessKeyID value) (SecretAccessKey value)
                               (SessionToken value) (redirectRegion c (rURL req))
                               (S (clock s))))),
              s1)))).
Proof.
  split.
  - intros Hlen. unfold redirectHeaders.
    assert (H5 : (5 <=? Z.of_nat (length via))%Z = true) by (apply Z.leb_le; lia).
    by rewrite H5.
  - intros lastRequest Hlen Hlast Hhost h req' s1.
    split; [by apply copyHeaders_Authorization|].
    intros value [auth Hauth] Hcreds signerType.
    assert (H5 : (5 <=? Z.of_nat (length via))%Z = false) by (apply Z.leb_gt; lia).
    unfold redirectHeaders. rewrite H5, Hlast.
    assert (Hcopy : copyHeaders req lastRequest = (true, h)).
    { subst h. rewrite copyHeaders_spec. simpl. f_equal.
      apply eqb_false in Hhost. unfold hasAuthorization. by rewrite Hhost, Hauth. }
    rewrite Hcopy. fold req'.
    unfold mbind, M_bind, set_endpointURL, credsGet. simpl.
    rewrite Hcreds. fold signerType.
    unfold get_endpointURL. simpl. rewrite redirectRegion_spec.
    split.
    + by intros ->.
    + by intros -> ->.
Qed.

(** ** No empty region *)

Lemma quiet_writesNonEmpty (e : event) : quiet e -> writesNonEmpty e.
Proof. by destruct e. Qed.

Lemma inner_cacheKept (s s' : state) : nonEmptyCache s -> inner s s' -> cacheKept s s'.
Proof.
  intros Hc [(new & Hev & Hq) Hk]. split; [tauto|].
  exists new. split; [done|]. eapply Forall_impl; [exact Hq|].
  apply quiet_writesNonEmpty.
Qed.

Lemma attemptsTrace_writes (seek : bool) (n : nat) (chrono : list event) :
  attemptsTrace seek n chrono -> Forall writesNonEmpty chrono.
Proof.
  induction 1 as [n|n _|n calls rest Hq _ IH].
  - constructor.
  - by repeat constructor.
  - apply Forall_app. split; [destruct seek; by repeat constructor|].
    constructor; [done|]. apply Forall_app. split; [|done].
    eapply Forall_impl; [exact Hq | apply quiet_writesNonEmpty].
Qed.

Lemma newBucketLocationCache_nonEmpty (u : URL) (t : nat) (evs : list event) :
  nonEmptyCache (mkState u newBucketLocationCache t evs).
Proof. apply map_Forall_empty. Qed.

Lemma getBucketLocation_nonempty (c : Client) (bucketName location : string)
    (s s' : state) :
  nonEmptyCache s ->
  getBucketLocation c bucketName s = (Ok location, s') ->
  location <> "".
Proof.
  intros Hc. unfold getBucketLocation.
  destruct (CheckValidBucketName bucketName); [discriminate|].
  destruct (String.eqb (region c) "") eqn:Er; simpl.
  2: { intros [= <- _]. by apply eqb_false in Er. }
  unfold mbind at 1, M_bind at 1, bucketLocCache_Get.
  destruct (items s !! bucketName) as [cached|] eqn:Hhit.
  - intros [= <- _]. exact (Hc _ _ Hhit).
  - intros H.
    apply bind_inv_Ok in H as (req & s1 & _ & H).
    apply bind_inv_Ok in H as (resp & s2 & _ & H).
    apply bind_inv_Ok in H as (loc & s3 & Hp & H).
    apply bind_inv_Ok in H as ([] & s4 & _ & H).
    injection H as <- _.
    apply (processBucketLocationResponse_nonempty (Some resp) bucketName).
    exact (f_equal fst Hp).
Qed.

Lemma inner_GenUploadPartSignedUrl (c : Client) (uploadID bucketName objectName : string)
    (partNumber size expires : Z) (bucketLocation : string) :
  preserves inner (GenUploadPartSignedUrl c uploadID bucketName objectName
                     partNumber size expires bucketLocation).
Proof. unfold GenUploadPartSignedUrl. repeat inner_step. apply inner_newRequest. Qed.

Lemma executeMethod_cacheKept (c : Client) (method : string)
    (metadata : requestMetadata) (s : state) :
  nonEmptyCache s -> cacheKept s (executeMethod c method metadata s).2.
Proof.
  intros Hc.
  pose proof (executeMethod_events c method metadata s) as Hev.
  destruct (retryLoop_trace c method metadata (retryPlan (contentBody metadata)).1
              (newRetryTimer (retryPlan (contentBody metadata)).2)
              (mkLocals None None) s) as (chrono & Hev' & Htr & Hk).
  split.
  - unfold executeMethod.
    destruct (retryPlan (contentBody metadata)) as [isRetryable reqRetry].
    simpl in Hk. specialize (Hk Hc).
    destruct (contentBody metadata) as [body|]; [|done].
    destruct (isCloser body); [|done].
    unfold defer. by destruct (retryLoop _ _ _ _ _ _ s).
  - exists (closeEvents (contentBody metadata) ++ rev chrono)%list.
    rewrite Hev, Hev', app_assoc. split; [done|].
    apply Forall_app. split.
    + unfold closeEvents. destruct (contentBody metadata) as [body|]; [|done].
      destruct (isCloser body); by repeat constructor.
    + apply Forall_rev. by apply attemptsTrace_writes in Htr.
Qed.

(** C8: the resolution of a region never answers the empty string:
    [getDefaultLocation] never does, [processBucketLocationResponse] never
    does when it succeeds, and neither does [getBucketLocation] when it
    succeeds on a cache without empty entries; and the calls that write
    into the cache, [getBucketLocation], [newRequest],
    [GenUploadPartSignedUrl] and [executeMethod], write no empty region and
    leave a cache without empty entries. *)
Theorem region_never_empty (c : Client) (s : state) :
  nonEmptyCache s ->
  (forall u regionOverride, getDefaultLocation u regionOverride <> "") /\
  (forall resp bucketName location,
     processBucketLocationResponse resp bucketName = Ok location -> location <> "") /\
  (forall bucketName location s',
     getBucketLocation c bucketName s = (Ok location, s') -> location <> "") /\
  (forall bucketName, cacheKept s (getBucketLocation c bucketName s).2) /\
  (forall method metadata, cacheKept s (newRequest c method metadata s).2) /\
  (forall uploadID bucketName objectName partNumber size expires bucketLocation,
     cacheKept s (GenUploadPartSignedUrl c uploadID bucketName objectName
                    partNumber size expires bucketLocation s).2) /\
  (forall method metadata, cacheKept s (executeMethod c method metadata s).2).
Proof.
  intros Hc. repeat split.
  - apply getDefaultLocation_nonempty.
  - apply processBucketLocationResponse_nonempty.
  - intros bucketName location s'. by apply getBucketLocation_nonempty.
  - apply (inner_cacheKept _ _ Hc), inner_getBucketLocation.
  - apply (inner_cacheKept _ _ Hc), inner_getBucketLocation.
  - apply (inner_cacheKept _ _ Hc), inner_newRequest.
  - apply (inner_cacheKept _ _ Hc), inner_newRequest.
  - apply (inner_cacheKept _ _ Hc), inner_GenUploadPartSignedUrl.
  - apply (inner_cacheKept _ _ Hc), inner_GenUploadPartSignedUrl.
  - by apply executeMethod_cacheKept.
  - by apply executeMethod_cacheKept.
Qed.

(** ** Presigning an upload of a part *)

(** [GenUploadPartSignedUrl] past its checks. *)
Lemma GenUploadPartSignedUrl_valid (c : Client) (uploadID bucketName objectName : string)
    (partNumber size expires : Z) (bucketLocation : string) (s : state) :
  CheckValidBucketName bucketName = None ->
  CheckValidObjectName objectName = None ->
  (0 <= size <= maxPartSize)%Z ->
  (0 < partNumber)%Z ->
  uploadID <> "" ->
  GenUploadPartSignedUrl c uploadID bucketName objectName partNumber size expires
                         bucketLocation s
  = (newRequest c "PUT"
       (uploadPartMetadata uploadID bucketName objectName partNumber size expires
                           bucketLocation)
     ≫= fun req => mret (URL_String (rURL req))) s.
Proof.
  intros Hb Ho Hsize Hpart Hid. unfold GenUploadPartSignedUrl.
  rewrite Hb, Ho.
  assert (H1 : (size >? maxPartSize)%Z = false)
    by (rewrite Z.gtb_ltb; apply Z.ltb_ge; lia).
  assert (H2 : (size <=? -1)%Z = false) by (apply Z.leb_gt; lia).
  assert (H3 : (partNumber <=? 0)%Z = false) by (apply Z.leb_gt; lia).
  apply eqb_false in Hid. by rewrite H1, H2, H3, Hid.
Qed.

(** C9 (amended): [GenUploadPartSignedUrl] answers an error whenever the
    bucket or the object name is not valid, the size is above the maximum
    part size or negative, the part number is not positive or the upload ID
    is empty.  For valid arguments and an expiry of one second or more, once
    the region is resolved, the target URL is built, [http.NewRequest] has
    made the bare request and the provider has answered credentials that are
    not anonymous, that bare request is the one of the target URL whose
    query values are partNumber and uploadId and nothing else, and the
    answer is the URL of that request as [PreSignV2] (V2 signer) or
    [PreSignV4] (V4 signer) presigns it. *)
Theorem GenUploadPartSignedUrl_spec (c : Client) (uploadID bucketName objectName : string)
    (partNumber size expires : Z) (bucketLocation : string) (s : state) :
  ((is_Some (CheckValidBucketName bucketName) \/
    is_Some (CheckValidObjectName objectName) \/
    (size > maxPartSize)%Z \/ (size < 0)%Z \/ (partNumber <= 0)%Z \/
    uploadID = "") ->
   exists e,
     GenUploadPartSignedUrl c uploadID bucketName objectName partNumber size
                            expires bucketLocation s = (Err e, s)) /\
  (forall s1 location isVirtualHost req value,
     CheckValidBucketName bucketName = None ->
     CheckValidObjectName objectName = None ->
     (0 <= size <= maxPartSize)%Z ->
     (0 < partNumber)%Z ->
     uploadID <> "" ->
     (time_Second <= expires)%Z ->
     let metadata :=
       uploadPartMetadata uploadID bucketName objectName partNumber size expires
                          bucketLocation in
     newRequestTarget c "PUT" metadata s = (Ok (location, isVirtualHost, req), s1) ->
     credsProvider_Get (clock s1) = inr value ->
     let signerType := effectiveSignerType c value in
     let t := S (clock s1) in
     IsAnonymous signerType = false ->
     (exists host targetURL,
        targetHost c (endpointURL s1) bucketName location = Ok host /\
        url_Parse (targetURLString (Scheme (endpointURL s1)) host bucketName
                     objectName isVirtualHost
                     (<["uploadId" := [uploadID]]>
                        (<["partNumber" := [strconv_Itoa partNumber]]> ∅)))
          = inr targetURL /\
        http_NewRequest "PUT" (URL_String targetURL) = inr req) /\
     (IsV2 signerType = true ->
      GenUploadPartSignedUrl c uploadID bucketName objectName partNumber size
                             expires bucketLocation s
        = (Ok (URL_String
                 (rURL (PreSignV2 req (AccessKeyID value) (SecretAccessKey value)
                          (Z.quot expires time_Second) isVirtualHost t))),
           tick s1)) /\
     (IsV2 signerType = false -> IsV4 signerType = true ->
      GenUploadPartSignedUrl c uploadID bucketName objectName partNumber size
                             expires bucketLocation s
        = (Ok (URL_String
                 (rURL (PreSignV4 req (AccessKeyID value) (SecretAccessKey value)
                          (SessionToken value) location
                          (Z.quot expires time_Second) t))),
           tick s1))).
Proof.
  split.
  - intros H. unfold GenUploadPartSignedUrl.
    destruct (CheckValidBucketName bucketName) as [e|]; [by exists e|].
    destruct (CheckValidObjectName objectName) as [e|]; [by exists e|].
    destruct (size >? maxPartSize)%Z eqn:H1; [by eexists|].
    destruct (size <=? -1)%Z eqn:H2; [by eexists|].
    destruct (partNumber <=? 0)%Z eqn:H3; [by eexists|].
    destruct (String.eqb uploadID "") eqn:H4; [by eexists|].
    rewrite Z.gtb_ltb in H1. apply Z.ltb_ge in H1.
    apply Z.leb_gt in H2. apply Z.leb_gt in H3.
    apply eqb_false in H4.
    destruct H as [[x Hx]|[[x Hx]|[?|[?|[?|?]]]]]; try done; lia.
  - intros s1 location isVirtualHost req value Hb Ho Hsize Hpart Hid Hexp
           metadata Ht Hc signerType t Hanon.
    assert (Hq : Z.quot expires time_Second <> 0%Z).
    { pose proof (Z.quot_le_mono time_Second expires time_Second) as Hm.
      unfold time_Second in *. rewrite Z.quot_same in Hm by lia. lia. }
    split; [exact (newRequestTarget_inv _ _ _ _ _ _ _ _ Ht)|].
    rewrite GenUploadPartSignedUrl_valid by done. fold metadata.
    destruct (newRequest_presign_run c "PUT" metadata s s1 location isVirtualHost
                req value eq_refl Hq Ht Hc) as (_ & H2 & H4).
    fold signerType in H2, H4. split.
    + intros Hv2. by rewrite (bind_Ok _ _ _ _ _ (H2 Hanon Hv2)).
    + intros Hv2 Hv4. by rewrite (bind_Ok _ _ _ _ _ (H4 Hanon Hv2 Hv4)).
Qed.

Lemma quot_subsecond (expires : Z) :
  (- time_Second < expires < time_Second)%Z -> Z.quot expires time_Second = 0%Z.
Proof.
  intros H. unfold time_Second in *.
  destruct (Z.le_gt_cases 0 expires) as [Hpos|Hneg].
  - apply Z.quot_small. lia.
  - replace expires with (- (- expires))%Z by lia.
    rewrite Z.quot_opp_l by lia. rewrite Z.quot_small; lia.
Qed.

(** What [newRequest] answers when it does not presign: its URL is the one
    of the bare request as long as the header signers leave the URL alone. *)
Lemma newRequestSign_plain_URL (c : Client) (method : string)
    (metadata : requestMetadata) (location : string) (isVirtualHost : bool)
    (req : Request) (value : Value SignatureType) (s : state) :
  (forall r a k v t, rURL (SignV2 r a k v t) = rURL r) ->
  (forall r a k tok loc t, rURL (SignV4 r a k tok loc t) = rURL r) ->
  (forall r a k tok loc n t, rURL (StreamingSignV4 r a k tok loc n t) = rURL r) ->
  expires metadata = 0%Z ->
  customHeader metadata = ∅ ->
  exists req',
    newRequestSign c method metadata location isVirtualHost req value s
      = (Ok req', s) /\
    rURL req' = rURL req.
Proof.
  intros L2 L4 LS Hexp Hcustom. unfold newRequestSign.
  rewrite Hexp, Hcustom. unfold setCustomHeaders. rewrite map_fold_empty.
  unfold mbind, M_bind, now, lift. simpl.
  destruct (0 <? Z.of_nat (String.length (contentMD5Base64 metadata)))%Z;
    (destruct (IsAnonymous _); [eexists; split; [reflexivity | done]|]);
    (destruct (IsV2 _); [eexists; split; [reflexivity | by rewrite L2]|]);
    destruct (_ && _ && _ && _); eexists; (split; [reflexivity|]);
    by rewrite ?LS, ?L4.
Qed.

(** C10: for an expiry of less than a second, zero included,
    [GenUploadPartSignedUrl] hands [expires = 0] to [newRequest], which then
    does not presign: whatever the credentials, anonymous ones included, the
    call succeeds once the bare request is there and the provider has
    answered, and its answer is the URL of the bare request, made by
    [http.NewRequest] from the target URL whose query values are partNumber
    and uploadId and nothing else. *)
Theorem GenUploadPartSignedUrl_subsecond (c : Client)
    (uploadID bucketName objectName : string) (partNumber size expiry : Z)
    (bucketLocation : string) (s s1 : state) (location : string)
    (isVirtualHost : bool) (req : Request) (value : Value SignatureType) :
  (forall r a k v t, rURL (SignV2 r a k v t) = rURL r) ->
  (forall r a k tok loc t, rURL (SignV4 r a k tok loc t) = rURL r) ->
  (forall r a k tok loc n t, rURL (StreamingSignV4 r a k tok loc n t) = rURL r) ->
  (- time_Second < expiry < time_Second)%Z ->
  CheckValidBucketName bucketName = None ->
  CheckValidObjectName objectName = None ->
  (0 <= size <= maxPartSize)%Z ->
  (0 < partNumber)%Z ->
  uploadID <> "" ->
  let metadata :=
    uploadPartMetadata uploadID bucketName objectName partNumber size expiry
                       bucketLocation in
  newRequestTarget c "PUT" metadata s = (Ok (location, isVirtualHost, req), s1) ->
  credsProvider_Get (clock s1) = inr value ->
  expires metadata = 0%Z /\
  (exists host targetURL,
     targetHost c (endpointURL s1) bucketName location = Ok host /\
     url_Parse (targetURLString (Scheme (endpointURL s1)) host bucketName
                  objectName isVirtualHost
                  (<["uploadId" := [uploadID]]>
                     (<["partNumber" := [strconv_Itoa partNumber]]> ∅)))
       = inr targetURL /\
     http_NewRequest "PUT" (URL_String targetURL) = inr req) /\
  GenUploadPartSignedUrl c uploadID bucketName objectName partNumber size expiry
                         bucketLocation s
    = (Ok (URL_String (rURL req)), tick s1).
Proof.
  intros L2 L4 LS Hexp Hb Ho Hsize Hpart Hid metadata Ht Hc.
  assert (Hzero : expires metadata = 0%Z) by by apply quot_subsecond.
  split; [done|].
  split; [exact (newRequestTarget_inv _ _ _ _ _ _ _ _ Ht)|].
  rewrite GenUploadPartSignedUrl_valid by done. fold metadata.
  destruct (newRequestSign_plain_URL c "PUT" metadata location isVirtualHost req
              value (tick s1) L2 L4 LS Hzero eq_refl) as (req' & Hrun & Hurl).
  assert (Hnew : newRequest c "PUT" metadata s = (Ok req', tick s1)).
  { by rewrite (newRequest_run c "PUT" metadata s s1 location isVirtualHost req
                  value Ht Hc). }
  rewrite (bind_Ok _ _ _ _ _ Hnew). by rewrite <- Hurl.
Qed.

End Properties.

(** * Runs on the stand-in *)

Import Double.

(** C1, the claim as it stands fails: a call without a body, which has no
    seek capability, is attempted twice when the first answer is 503; and a
    call with a seekable body seeks before its first attempt. *)
Lemma executeMethod_attempts_counterexample :
  contentBody getObject = None /\
  attempts (rev (events
    (executeMethod (W := world staticV4 unavailableOnce noSeekError)
                   fixedRegion "GET" getObject start).2)) = 2%nat /\
  exists req,
    rev (events
      (executeMethod (W := world staticV4 (fun _ => ok) noSeekError)
                     fixedRegion "PUT" putObject start).2)
    = [EvSeek; EvNewRequest; EvDo req].
Proof.
  split; [reflexivity|]. split; [vm_compute; reflexivity|].
  eexists. vm_compute. reflexivity.
Qed.

Lemma executeMethod_attempts_witness :
  exists chrono,
    events (executeMethod (W := world staticV4 unavailableOnce noSeekError)
                          fixedRegion "PUT" putObject start).2
      = (closeEvents (contentBody putObject) ++ rev chrono ++ events start)%list /\
    attemptsTrace true MaxRetry chrono /\
    (attempts chrono <= MaxRetry)%nat /\
    (attempts chrono <= seeks chrono)%nat.
Proof.
  exact (proj1 (executeMethod_attempts
                  (W := world staticV4 unavailableOnce noSeekError)
                  fixedRegion "PUT" putObject) start).
Defined.

Lemma region_correcting_retry_witness :
  exists req s1 s2,
    newRequest (W := world staticV4 Scenes.hinted noSeekError) anyRegion "GET" getObject
               (attemptStart false cached) = (Ok req, s1) /\
    do (W := world staticV4 Scenes.hinted noSeekError) anyRegion req s1
    = (Ok wrongRegion, s2) /\
    ~ In (StatusCode wrongRegion) successStatus /\
    let errResponse :=
      ToErrorResponse (httpRespToErrorResponse (Some wrongRegion) "my-bucket"
                                               "key.bin") in
    regionMismatch anyRegion getObject errResponse s2 /\
    items (correctedState getObject errResponse s2) !! "my-bucket" = Some "eu-west-1" /\
    executeMethod (W := world staticV4 Scenes.hinted noSeekError) anyRegion "GET" getObject
                  cached
    = ((retryLoop (W := world staticV4 Scenes.hinted noSeekError) anyRegion "GET" getObject
                  false (seq 2 9) (mkLocals (Some wrongRegion) None)
                  (correctedState getObject errResponse s2)).1,
       closeBody (contentBody getObject)
         (retryLoop (W := world staticV4 Scenes.hinted noSeekError) anyRegion "GET" getObject
                    false (seq 2 9) (mkLocals (Some wrongRegion) None)
                    (correctedState getObject errResponse s2)).2).
Proof.
  eexists _, _, _.
  split; [vm_compute; reflexivity|]. split; [vm_compute; reflexivity|].
  assert (H : ~ In (StatusCode wrongRegion) successStatus).
  { simpl. intros [H|[H|[H|[]]]]; discriminate H. }
  split; [exact H|]. intros errResponse.
  match goal with
  | |- regionMismatch _ _ _ ?s2 /\ _ =>
      assert (Hm : regionMismatch anyRegion getObject errResponse s2)
  end.
  { split; [reflexivity|]. split; [reflexivity|].
    split; [left; vm_compute; reflexivity|].
    split; [discriminate|].
    split; [vm_compute; intros E; discriminate E|].
    exists "us-east-1". vm_compute. reflexivity. }
  split; [exact Hm|]. split; [vm_compute; reflexivity|].
  refine (proj1 (proj2 (proj2 (region_correcting_retry
                                 (W := world staticV4 Scenes.hinted noSeekError)
                                 anyRegion "GET" getObject false 1%nat (seq 2 9)
                                 (mkLocals None None) cached _ _ _ wrongRegion _
                                 _ _ _ H eq_refl))
                   10%nat eq_refl eq_refl) Hm).
  - discriminate.
  - vm_compute. reflexivity.
  - vm_compute. reflexivity.
Defined.

(** C3, the claim as it stands fails: with an expiry of zero, a request to
    presign with anonymous credentials is not refused. *)
Lemma newRequest_presign_counterexample :
  presignURL (presignPut 0) = true /\
  IsAnonymous (effectiveSignerType fixedRegion anonymous) = true /\
  exists req,
    (newRequest (W := world anonymous offline noSeekError)
                fixedRegion "PUT" (presignPut 0) start).1 = Ok req.
Proof.
  split; [reflexivity|]. split; [reflexivity|]. eexists. vm_compute. reflexivity.
Qed.

Lemma newRequest_presign_witness :
  expires (presignPut 3600) <> 0%Z /\
  newRequest (W := world anonymous offline noSeekError)
             fixedRegion "PUT" (presignPut 3600) start
  = (Err (ErrInvalidArgument
            "Presigned URLs cannot be generated with anonymous credentials."),
     tick start).
Proof.
  assert (H : expires (presignPut 3600) <> 0%Z) by (simpl; lia).
  split; [exact H|].
  refine (proj1 (newRequest_presign (W := world anonymous offline noSeekError)
                   fixedRegion "PUT" (presignPut 3600) start start "us-east-1" true
                   (bare "") anonymous eq_refl H _ eq_refl) eq_refl).
  vm_compute. reflexivity.
Defined.

(** C4, the claim as it stands fails: on an answer of status 206, which is
    2xx, the location constraint of the body is not read. *)
Lemma processBucketLocationResponse_counterexample :
  (200 <= StatusCode (locationEU 206 "206 Partial Content") < 300)%Z /\
  xmlDecoder (respBody (locationEU 206 "206 Partial Content")) = inr "EU" /\
  processBucketLocationResponse (Some (locationEU 206 "206 Partial Content")) "my-bucket"
  = Err (ErrOfResponse
           (mkErrorResponse 206 "206 Partial Content" "206 Partial Content" "my-bucket"
                            "")).
Proof. split; [simpl; lia|]. split; vm_compute; reflexivity. Qed.

Lemma processBucketLocationResponse_status200_witness :
  StatusCode (locationEU 200 "200 OK") = 200%Z /\
  xmlDecoder (respBody (locationEU 200 "200 OK")) = inr "EU" /\
  processBucketLocationResponse (Some (locationEU 200 "200 OK")) "my-bucket"
  = Ok (normalizeLocation "EU").
Proof.
  split; [reflexivity|]. split; [vm_compute; reflexivity|].
  refine (proj1 (processBucketLocationResponse_status200
                   (locationEU 200 "200 OK") "my-bucket" "EU" eq_refl _)).
  vm_compute. reflexivity.
Defined.

Lemma processBucketLocationResponse_non2xx_witness :
  ~ (200 <= StatusCode accessDenied < 300)%Z /\
  processBucketLocationResponse (Some accessDenied) "my-bucket" = Ok "us-east-1".
Proof.
  assert (H : ~ (200 <= StatusCode accessDenied < 300)%Z) by (simpl; lia).
  split; [exact H|].
  refine (proj2 (proj1 (processBucketLocationResponse_non2xx accessDenied
                          "my-bucket" H) _) _).
  - vm_compute. tauto.
  - vm_compute. reflexivity.
Defined.

(** C6, the claim as it stands fails: in virtual-host style, the host of
    the URL is the accelerate endpoint behind the bucket name. *)
Lemma makeTargetURL_accelerate_counterexample :
  IsAmazonEndpoint amazon = true /\
  isVirtualHostStyleRequest accelerated amazon "mybucket" = true /\
  makeTargetURL accelerated amazon "mybucket" "key.bin" "us-east-1" true ∅
  = Ok (mkURL "https" "mybucket.s3-accelerate.amazonaws.com" "/key.bin" "") /\
  "mybucket.s3-accelerate.amazonaws.com" <> s3AccelerateEndpoint accelerated.
Proof.
  split; [reflexivity|]. split; [reflexivity|]. split; [vm_compute; reflexivity|].
  discriminate.
Qed.

Lemma makeTargetURL_accelerate_witness :
  IsAmazonEndpoint amazon = true /\
  s3AccelerateEndpoint accelerated <> "" /\
  makeTargetURL accelerated amazon "my.bucket" "key.bin" "us-east-1" true ∅
  = Err (ErrTransferAccelerationBucket "my.bucket").
Proof.
  assert (H : s3AccelerateEndpoint accelerated <> "") by discriminate.
  split; [reflexivity|]. split; [exact H|].
  refine (proj1 (makeTargetURL_accelerate accelerated amazon "my.bucket" "key.bin"
                   "us-east-1" true ∅ eq_refl H) _).
  exists "my", "bucket". reflexivity.
Defined.

Lemma redirectHeaders_reauth_witness :
  (length [signedRequest] < 5)%nat /\
  Host redirected <> Host signedRequest /\
  is_Some (Header signedRequest !! "Authorization") /\
  let req' := withHeader redirected (copyHeaders redirected signedRequest).2 in
  redirectHeaders (W := world staticV4 offline noSeekError)
                  anyRegion redirected [signedRequest] start
  = (Ok (withHeader req'
           (Header (SignV4 req' "AKIAEXAMPLE" "secret" "" "us-east-1" 1))),
     tick (mkState (rURL redirected) (items start) (clock start) (events start))).
Proof.
  assert (Hlen : (length [signedRequest] < 5)%nat) by (simpl; lia).
  assert (Hhost : Host redirected <> Host signedRequest) by discriminate.
  assert (Hauth : is_Some (Header signedRequest !! "Authorization"))
    by (vm_compute; eauto).
  split; [exact Hlen|]. split; [exact Hhost|]. split; [exact Hauth|].
  exact (proj2 (proj2 (proj2 (redirectHeaders_reauth
                                (W := world staticV4 offline noSeekError)
                                anyRegion redirected [signedRequest] start)
                         signedRequest Hlen eq_refl Hhost)
                  staticV4 Hauth eq_refl) eq_refl eq_refl).
Defined.

Lemma region_never_empty_witness :
  nonEmptyCache cached /\
  cacheKept cached
    (executeMethod (W := world staticV4 (fun _ => (Some wrongRegion, None)) noSeekError)
                   anyRegion "GET" getObject cached).2.
Proof.
  assert (H : nonEmptyCache cached).
  { apply map_Forall_insert_2; [discriminate | apply map_Forall_empty]. }
  split; [exact H|].
  apply (region_never_empty
           (W := world staticV4 (fun _ => (Some wrongRegion, None)) noSeekError)
           anyRegion cached H).
Defined.

(** C9, the claim as it stands fails: with valid arguments, credentials that
    are not anonymous and an expiry of an hour, the call fails for a bucket
    name with a period under transfer acceleration, and fails when the
    region of the bucket cannot be fetched. *)
Lemma GenUploadPartSignedUrl_counterexample :
  CheckValidBucketName "my.bucket" = None /\
  GenUploadPartSignedUrl (W := world staticV4 offline noSeekError) accelerated
    "upload-1" "my.bucket" "key.bin" 3 1024 (3600 * time_Second) "us-east-1" start
  = (Err (ErrTransferAccelerationBucket "my.bucket"), start) /\
  exists s',
    GenUploadPartSignedUrl (W := world staticV4 offline noSeekError) anyRegion
      "upload-1" "my-bucket" "key.bin" 3 1024 (3600 * time_Second) "" start
    = (Err (ErrURL "Get" "https://s3.amazonaws.com/" "dial tcp: no route to host"),
       s').
Proof.
  split; [reflexivity|]. split; [vm_compute; reflexivity|].
  eexists. vm_compute. reflexivity.
Qed.

Lemma GenUploadPartSignedUrl_spec_witness :
  (0 <= 1024 <= maxPartSize)%Z /\
  (time_Second <= 3600 * time_Second)%Z /\
  GenUploadPartSignedUrl (W := world staticV4 offline noSeekError) fixedRegion
    "upload-1" "my-bucket" "key.bin" 3 1024 (3600 * time_Second) "" start
  = (Ok "https://my-bucket.s3.dualstack.us-east-1.amazonaws.com/key.bin?X-Amz-Algorithm=AWS4-HMAC-SHA256&X-Amz-Credential=AKIAEXAMPLE%2Fus-east-1%2Fs3%2Faws4_request&X-Amz-Expires=3600&partNumber=3&uploadId=upload-1&X-Amz-Signature=signature",
     tick start).
Proof.
  assert (Hsize : (0 <= 1024 <= maxPartSize)%Z) by (simpl; lia).
  assert (Hexp : (time_Second <= 3600 * time_Second)%Z) by (unfold time_Second; lia).
  assert (Hpart : (0 < 3)%Z) by lia.
  assert (Hid : "upload-1" <> "") by discriminate.
  split; [exact Hsize|]. split; [exact Hexp|].
  refine (eq_trans
            (proj2 (proj2 (proj2 (GenUploadPartSignedUrl_spec
                                    (W := world staticV4 offline noSeekError)
                                    fixedRegion "upload-1" "my-bucket" "key.bin" 3
                                    1024 (3600 * time_Second) "" start)
                             start "us-east-1" true
                             (bare "partNumber=3&uploadId=upload-1") staticV4
                             eq_refl eq_refl Hsize Hpart Hid Hexp _ eq_refl eq_refl))
                   eq_refl eq_refl) _).
  - vm_compute. reflexivity.
  - vm_compute. reflexivity.
Defined.

Lemma GenUploadPartSignedUrl_subsecond_witness :
  (- time_Second < 500000000 < time_Second)%Z /\
  GenUploadPartSignedUrl (W := world anonymous offline noSeekError) fixedRegion
    "upload-1" "my-bucket" "key.bin" 3 1024 500000000 "" start
  = (Ok "https://my-bucket.s3.dualstack.us-east-1.amazonaws.com/key.bin?partNumber=3&uploadId=upload-1",
     tick start).
Proof.
  assert (Hexp : (- time_Second < 500000000 < time_Second)%Z)
    by (unfold time_Second; lia).
  assert (Hsize : (0 <= 1024 <= maxPartSize)%Z) by (simpl; lia).
  assert (Hpart : (0 < 3)%Z) by lia.
  assert (Hid : "upload-1" <> "") by discriminate.
  split; [exact Hexp|].
  refine (eq_trans
            (proj2 (proj2 (GenUploadPartSignedUrl_subsecond
                             (W := world anonymous offline noSeekError)
                             fixedRegion "upload-1" "my-bucket" "key.bin" 3 1024
                             500000000 "" start start "us-east-1" true
                             (bare "partNumber=3&uploadId=upload-1") anonymous
                             (fun _ _ _ _ _ => eq_refl)
                             (fun _ _ _ _ _ _ => eq_refl)
                             (fun _ _ _ _ _ _ _ => eq_refl)
                             Hexp eq_refl eq_refl Hsize Hpart Hid _ eq_refl))) _).
  - vm_compute. reflexivity.
  - vm_compute. reflexivity.
Defined.

(** * Further properties *)

Section More.

Context `{Ext : External} {W : World}.

(** ** The cache of bucket locations *)

(** X1: what [Set] puts into the cache [Get] finds, the entries of the other
    buckets are as before, and a new cache has no entry. *)
Theorem bucketLocCache_Set_Get (bucketName location : string) (s : state) :
  let s' := (bucketLocCache_Set bucketName location s).2 in
  bucketLocCache_Get bucketName s' = (Ok (location, true), s') /\
  (forall b, b <> bucketName ->
     (bucketLocCache_Get b s').1 = (bucketLocCache_Get b s).1) /\
  (forall b u t evs,
     (bucketLocCache_Get b (mkState u newBucketLocationCache t evs)).1
       = Ok ("", false)).
Proof.
  unfold bucketLocCache_Get, bucketLocCache_Set, log. cbn [snd fst items].
  split; [|split].
  - rewrite lookup_insert_eq. reflexivity.
  - intros b Hb. rewrite lookup_insert_ne by done. by destruct (items s !! b).
  - intros b u t evs. unfold newBucketLocationCache. rewrite lookup_empty.
    reflexivity.
Qed.

Lemma untouched_refl (s : state) : untouched s s.
Proof. by repeat split. Qed.

Lemma untouched_trans (s1 s2 s3 : state) :
  untouched s1 s2 -> untouched s2 s3 -> untouched s1 s3.
Proof. intros (? & ? & ?) (? & ? & ?). repeat split; congruence. Qed.

Lemma cacheSame_refl (s : state) : cacheSame s s.
Proof. done. Qed.

Lemma cacheSame_trans (s1 s2 s3 : state) :
  cacheSame s1 s2 -> cacheSame s2 s3 -> cacheSame s1 s3.
Proof. unfold cacheSame. congruence. Qed.

Lemma frame_refl (bucket : string) (s : state) : frame bucket s s.
Proof. by split. Qed.

Lemma frame_trans (bucket : string) (s1 s2 s3 : state) :
  frame bucket s1 s2 -> frame bucket s2 s3 -> frame bucket s1 s3.
Proof.
  intros [F1 K1] [F2 K2]. split.
  - intros b Hb. by rewrite F2, F1.
  - intros b Hb. by apply K2, K1.
Qed.

Lemma cacheSame_frame (bucket : string) (s s' : state) :
  cacheSame s s' -> frame bucket s s'.
Proof. unfold cacheSame. intros H. split; intros b; by rewrite H. Qed.

Lemma untouched_cacheSame (s s' : state) : untouched s s' -> cacheSame s s'.
Proof. by intros (? & _). Qed.

(** One step of a proof that a computation preserves [R]; [prim] settles the
    calls that touch the state. *)
Ltac keeps_step R Hrefl Htrans prim :=
  lazymatch goal with
  | |- preserves R (mbind _ (lift _)) =>
      apply (preserves_bind_lift R Hrefl); intros ? ?
  | |- preserves R (mbind _ _) =>
      apply (preserves_bind R Htrans); [|intros ?]
  | |- preserves R (mret _) => apply (preserves_ret R Hrefl)
  | |- preserves R (fail _) => apply (preserves_fail R Hrefl)
  | |- preserves R (panic _) => apply (preserves_panic R Hrefl)
  | |- preserves R (lift _) => apply (preserves_lift R Hrefl)
  | |- preserves R now => apply (preserves_now R Hrefl)
  | |- preserves R get_endpointURL => apply (preserves_get_endpointURL R Hrefl)
  | |- preserves R (catch _) => apply (preserves_catch R)
  | |- preserves R (if ?b then _ else _) => destruct b eqn:?
  | |- preserves R (match ?x with _ => _ end) => destruct x eqn:?
  | |- _ => prim
  end.

Lemma cacheSame_credsGet : preserves cacheSame credsGet.
Proof. intros s. unfold credsGet. by destruct (credsProvider_Get (clock s)). Qed.

Lemma cacheSame_httpDo (req : Request) : preserves cacheSame (httpDo req).
Proof.
  intros s. unfold httpDo.
  by destruct (httpClient_Do (clock s) (endpointURL s) req).
Qed.

Lemma cacheSame_dump (req : Request) (resp : Response) :
  preserves cacheSame (dump req resp).
Proof. intros s. unfold dump. by destruct (dumpHTTP (clock s) req resp). Qed.

Ltac cacheSame_prim :=
  first [ apply cacheSame_credsGet | apply cacheSame_httpDo | apply cacheSame_dump ].

Ltac cacheSame_steps :=
  repeat keeps_step (@cacheSame) cacheSame_refl cacheSame_trans cacheSame_prim.

Lemma cacheSame_getBucketLocationRequest (c : Client) (bucketName : string) :
  preserves cacheSame (getBucketLocationRequest c bucketName).
Proof. unfold getBucketLocationRequest. cacheSame_steps. Qed.

Lemma cacheSame_do (c : Client) (req : Request) : preserves cacheSame (do c req).
Proof. unfold do. cacheSame_steps. Qed.

(** The ways [getBucketLocation] goes: the name is refused; the client has
    a region; the cache has an entry; or a request is made, and its answer
    is cached when it tells a region. *)
Lemma getBucketLocation_inv (c : Client) (bucketName : string) (s : state) :
  let out := getBucketLocation c bucketName s in
  (exists e, CheckValidBucketName bucketName = Some e /\ out = (Err e, s)) \/
  (CheckValidBucketName bucketName = None /\ region c <> "" /\
   out = (Ok (region c), s)) \/
  (CheckValidBucketName bucketName = None /\ region c = "" /\
   exists location, items s !! bucketName = Some location /\
                    out = (Ok location, s)) \/
  (CheckValidBucketName bucketName = None /\ region c = "" /\
   items s !! bucketName = None /\
   ((exists location, out.1 = Ok location /\ location <> "" /\
                      items out.2 = <[bucketName := location]> (items s) /\
                      events out.2 = EvCacheSet bucketName location
                                     :: tl (events out.2)) \/
    ((forall location, out.1 <> Ok location) /\ items out.2 = items s))).
Proof.
  intros out.
  assert (Hout : out = getBucketLocation c bucketName s) by reflexivity.
  clearbody out. unfold getBucketLocation in Hout.
  destruct (CheckValidBucketName bucketName) as [e|]; [left; by exists e|].
  right.
  destruct (String.eqb (region c) "") eqn:Er;
    [apply eqb_true in Er | apply eqb_false in Er; left; by repeat split].
  right. cbv beta iota delta [negb] in Hout.
  unfold mbind at 1, M_bind at 1, bucketLocCache_Get in Hout.
  cbv beta iota in Hout.
  destruct (items s !! bucketName) as [cached|] eqn:Hhit.
  - left. split; [done|]. split; [done|]. by exists cached.
  - right. split; [done|]. split; [done|]. split; [done|].
    unfold mbind, M_bind in Hout.
    pose proof (cacheSame_getBucketLocationRequest c bucketName s) as H1.
    destruct (getBucketLocationRequest c bucketName s) as [[req|e|w] s1];
      unfold cacheSame in H1; simpl in H1; try (right; by subst out).
    pose proof (cacheSame_do c req s1) as H2.
    destruct (do c req s1) as [[resp|e|w] s2];
      unfold cacheSame in H2; simpl in H2;
      try (right; subst out; split; [done | simpl; congruence]).
    unfold lift in Hout.
    destruct (processBucketLocationResponse (Some resp) bucketName)
      as [location|e|w] eqn:Hp;
      try (right; subst out; split; [done | simpl; congruence]).
    left. exists location. subst out. simpl.
    split; [done|]. split; [by apply processBucketLocationResponse_nonempty in Hp|].
    split; [by rewrite H2, H1 | done].
Qed.

(** A resolution that succeeded for a client without a region has left the
    region in the cache. *)
Lemma getBucketLocation_entry (c : Client) (bucketName location : string)
    (s s' : state) :
  getBucketLocation c bucketName s = (Ok location, s') ->
  region c = "" ->
  items s' !! bucketName = Some location.
Proof.
  intros H Hr.
  destruct (getBucketLocation_inv c bucketName s)
    as [(e & _ & He)|[(_ & Hr' & _)|[(_ & _ & loc & Hhit & Ho)
        |(_ & _ & _ & [(loc & Ho & _ & Hit & _)|[Hno _]])]]].
  - congruence.
  - done.
  - rewrite H in Ho. by injection Ho as -> ->.
  - rewrite H in Ho, Hit. simpl in Ho, Hit. injection Ho as ->.
    rewrite Hit. apply lookup_insert_eq.
  - rewrite H in Hno. by destruct (Hno location).
Qed.

(** X2: a resolution of the region of a bucket that succeeded is repeated
    without any call: the second resolution answers the same region and
    leaves the state as it is; and with no region set on the client, the
    first one has left the region in the cache. *)
Theorem getBucketLocation_cached (c : Client) (bucketName location : string)
    (s s' : state) :
  getBucketLocation c bucketName s = (Ok location, s') ->
  getBucketLocation c bucketName s' = (Ok location, s') /\
  (region c = "" -> items s' !! bucketName = Some location).
Proof.
  intros H. split; [|by apply getBucketLocation_entry with s].
  destruct (getBucketLocation_inv c bucketName s)
    as [(e & _ & He)|[(Hv & Hr & Ho)|[(Hv & Hr & loc & Hhit & Ho)
        |(Hv & Hr & Hmiss & _)]]].
  - congruence.
  - rewrite H in Ho. by injection Ho as -> ->.
  - rewrite H in Ho. by injection Ho as -> ->.
  - pose proof (getBucketLocation_entry c bucketName location s s' H Hr) as Hhit.
    unfold getBucketLocation. rewrite Hv.
    apply eqb_true in Hr. rewrite Hr. simpl.
    unfold mbind, M_bind, bucketLocCache_Get. by rewrite Hhit.
Qed.

Lemma frame_getBucketLocation (c : Client) (bucketName : string) :
  preserves (frame bucketName) (getBucketLocation c bucketName).
Proof.
  intros s.
  destruct (getBucketLocation_inv c bucketName s)
    as [(e & _ & ->)|[(_ & _ & ->)|[(_ & _ & loc & _ & ->)
        |(_ & _ & _ & [(loc & _ & _ & Hit & _)|[_ Hit]])]]];
    try apply frame_refl.
  - split; intros b Hb; rewrite Hit.
    + by rewrite lookup_insert_ne.
    + destruct (decide (bucketName = b)) as [->|Hne];
        [rewrite lookup_insert_eq; eauto | by rewrite lookup_insert_ne].
  - by apply cacheSame_frame.
Qed.

(** X3: a resolution that fails leaves the cache as it was: no entry is
    written for an error, whichever way the resolution failed. *)
Theorem getBucketLocation_failure_keeps_cache (c : Client) (bucketName : string)
    (s : state) :
  (forall location, (getBucketLocation c bucketName s).1 <> Ok location) ->
  items (getBucketLocation c bucketName s).2 = items s.
Proof.
  intros Hfail.
  destruct (getBucketLocation_inv c bucketName s)
    as [(e & _ & ->)|[(_ & _ & Ho)|[(_ & _ & loc & _ & Ho)
        |(_ & _ & _ & [(loc & Ho & _)|[_ Hit]])]]]; try done.
  - rewrite Ho in Hfail. by destruct (Hfail (region c)).
  - rewrite Ho in Hfail. by destruct (Hfail loc).
  - by destruct (Hfail loc).
Qed.

(** ** Only the entry of the bucket of the call *)

Lemma items_Set (bucketName location : string) (s : state) :
  items (bucketLocCache_Set bucketName location s).2
  = <[bucketName := location]> (items s).
Proof. reflexivity. Qed.

Lemma frame_Set (bucketName location : string) :
  preserves (frame bucketName) (bucketLocCache_Set bucketName location).
Proof.
  intros s. split; intros b Hb; rewrite items_Set.
  - by rewrite lookup_insert_ne.
  - destruct (decide (bucketName = b)) as [->|Hne];
      [rewrite lookup_insert_eq; eauto | by rewrite lookup_insert_ne].
Qed.

Lemma cacheSame_Get (bucketName : string) :
  preserves cacheSame (bucketLocCache_Get bucketName).
Proof. intros s. unfold bucketLocCache_Get. by destruct (items s !! bucketName). Qed.

Lemma cacheSame_seekStart : preserves cacheSame seekStart.
Proof. by intros s. Qed.

Lemma cacheSame_emit (e : event) : preserves cacheSame (emit e).
Proof. by intros s. Qed.

Lemma frame_of_cacheSame {A} (bucket : string) (m : M A) :
  preserves cacheSame m -> preserves (frame bucket) m.
Proof. intros H s. apply cacheSame_frame, H. Qed.

Ltac frame_prim :=
  first [ apply frame_getBucketLocation
        | apply frame_Set
        | apply frame_of_cacheSame;
          first [ apply cacheSame_credsGet | apply cacheSame_do
                | apply cacheSame_Get | apply cacheSame_seekStart
                | apply cacheSame_emit ] ].

Ltac frame_steps b :=
  repeat keeps_step (frame b) (frame_refl b) (frame_trans b) frame_prim.

Lemma frame_newRequest (c : Client) (method : string) (metadata : requestMetadata) :
  preserves (frame (bucketName metadata)) (newRequest c method metadata).
Proof.
  unfold newRequest, newRequestTarget, newRequestSign.
  frame_steps (bucketName metadata).
Qed.

Lemma frame_attempt (c : Client) (method : string) (metadata : requestMetadata)
    (isRetryable : bool) (l : locals) :
  preserves (frame (bucketName metadata)) (attempt c method metadata isRetryable l).
Proof.
  unfold attempt, attemptRequest, handleResponse, correctRegion.
  frame_steps (bucketName metadata); apply frame_newRequest.
Qed.

Lemma frame_retryLoop (c : Client) (method : string) (metadata : requestMetadata)
    (isRetryable : bool) (ticks : list nat) (l : locals) :
  preserves (frame (bucketName metadata))
            (retryLoop c method metadata isRetryable ticks l).
Proof.
  revert l. induction ticks as [|t ticks IH]; intros l; simpl.
  - apply (preserves_ret _ (frame_refl _)).
  - apply (preserves_bind _ (frame_trans _)); [apply frame_attempt|].
    intros [l'|l'|r e]; [apply IH | |]; apply (preserves_ret _ (frame_refl _)).
Qed.

(** X4: [newRequest], [GenUploadPartSignedUrl] and [executeMethod] leave the
    cached regions of all buckets but the one of the call as they are, and
    take no entry out of the cache. *)
Theorem calls_frame_cache (c : Client) (s : state) :
  (forall method metadata,
     frame (bucketName metadata) s (newRequest c method metadata s).2) /\
  (forall uploadID bucketName objectName partNumber size expires bucketLocation,
     frame bucketName s
       (GenUploadPartSignedUrl c uploadID bucketName objectName partNumber size
                               expires bucketLocation s).2) /\
  (forall method metadata,
     frame (bucketName metadata) s (executeMethod c method metadata s).2).
Proof.
  split; [|split].
  - intros method metadata. apply frame_newRequest.
  - intros uploadID bucketName objectName partNumber size expires bucketLocation.
    revert s. change (preserves (frame bucketName)
                        (GenUploadPartSignedUrl c uploadID bucketName objectName
                           partNumber size expires bucketLocation)).
    unfold GenUploadPartSignedUrl. frame_steps bucketName.
    apply (frame_newRequest c "PUT"
             (uploadPartMetadata uploadID bucketName objectName partNumber size
                                 expires bucketLocation)).
  - intros method metadata. unfold executeMethod.
    destruct (retryPlan (contentBody metadata)) as [isRetryable reqRetry].
    pose proof (frame_retryLoop c method metadata isRetryable
                  (newRetryTimer reqRetry) (mkLocals None None) s) as H.
    destruct (contentBody metadata) as [body|]; [|exact H].
    destruct (isCloser body); [|exact H].
    unfold defer. by destruct (retryLoop _ _ _ _ _ _ s).
Qed.

(** ** Calls that stay at home *)

Lemma untouched_credsGet : preserves untouched credsGet.
Proof. intros s. unfold credsGet. by destruct (credsProvider_Get (clock s)). Qed.

Lemma untouched_getBucketLocation (c : Client) (bucketName : string) :
  region c <> "" -> preserves untouched (getBucketLocation c bucketName).
Proof.
  intros Hr s.
  destruct (getBucketLocation_inv c bucketName s)
    as [(e & _ & ->)|[(_ & _ & ->)|[(_ & Hno & _)|(_ & Hno & _)]]];
    try apply untouched_refl; done.
Qed.

(** X5: with a location given for the call, with no bucket, or with a
    region set on the client, [newRequest] makes no transport call, writes
    nothing into the cache and leaves the endpoint alone; so does
    [GenUploadPartSignedUrl] with a location given or a region set: a URL is
    presigned without the network. *)
Theorem newRequest_stays_home (c : Client) (s : state) :
  (forall method metadata,
     bucketLocation metadata <> "" \/ bucketName metadata = "" \/ region c <> "" ->
     untouched s (newRequest c method metadata s).2) /\
  (forall uploadID bucketName objectName partNumber size expires bucketLocation,
     bucketLocation <> "" \/ region c <> "" ->
     untouched s (GenUploadPartSignedUrl c uploadID bucketName objectName
                    partNumber size expires bucketLocation s).2).
Proof.
  assert (Hnew : forall method metadata,
            bucketLocation metadata <> "" \/ bucketName metadata = ""
            \/ region c <> "" ->
            preserves untouched (newRequest c method metadata)).
  { intros method metadata H.
    unfold newRequest, newRequestTarget, newRequestSign.
    repeat keeps_step (@untouched) untouched_refl untouched_trans
      ltac:(first [ apply untouched_credsGet
                  | apply untouched_getBucketLocation;
                    repeat match goal with
                    | E : String.eqb _ _ = true |- _ => apply eqb_true in E
                    | E : negb (String.eqb _ _) = true |- _ =>
                        apply negb_true_iff, eqb_false in E
                    end; tauto ]). }
  split.
  - intros method metadata H. by apply Hnew.
  - intros uploadID bucketName objectName partNumber size expires bucketLocation H.
    revert s. change (preserves untouched
                        (GenUploadPartSignedUrl c uploadID bucketName objectName
                           partNumber size expires bucketLocation)).
    unfold GenUploadPartSignedUrl.
    repeat keeps_step (@untouched) untouched_refl untouched_trans
      ltac:(apply Hnew; simpl; tauto).
Qed.

(** ** The endpoints of Amazon S3 *)

(** X6: every region of the table of endpoints has a host of Amazon that
    names the region, and every other region gets the host of us-east-1. *)
Theorem getS3Endpoint_table (bucketLocation : string) :
  (forall host, awsS3EndpointMap !! bucketLocation = Some host ->
     getS3Endpoint bucketLocation = host /\
     strings_Contains host ("." +:+ bucketLocation +:+ ".amazonaws.com") = true) /\
  (awsS3EndpointMap !! bucketLocation = None ->
     getS3Endpoint bucketLocation = getS3Endpoint "us-east-1").
Proof.
  split.
  - intros host H. split; [unfold getS3Endpoint; by rewrite H|].
    unfold awsS3EndpointMap in H. apply elem_of_list_to_map_2 in H.
    repeat (apply elem_of_cons in H as [H|H];
            [injection H as -> ->; vm_compute; reflexivity|]).
    by apply elem_of_nil in H.
  - intros H. unfold getS3Endpoint at 1. by rewrite H.
Qed.

(** ** Target URLs *)

(** X7: without a bucket name, [makeTargetURL] leaves the object name, the
    addressing style and the accelerate endpoint out: the URL is the one of
    the host, followed by the query. *)
Theorem makeTargetURL_no_bucket (c : Client) (ep : URL)
    (objectName bucketLocation : string) (isVirtualHostStyle : bool)
    (queryValues : gmap string (list string)) :
  let host :=
    if IsAmazonEndpoint ep && negb (IsAmazonFIPSEndpoint ep)
    then getS3Endpoint bucketLocation else uHost ep in
  let urlStr := Scheme ep +:+ "://" +:+ stripDefaultPort (Scheme ep) host +:+ "/" in
  makeTargetURL c ep "" objectName bucketLocation isVirtualHostStyle queryValues
  = match url_Parse (if (0 <? Z.of_nat (size queryValues))%Z
                     then urlStr +:+ "?" +:+ QueryEncode queryValues
                     else urlStr) with
    | inl err => Err err
    | inr u => Ok u
    end.
Proof.
  unfold makeTargetURL, targetHost, targetURLString. simpl.
  rewrite andb_false_r.
  destruct (IsAmazonEndpoint ep); [|done].
  by destruct (IsAmazonFIPSEndpoint ep).
Qed.

(** X8: on an endpoint that is not one of Amazon, the target URL depends
    neither on the location of the bucket nor on the client, its accelerate
    endpoint included: it is what [url.Parse] makes of the URL string built
    on the scheme and the host of the endpoint, and the bucket name is not
    checked for transfer acceleration. *)
Theorem makeTargetURL_other_endpoint (c c' : Client) (ep : URL)
    (bucketName objectName bucketLocation bucketLocation' : string)
    (isVirtualHostStyle : bool) (queryValues : gmap string (list string)) :
  IsAmazonEndpoint ep = false ->
  makeTargetURL c ep bucketName objectName bucketLocation isVirtualHostStyle
                queryValues
  = makeTargetURL c' ep bucketName objectName bucketLocation' isVirtualHostStyle
                  queryValues /\
  makeTargetURL c ep bucketName objectName bucketLocation isVirtualHostStyle
                queryValues
  = match url_Parse (targetURLString (Scheme ep) (uHost ep) bucketName objectName
                       isVirtualHostStyle queryValues) with
    | inl err => Err err
    | inr u => Ok u
    end.
Proof. intros H. unfold makeTargetURL, targetHost. by rewrite H. Qed.

(** ** The region and the addressing style of a request *)

(** How [newRequest] comes to the location and the addressing style. *)
Lemma newRequestTarget_resolution (c : Client) (method : string)
    (metadata : requestMetadata) (s s1 : state) (location : string)
    (isVirtualHost : bool) (req : Request) :
  newRequestTarget c method metadata s = (Ok (location, isVirtualHost, req), s1) ->
  ((bucketLocation metadata <> "" /\ location = bucketLocation metadata /\ s1 = s) \/
   (bucketLocation metadata = "" /\ bucketName metadata = "" /\
    location = getDefaultLocation (endpointURL s) (region c) /\ s1 = s) \/
   (bucketLocation metadata = "" /\ bucketName metadata <> "" /\
    exists l, getBucketLocation c (bucketName metadata) s = (Ok l, s1) /\
              location = if l =? "" then getDefaultLocation (endpointURL s1) (region c)
                         else l)) /\
  isVirtualHost
  = isVirtualHostStyleRequest c (endpointURL s1) (bucketName metadata)
    && negb ((objectName metadata =? "") && (method =? "PUT")
             && (Z.of_nat (size (queryValues metadata)) =? 0)%Z).
Proof.
  unfold newRequestTarget. intros H.
  apply bind_inv_Ok in H as (loc & s2 & Hloc & H).
  apply bind_inv_Ok in H as (ep & s3 & Hep & H).
  injection Hep as <- <-.
  apply bind_inv_Ok in H as (targetURL & s4 & Hurl & H).
  unfold lift in Hurl. injection Hurl as Hurl <-.
  destruct (http_NewRequest method (URL_String targetURL)) as [e|req'];
    [discriminate|].
  injection H as <- <- <- <-. split; [|done].
  destruct (String.eqb (bucketLocation metadata) "") eqn:E1;
    [apply eqb_true in E1 | apply eqb_false in E1].
  - right. destruct (String.eqb (bucketName metadata) "") eqn:E2;
      [apply eqb_true in E2 | apply eqb_false in E2]; simpl in Hloc.
    + left. rewrite E1 in Hloc. simpl in Hloc.
      unfold mbind, M_bind, mret, M_ret, get_endpointURL in Hloc. simpl in Hloc.
      injection Hloc as <- <-. done.
    + right. split; [done|]. split; [done|].
      apply bind_inv_Ok in Hloc as (l & s5 & Hl & Hloc).
      exists l. destruct (String.eqb l "") eqn:E3.
      * unfold mbind, M_bind, get_endpointURL, mret, M_ret in Hloc.
        injection Hloc as <- <-. done.
      * injection Hloc as <- <-. done.
  - left. injection Hloc as <- <-. done.
Qed.

(** X9: the location of a request is the one given for the call when there
    is one, and then nothing is looked up or fetched; without it and without
    a bucket it is the default location of the endpoint; otherwise it is
    what [getBucketLocation] answers. *)
Theorem newRequest_location (c : Client) (method : string)
    (metadata : requestMetadata) (s s1 : state) (location : string)
    (isVirtualHost : bool) (req : Request) :
  newRequestTarget c method metadata s = (Ok (location, isVirtualHost, req), s1) ->
  (bucketLocation metadata <> "" ->
   location = bucketLocation metadata /\ s1 = s) /\
  (bucketLocation metadata = "" -> bucketName metadata = "" ->
   location = getDefaultLocation (endpointURL s) (region c) /\ s1 = s) /\
  (bucketLocation metadata = "" -> bucketName metadata <> "" ->
   exists l, getBucketLocation c (bucketName metadata) s = (Ok l, s1) /\
             (l <> "" -> location = l)).
Proof.
  intros H. apply newRequestTarget_resolution in H as [H _].
  destruct H as [(H1 & -> & ->)|[(H1 & H2 & -> & ->)|(H1 & H2 & l & Hl & ->)]];
    repeat split; try done.
  intros _ _. exists l. split; [done|]. intros Hne. apply eqb_false in Hne.
  by rewrite Hne.
Qed.

(** X10: a request to make a bucket (PUT with no object name and no query
    values) is never in virtual-host style, whatever the lookup of the client;
    neither is a request without a bucket; any other request is in the style
    [isVirtualHostStyleRequest] tells. *)
Theorem newRequest_style (c : Client) (method : string)
    (metadata : requestMetadata) (s s1 : state) (location : string)
    (isVirtualHost : bool) (req : Request) :
  newRequestTarget c method metadata s = (Ok (location, isVirtualHost, req), s1) ->
  (method = "PUT" -> objectName metadata = "" -> queryValues metadata = ∅ ->
   isVirtualHost = false) /\
  (bucketName metadata = "" -> isVirtualHost = false) /\
  (objectName metadata <> "" ->
   isVirtualHost
   = isVirtualHostStyleRequest c (endpointURL s1) (bucketName metadata)) /\
  (objectName metadata <> "" -> bucketName metadata <> "" ->
   lookup c = BucketLookupDNS -> isVirtualHost = true).
Proof.
  intros H. apply newRequestTarget_resolution in H as [_ ->].
  split; [|split; [|split]].
  - intros -> -> ->. rewrite map_size_empty. simpl. apply andb_false_r.
  - intros ->. reflexivity.
  - intros Ho. apply eqb_false in Ho. rewrite Ho. simpl. apply andb_true_r.
  - intros Ho Hb Hl. apply eqb_false in Ho. apply eqb_false in Hb.
    rewrite Ho. unfold isVirtualHostStyleRequest. by rewrite Hb, Hl.
Qed.

(** ** The headers of the caller *)

(** What holds of the headers while [setCustomHeaders] folds over the custom
    headers [m] seen so far, starting from [h]. *)
Lemma setCustomHeaders_fold (customHeader h : gmap string (list string)) :
  match setCustomHeaders customHeader h with
  | Panic _ => exists k, customHeader !! k = Some []
  | Err _ => False
  | Ok h' =>
      (forall k v, customHeader !! k = Some v -> v <> []) /\
      (forall k v, customHeader !! k = Some v ->
         exists v0, h' !! CanonicalHeaderKey k = Some [v0]) /\
      (forall j, (forall k, is_Some (customHeader !! k) -> CanonicalHeaderKey k <> j) ->
         h' !! j = h !! j) /\
      ((forall k k', is_Some (customHeader !! k) -> is_Some (customHeader !! k') ->
          CanonicalHeaderKey k = CanonicalHeaderKey k' -> k = k') ->
       forall k v0 vs, customHeader !! k = Some (v0 :: vs) ->
         h' !! CanonicalHeaderKey k = Some [v0])
  end.
Proof.
  unfold setCustomHeaders.
  apply (map_fold_weak_ind
           (fun acc m =>
              match acc with
              | Panic _ => exists k, m !! k = Some []
              | Err _ => False
              | Ok h' =>
                  (forall k v, m !! k = Some v -> v <> []) /\
                  (forall k v, m !! k = Some v ->
                     exists v0, h' !! CanonicalHeaderKey k = Some [v0]) /\
                  (forall j, (forall k, is_Some (m !! k) -> CanonicalHeaderKey k <> j) ->
                     h' !! j = h !! j) /\
                  ((forall k k', is_Some (m !! k) -> is_Some (m !! k') ->
                      CanonicalHeaderKey k = CanonicalHeaderKey k' -> k = k') ->
                   forall k v0 vs, m !! k = Some (v0 :: vs) ->
                     h' !! CanonicalHeaderKey k = Some [v0])
              end)).
  - repeat split; intros *; rewrite ?lookup_empty; done.
  - intros i x m acc Hfresh IH. destruct acc as [h'| |why]; [|done|].
    + destruct IH as (Hne & Hset & Hkeep & Hfirst).
      destruct x as [|v0 vs].
      * exists i. apply lookup_insert_eq.
      * split; [|split; [|split]].
        -- intros k v. destruct (decide (i = k)) as [<-|Hik].
           ++ rewrite lookup_insert_eq. by intros [= <-].
           ++ rewrite lookup_insert_ne by done. apply Hne.
        -- intros k v. unfold Header_Set.
           destruct (decide (CanonicalHeaderKey i = CanonicalHeaderKey k)) as [->|Hc].
           ++ intros _. exists v0. apply lookup_insert_eq.
           ++ assert (i <> k) by congruence.
              rewrite !lookup_insert_ne by done. apply Hset.
        -- intros j Hj. unfold Header_Set. rewrite lookup_insert_ne.
           ++ apply Hkeep. intros k Hk. apply Hj.
              destruct (decide (i = k)) as [<-|Hik];
                [rewrite lookup_insert_eq; eauto | by rewrite lookup_insert_ne].
           ++ apply Hj. rewrite lookup_insert_eq. eauto.
        -- intros Hinj k w0 ws. unfold Header_Set.
           destruct (decide (i = k)) as [<-|Hik].
           ++ rewrite !lookup_insert_eq. by intros [= <- <-].
           ++ rewrite lookup_insert_ne by done. intros Hk.
              rewrite lookup_insert_ne.
              ** apply Hfirst with ws; [|done]. intros k1 k2 H1 H2.
                 apply Hinj.
                 --- destruct (decide (i = k1)) as [<-|?];
                       [rewrite lookup_insert_eq; eauto | by rewrite lookup_insert_ne].
                 --- destruct (decide (i = k2)) as [<-|?];
                       [rewrite lookup_insert_eq; eauto | by rewrite lookup_insert_ne].
              ** intros Hc. apply Hik, Hinj; [| |done].
                 --- rewrite lookup_insert_eq. eauto.
                 --- rewrite lookup_insert_ne by done. eauto.
    + destruct IH as [k Hk]. exists k.
      rewrite lookup_insert_ne; [done|]. intros ->. congruence.
Qed.

(** X11: putting the custom headers on a request panics exactly when one of
    them has no value; otherwise every custom header sets its canonical key
    to a single value, its first one when no two custom headers have the same
    canonical key, and the other keys of the request are as before. *)
Theorem setCustomHeaders_spec (customHeader h : gmap string (list string)) :
  ((exists k, customHeader !! k = Some []) <->
   exists why, setCustomHeaders customHeader h = Panic why) /\
  ((forall k v, customHeader !! k = Some v -> v <> []) ->
   exists h',
     setCustomHeaders customHeader h = Ok h' /\
     (forall k v, customHeader !! k = Some v ->
        exists v0, h' !! CanonicalHeaderKey k = Some [v0]) /\
     (forall j, (forall k, is_Some (customHeader !! k) -> CanonicalHeaderKey k <> j) ->
        h' !! j = h !! j) /\
     ((forall k k', is_Some (customHeader !! k) -> is_Some (customHeader !! k') ->
         CanonicalHeaderKey k = CanonicalHeaderKey k' -> k = k') ->
      forall k v0 vs, customHeader !! k = Some (v0 :: vs) ->
        h' !! CanonicalHeaderKey k = Some [v0])).
Proof.
  pose proof (setCustomHeaders_fold customHeader h) as H.
  destruct (setCustomHeaders customHeader h) as [h'| |why]; [|done|].
  - destruct H as (Hne & Hrest). split.
    + split; [intros [k Hk]; by destruct (Hne k [] Hk) | intros [why Hw]; done].
    + intros _. by exists h'.
  - split.
    + split; [intros _; by exists why | done].
    + intros Hne. destruct H as [k Hk]. by destruct (Hne k [] Hk).
Qed.

(** ** Anonymous credentials *)

(** X12: when the provider says anonymous, [newRequest] signs nothing,
    whatever signer type the client overrides with: a request to presign with
    an expiry is refused, and any other request is the bare request with the
    user agent, the custom headers, the body, the length and the MD5 sum put
    on it, and no more. *)
Theorem newRequest_anonymous (c : Client) (method : string)
    (metadata : requestMetadata) (s s1 : state) (location : string)
    (isVirtualHost : bool) (req : Request) (value : Value SignatureType) :
  SignatureType_eqb SignatureAnonymous SignatureAnonymous = true ->
  IsAnonymous SignatureAnonymous = true ->
  newRequestTarget c (methodOrPOST method) metadata s
    = (Ok (location, isVirtualHost, req), s1) ->
  credsProvider_Get (clock s1) = inr value ->
  SignerType value = SignatureAnonymous ->
  (presignURL metadata = true -> expires metadata <> 0%Z ->
   newRequest c method metadata s
     = (Err (ErrInvalidArgument
               "Presigned URLs cannot be generated with anonymous credentials."),
        tick s1)) /\
  (presignURL metadata = false \/ expires metadata = 0%Z ->
   forall h,
     setCustomHeaders (customHeader metadata) (Header (setUserAgent c req)) = Ok h ->
     newRequest c method metadata s
       = (Ok (mkRequest (Method req) (rURL req) (Host req)
                (if (0 <? Z.of_nat (String.length (contentMD5Base64 metadata)))%Z
                 then Header_Set h "Content-Md5" (contentMD5Base64 metadata)
                 else h)
                (if (contentLength metadata =? 0)%Z then None
                 else contentBody metadata)
                (contentLength metadata)
                (if (contentLength metadata <=? -1)%Z then ["chunked"]
                 else TransferEncoding req)),
          tick s1)).
Proof.
  intros Heqb Hanon Ht Hc Hsig.
  assert (Heff : IsAnonymous (effectiveSignerType c value) = true).
  { unfold effectiveSignerType. by rewrite Hsig, Heqb. }
  rewrite (newRequest_run c method metadata s s1 location isVirtualHost req value
             Ht Hc).
  unfold newRequestSign. unfold mbind, M_bind, now. rewrite Heff. split.
  - intros Hp He. apply Z.eqb_neq in He. by rewrite He, Hp.
  - intros Hplain h Hh.
    assert (Hcond : negb (expires metadata =? 0)%Z && presignURL metadata = false).
    { destruct Hplain as [->| ->]; [apply andb_false_r | done]. }
    rewrite Hcond. unfold lift. rewrite Hh. simpl.
    by destruct (0 <? Z.of_nat (String.length (contentMD5Base64 metadata)))%Z.
Qed.

(** ** The transport *)

(** X13: [do] answers a response only when the transport gave that response
    and no error; an error of the transport always fails it, an error at the
    end of the input with its text made a call to retry and its operation and
    URL kept; and no response with no error fails it too. *)
Theorem do_answers (c : Client) (req : Request) (s : state) :
  let answer := (httpClient_Do (clock s) (endpointURL s) req).1 in
  (forall resp s', do c req s = (Ok resp, s') -> answer = (Some resp, None)) /\
  (forall resp op u text,
     answer = (resp, Some (ErrURL op u text)) ->
     (do c req s).1
     = Err (ErrURL op u
              (if strings_Contains text "EOF"
               then "Connection closed by foreign host " +:+ u +:+ ". Retry again."
               else text))) /\
  (forall resp err,
     answer = (resp, Some err) -> exists err', (do c req s).1 = Err err') /\
  (answer = (None, None) ->
   (do c req s).1 = Err (ErrInvalidArgument ("Response is empty. " +:+ reportIssue))).
Proof.
  unfold do, mbind, M_bind, httpDo.
  destruct (httpClient_Do (clock s) (endpointURL s) req) as [[resp err] u].
  simpl. split; [|split; [|split]].
  - intros resp' s'. destruct err as [[]|]; try done.
    + by destruct (strings_Contains _ _).
    + destruct resp as [r|]; [|done].
      destruct (isTraceEnabled c && _).
      * unfold dump. destruct (dumpHTTP _ _ _); [done|]. by intros [= -> _].
      * by intros [= -> _].
  - intros resp' op u' text [= -> ->]. by destruct (strings_Contains text "EOF").
  - intros resp' err' [= -> ->]. destruct err' as [| |e|]; try by eexists.
    destruct (strings_Contains _ _); by eexists.
  - by intros [= -> ->].
Qed.

(** ** How the loop ends *)

Lemma handleResponse_failure (c : Client) (metadata : requestMetadata)
    (r : Response) (errBodyBytes : string) (s : state) :
  ~ In (StatusCode r) successStatus ->
  respBody r = BodyBytes errBodyBytes ->
  exists l' s',
    l' = mkLocals (Some r) None /\
    (handleResponse c metadata r s = (Ok (Continue l'), s') \/
     handleResponse c metadata r s = (Ok (Break l'), s')).
Proof.
  intros Hstatus Hbody. unfold handleResponse.
  assert (Hnot : existsb (fun httpStatus => (httpStatus =? StatusCode r)%Z)
                   successStatus = false).
  { apply not_true_is_false. intros H. apply existsb_exists in H as (x & Hin & Hx).
    apply Z.eqb_eq in Hx. by subst x. }
  rewrite Hnot, Hbody.
  replace (mkResponse (StatusCode r) (Status r) (respHeader r)
                      (BodyBytes errBodyBytes)) with r
    by (destruct r; simpl in *; by subst).
  unfold mbind, M_bind.
  destruct (correctRegion_spec c metadata
              (ToErrorResponse (httpRespToErrorResponse (Some r) (bucketName metadata)
                                                        (objectName metadata))) s)
    as [[_ ->]|[_ ->]].
  - eexists _, _. split; [done|]. by left.
  - destruct (isS3CodeRetryable _); [eexists _, _; split; [done|]; by left|].
    destruct (isHTTPStatusRetryable _); eexists _, _; (split; [done|]);
      [by left | by right].
Qed.

(** X14: an answer of status 200, 204 or 206 ends the loop at once, however
    many attempts are left: the call answers that response and no error, and
    the state is the one [do] left. *)
Theorem success_ends_loop (c : Client) (method : string) (metadata : requestMetadata)
    (isRetryable : bool) (t : nat) (ticks : list nat) (l : locals)
    (s s1 s2 : state) (req : Request) (r : Response) :
  (isRetryable = true -> bodySeeker_Seek (clock s) = None) ->
  newRequest c method metadata (attemptStart isRetryable s) = (Ok req, s1) ->
  do c req s1 = (Ok r, s2) ->
  In (StatusCode r) successStatus ->
  retryLoop c method metadata isRetryable (t :: ticks) l s
  = (Ok (Some r, None), s2).
Proof.
  intros Hseek Hn Hd Hin.
  rewrite retryLoop_cons, (attempt_run _ _ _ _ _ _ Hseek).
  rewrite (attemptRequest_response _ _ _ _ _ _ _ _ _ Hn Hd).
  unfold handleResponse.
  assert (Hyes : existsb (fun httpStatus => (httpStatus =? StatusCode r)%Z)
                   successStatus = true).
  { apply existsb_exists. exists (StatusCode r). split; [done | apply Z.eqb_refl]. }
  by rewrite Hyes.
Qed.

(** X15: when the last attempt of the budget gets an answer that is not a
    success and whose body can be read, the call answers that response with
    no error, retryable or not: the caller has to look at the status. *)
Theorem failure_answer_without_error (c : Client) (method : string)
    (metadata : requestMetadata) (isRetryable : bool) (t : nat) (l : locals)
    (s s1 s2 : state) (req : Request) (r : Response) (errBodyBytes : string) :
  (isRetryable = true -> bodySeeker_Seek (clock s) = None) ->
  newRequest c method metadata (attemptStart isRetryable s) = (Ok req, s1) ->
  do c req s1 = (Ok r, s2) ->
  ~ In (StatusCode r) successStatus ->
  respBody r = BodyBytes errBodyBytes ->
  (retryLoop c method metadata isRetryable [t] l s).1 = Ok (Some r, None).
Proof.
  intros Hseek Hn Hd Hstatus Hbody.
  rewrite retryLoop_cons, (attempt_run _ _ _ _ _ _ Hseek).
  rewrite (attemptRequest_response _ _ _ _ _ _ _ _ _ Hn Hd).
  destruct (handleResponse_failure c metadata r errBodyBytes s2 Hstatus Hbody)
    as (l' & s' & -> & [-> | ->]); reflexivity.
Qed.

(** X16: an error that is not retryable ends the call at once, with that
    error and no response, however many attempts are left: an error of
    [newRequest] whose code is not retryable, an error of [do] that is not
    retryable, and any error reading the body of an answer that is not a
    success.  A retryable error of [newRequest] on the last attempt is
    answered together with the response an earlier attempt left. *)
Theorem error_ends_loop (c : Client) (method : string) (metadata : requestMetadata)
    (isRetryable : bool) (t : nat) (ticks : list nat) (l : locals) (s : state) :
  (isRetryable = true -> bodySeeker_Seek (clock s) = None) ->
  (forall e s1,
     newRequest c method metadata (attemptStart isRetryable s) = (Err e, s1) ->
     (isS3CodeRetryable (Code (ToErrorResponse e)) = false ->
      retryLoop c method metadata isRetryable (t :: ticks) l s
      = (Ok (None, Some e), s1)) /\
     (isS3CodeRetryable (Code (ToErrorResponse e)) = true ->
      retryLoop c method metadata isRetryable [t] l s
      = (Ok (res l, Some e), s1))) /\
  (forall req s1 e s2,
     newRequest c method metadata (attemptStart isRetryable s) = (Ok req, s1) ->
     do c req s1 = (Err e, s2) ->
     isHTTPReqErrorRetryable e = false ->
     retryLoop c method metadata isRetryable (t :: ticks) l s
     = (Ok (None, Some e), s2)) /\
  (forall req s1 r s2 e,
     newRequest c method metadata (attemptStart isRetryable s) = (Ok req, s1) ->
     do c req s1 = (Ok r, s2) ->
     ~ In (StatusCode r) successStatus ->
     respBody r = BodyFails e ->
     retryLoop c method metadata isRetryable (t :: ticks) l s
     = (Ok (None, Some e), s2)).
Proof.
  intros Hseek. split; [|split].
  - intros e s1 Hn. split; intros Hr;
      rewrite retryLoop_cons, (attempt_run _ _ _ _ _ _ Hseek);
      unfold attemptRequest, mbind, M_bind, catch; by rewrite Hn, Hr.
  - intros req s1 e s2 Hn Hd Hr.
    rewrite retryLoop_cons, (attempt_run _ _ _ _ _ _ Hseek).
    unfold attemptRequest, mbind, M_bind, catch. by rewrite Hn, Hd, Hr.
  - intros req s1 r s2 e Hn Hd Hstatus Hbody.
    rewrite retryLoop_cons, (attempt_run _ _ _ _ _ _ Hseek).
    rewrite (attemptRequest_response _ _ _ _ _ _ _ _ _ Hn Hd).
    unfold handleResponse.
    assert (Hnot : existsb (fun httpStatus => (httpStatus =? StatusCode r)%Z)
                     successStatus = false).
    { apply not_true_is_false. intros H. apply existsb_exists in H as (x & Hin & Hx).
      apply Z.eqb_eq in Hx. by subst x. }
    by rewrite Hnot, Hbody.
Qed.

(** X17: after the region of a bucket was corrected, the resolution of the
    region of that bucket answers the corrected region from the cache,
    without a call. *)
Theorem corrected_region_resolved (c : Client) (metadata : requestMetadata)
    (errResponse : ErrorResponse) (s : state) :
  regionMismatch c metadata errResponse s ->
  CheckValidBucketName (bucketName metadata) = None ->
  getBucketLocation c (bucketName metadata) (correctedState metadata errResponse s)
  = (Ok (Region errResponse), correctedState metadata errResponse s).
Proof.
  intros (_ & Hr & _) Hv. unfold getBucketLocation. rewrite Hv, Hr. simpl.
  unfold mbind, M_bind, bucketLocCache_Get, correctedState. simpl items.
  by rewrite lookup_insert_eq.
Qed.

(** ** Redirects that need no new signature *)

(** When [copyHeaders] asks for a new signature. *)
Lemma copyHeaders_reAuth (req lastRequest : Request) :
  (copyHeaders req lastRequest).1 = true <->
  Host req <> Host lastRequest /\
  is_Some (Header lastRequest !! "Authorization").
Proof.
  rewrite copyHeaders_spec. simpl.
  unfold hasAuthorization. rewrite andb_true_iff, negb_true_iff, eqb_false.
  destruct (Header lastRequest !! "Authorization") as [v|].
  - split; [intros [H _]; split; [done | eauto] | by intros [H _]].
  - split; [by intros [_ H] | by intros [_ [v H]]].
Qed.

(** X18: the redirect hook never replaces a header the new request has; a
    header the new request has not is taken from the last request, but
    [Authorization] when the hosts differ; and a new signature is asked for
    exactly when the hosts differ and the last request had an
    [Authorization] header. *)
Theorem copyHeaders_lookup (req lastRequest : Request) (k : string) :
  (copyHeaders req lastRequest).2 !! k
  = match Header req !! k with
    | Some v => Some v
    | None =>
        if (k =? "Authorization") && (Host req ≠? Host lastRequest) then None
        else Header lastRequest !! k
    end /\
  ((copyHeaders req lastRequest).1 = true <->
   Host req <> Host lastRequest /\
   is_Some (Header lastRequest !! "Authorization")).
Proof.
  split; [|apply copyHeaders_reAuth].
  rewrite copyHeaders_spec. simpl.
  - rewrite lookup_union. unfold copied.
    destruct (Header req !! k) as [v|] eqn:Hk.
    + destruct (Host req ≠? Host lastRequest);
        [by destruct (delete "Authorization" (Header lastRequest) !! k)
        | by destruct (Header lastRequest !! k)].
    + rewrite (left_id_L None union).
      destruct (String.eqb k "Authorization") eqn:Ek;
        [apply eqb_true in Ek; subst k | apply eqb_false in Ek]; simpl.
      * destruct (Host req ≠? Host lastRequest); [apply lookup_delete_eq | done].
      * destruct (Host req ≠? Host lastRequest); [by rewrite lookup_delete_ne | done].
Qed.

(** X19: without a request before it the hook leaves the new request and the
    state alone.  When the last request was for the same host, or had no
    [Authorization] header, the hook signs nothing and fails for no signer
    type: it answers the new request with the headers copied, once the
    provider has answered; when the provider fails, its error is the answer.
    Either way the endpoint of the client is then the URL of the new
    request. *)
Theorem redirectHeaders_copies (c : Client) (req : Request) (via : list Request)
    (s : state) :
  redirectHeaders c req [] s = (Ok req, s) /\
  (forall lastRequest,
     (length via < 5)%nat ->
     last via = Some lastRequest ->
     let s1 := tick (mkState (rURL req) (items s) (clock s) (events s)) in
     (forall value,
        Host req = Host lastRequest \/ Header lastRequest !! "Authorization" = None ->
        credsProvider_Get (clock s) = inr value ->
        redirectHeaders c req via s
        = (Ok (withHeader req (copyHeaders req lastRequest).2), s1)) /\
     (forall e,
        credsProvider_Get (clock s) = inl e ->
        redirectHeaders c req via s = (Err e, s1))).
Proof.
  split; [reflexivity|].
  intros lastRequest Hlen Hlast s1.
  assert (H5 : (5 <=? Z.of_nat (length via))%Z = false) by (apply Z.leb_gt; lia).
  split.
  - intros value Hsame Hcreds.
    assert (Hflag : (copyHeaders req lastRequest).1 = false).
    { apply not_true_is_false. intros Ht.
      apply copyHeaders_reAuth in Ht as [Hh [v Hv]].
      destruct Hsame; congruence. }
    unfold redirectHeaders. rewrite H5, Hlast.
    destruct (copyHeaders req lastRequest) as [reAuth h]. simpl in Hflag. subst reAuth.
    unfold mbind, M_bind, set_endpointURL, credsGet. simpl. by rewrite Hcreds.
  - intros e Hcreds. unfold redirectHeaders. rewrite H5, Hlast.
    destruct (copyHeaders req lastRequest) as [reAuth h].
    unfold mbind, M_bind, set_endpointURL, credsGet. simpl. by rewrite Hcreds.
Qed.

(** ** The request for the location of a bucket *)

(** X20: the request for the location of a bucket depends on the client
    only by its signer type override, its application and its secure flag,
    and on what the client shares only by the endpoint URL and by the time
    of the call: the region, the lookup, the accelerate endpoint and the
    tracing of the client and the cache have no part in it. *)
Theorem getBucketLocationRequest_plain (c c' : Client) (bucketName : string)
    (s s' : state) :
  overrideSignerType c = overrideSignerType c' ->
  appName c = appName c' ->
  appVersion c = appVersion c' ->
  secure c = secure c' ->
  endpointURL s = endpointURL s' ->
  clock s = clock s' ->
  (getBucketLocationRequest c bucketName s).1
  = (getBucketLocationRequest c' bucketName s').1.
Proof.
  intros Ho Ha Hv Hs Hurl Hclock.
  unfold getBucketLocationRequest, setUserAgent, effectiveSignerType.
  unfold mbind, M_bind, get_endpointURL. cbv beta iota.
  rewrite Ho, Ha, Hv, Hs, Hurl.
  destruct (http_NewRequest _ _) as [e|req]; [reflexivity|].
  unfold credsGet, now. rewrite Hclock.
  destruct (credsProvider_Get (clock s')) as [e|value]; [reflexivity|].
  cbn [tick clock fst snd]. rewrite Hclock.
  repeat match goal with |- context [if ?b then _ else _] => destruct b end;
    reflexivity.
Qed.

(** ** The body is closed once *)

Lemma closes_app (a b : list event) : closes (a ++ b) = (closes a + closes b)%nat.
Proof. induction a as [|[] a IH]; simpl; lia. Qed.

Lemma closes_rev (a : list event) : closes (rev a) = closes a.
Proof.
  induction a as [|e a IH]; [done|]. simpl. rewrite closes_app, IH.
  destruct e; simpl; lia.
Qed.

Lemma attemptsTrace_closes (seek : bool) (n : nat) (chrono : list event) :
  attemptsTrace seek n chrono -> closes chrono = 0%nat.
Proof.
  induction 1 as [n|n _|n calls rest Hq _ IH]; [done..|].
  rewrite closes_app. simpl. rewrite closes_app, IH.
  assert (closes calls = 0%nat) as ->.
  { clear -Hq. induction Hq as [|[] calls Hq _ IH]; simpl in *; done. }
  by destruct seek.
Qed.

(** X21: [executeMethod] closes a body that can be closed exactly once, and
    does so last, after all attempts, whether the call succeeds, fails or
    panics; a body that cannot be closed, or no body, is never closed. *)
Theorem executeMethod_closes_body (c : Client) (method : string)
    (metadata : requestMetadata) (s : state) :
  let evs := events (executeMethod c method metadata s).2 in
  match contentBody metadata with
  | Some body =>
      if isCloser body
      then closes evs = S (closes (events s)) /\ head evs = Some EvClose
      else closes evs = closes (events s)
  | None => closes evs = closes (events s)
  end.
Proof.
  intros evs. subst evs. rewrite executeMethod_events.
  destruct (retryLoop_trace c method metadata (retryPlan (contentBody metadata)).1
              (newRetryTimer (retryPlan (contentBody metadata)).2)
              (mkLocals None None) s) as (chrono & -> & Htr & _).
  apply attemptsTrace_closes in Htr.
  unfold closeEvents.
  destruct (contentBody metadata) as [body|];
    [destruct (isCloser body)|]; simpl;
    rewrite closes_app, closes_rev, Htr; done.
Qed.

(** ** The entry the correction asks for *)

Lemma cacheSame_newRequestSign (c : Client) (method : string)
    (metadata : requestMetadata) (location : string) (isVirtualHost : bool)
    (req : Request) (value : Value SignatureType) :
  preserves cacheSame
    (newRequestSign c method metadata location isVirtualHost req value).
Proof. unfold newRequestSign. cacheSame_steps. Qed.

(** X22: in the loop, a call without a location of its own, by a client
    without a region, for a bucket, has the region of its bucket in the cache
    once [newRequest] has succeeded, and still when [do] is back: the entry
    the region correction asks for is always there. *)
Theorem correction_entry_present (c : Client) (method : string)
    (metadata : requestMetadata) (s s1 : state) (req : Request) :
  newRequest c method metadata s = (Ok req, s1) ->
  bucketLocation metadata = "" ->
  region c = "" ->
  bucketName metadata <> "" ->
  is_Some (items s1 !! bucketName metadata) /\
  is_Some (items (do c req s1).2 !! bucketName metadata).
Proof.
  intros Hn Hl Hr Hb. unfold newRequest in Hn.
  apply bind_inv_Ok in Hn as ([[location isVirtualHost] req0] & sa & Ht & Hn).
  apply bind_inv_Ok in Hn as (value & sb & Hc & Hn).
  apply newRequestTarget_resolution in Ht as [[(H & _)|[(_ & H & _)|(_ & _ & l & Hg & _)]] _];
    try done.
  apply getBucketLocation_entry in Hg; [|done].
  pose proof (cacheSame_credsGet sa) as H1. rewrite Hc in H1.
  pose proof (cacheSame_newRequestSign c (if method =? "" then "POST" else method)
                metadata location isVirtualHost req0 value sb) as H2.
  rewrite Hn in H2.
  pose proof (cacheSame_do c req s1) as H3.
  unfold cacheSame in *. simpl in *. rewrite H3, H2, H1, Hg. split; eauto.
Qed.

End More.

(** ** A new client *)

Section MoreMaking.

Context `{Ext : External} {W : World} {Con : Construction}.

(** X23: [New] fails with the error of [getEndpointURL] when the endpoint
    is refused, and answers a client only when the cookie jar and the
    transport were made without an error.  A client it answers has a new
    cache, where no entry is empty, and the region its endpoint URL tells;
    its signer type override is V4 on an endpoint of Amazon, V2 on an
    endpoint of Google that is not one of Amazon, and the default otherwise;
    and when the URL tells a region, the client resolves every valid bucket
    name to it and makes no call. *)
Theorem New_client (endpoint accessKeyID secretAccessKey : string) (secure : bool) :
  (forall e, getEndpointURL endpoint secure = inl e ->
     New endpoint accessKeyID secretAccessKey secure = Err e) /\
  (forall clnt st,
     New endpoint accessKeyID secretAccessKey secure = Ok (clnt, st) ->
     getEndpointURL endpoint secure = inr (endpointURL st) /\
     cookiejar_New = None /\
     DefaultTransport secure = None /\
     items st = newBucketLocationCache /\
     nonEmptyCache st /\
     region clnt = GetRegionFromURL (endpointURL st) /\
     overrideSignerType clnt
       = (if IsAmazonEndpoint (endpointURL st) then SignatureV4
          else if IsGoogleEndpoint (endpointURL st) then SignatureV2
          else SignatureDefault) /\
     (forall bucketName,
        GetRegionFromURL (endpointURL st) <> "" ->
        CheckValidBucketName bucketName = None ->
        getBucketLocation clnt bucketName st
        = (Ok (GetRegionFromURL (endpointURL st)), st))).
Proof.
  unfold New, privateNew. split.
  - by intros e ->.
  - intros clnt st.
    destruct (getEndpointURL endpoint secure) as [e|u]; [done|].
    destruct cookiejar_New; [done|].
    destruct (DefaultTransport secure); [done|].
    cbn [endpointURL]. intros H. injection H as <- <-. cbn [endpointURL items].
    split; [done|]. split; [done|]. split; [done|]. split; [done|].
    split; [apply map_Forall_empty|].
    split; [by destruct (IsGoogleEndpoint u), (IsAmazonEndpoint u)|].
    split; [by destruct (IsGoogleEndpoint u), (IsAmazonEndpoint u)|].
    intros bucketName Hr Hv. unfold getBucketLocation. rewrite Hv.
    apply eqb_false in Hr.
    by destruct (IsGoogleEndpoint u), (IsAmazonEndpoint u); simpl; rewrite Hr.
Qed.

End MoreMaking.

(** ** Runs of the further properties on the stand-in *)

Import Scenes.

Lemma bucketLocCache_Set_Get_witness :
  "other-bucket" <> "my-bucket" /\
  (bucketLocCache_Get "other-bucket"
     (bucketLocCache_Set "my-bucket" "eu-west-1" cached).2).1
  = (bucketLocCache_Get "other-bucket" cached).1.
Proof.
  assert (H : "other-bucket" <> "my-bucket") by discriminate.
  split; [exact H|].
  exact (proj1 (proj2 (bucketLocCache_Set_Get "my-bucket" "eu-west-1" cached))
           "other-bucket" H).
Defined.

Lemma copyHeaders_lookup_witness :
  Host redirected <> Host signedRequest /\
  is_Some (Header signedRequest !! "Authorization") /\
  (copyHeaders redirected signedRequest).1 = true.
Proof.
  assert (H1 : Host redirected <> Host signedRequest) by discriminate.
  assert (H2 : is_Some (Header signedRequest !! "Authorization"))
    by (eexists; vm_compute; reflexivity).
  split; [exact H1|]. split; [exact H2|].
  exact (proj2 (proj2 (copyHeaders_lookup redirected signedRequest "Authorization"))
           (conj H1 H2)).
Defined.

Lemma getBucketLocation_cached_witness :
  let out := getBucketLocation (W := world staticV4 hinted noSeekError)
               anyRegion "my-bucket" start in
  out.1 = Ok "eu-west-1" /\
  getBucketLocation (W := world staticV4 hinted noSeekError)
    anyRegion "my-bucket" out.2 = (Ok "eu-west-1", out.2) /\
  items out.2 !! "my-bucket" = Some "eu-west-1".
Proof.
  intros out.
  assert (H : getBucketLocation (W := world staticV4 hinted noSeekError)
                anyRegion "my-bucket" start = (Ok "eu-west-1", out.2))
    by (vm_compute; reflexivity).
  split; [vm_compute; reflexivity|].
  destruct (getBucketLocation_cached (W := world staticV4 hinted noSeekError)
              anyRegion "my-bucket" "eu-west-1" start out.2 H) as [H1 H2].
  split; [exact H1 | exact (H2 eq_refl)].
Defined.

Lemma getBucketLocation_failure_keeps_cache_witness :
  (forall location,
     (getBucketLocation (W := world staticV4 offline noSeekError)
        anyRegion "other-bucket" cached).1 <> Ok location) /\
  items (getBucketLocation (W := world staticV4 offline noSeekError)
           anyRegion "other-bucket" cached).2 = items cached.
Proof.
  assert (H : forall location,
            (getBucketLocation (W := world staticV4 offline noSeekError)
               anyRegion "other-bucket" cached).1 <> Ok location).
  { intros location. vm_compute. intros H. discriminate H. }
  split; [exact H|].
  exact (getBucketLocation_failure_keeps_cache
           (W := world staticV4 offline noSeekError) anyRegion "other-bucket" cached H).
Defined.

Lemma newRequest_stays_home_witness :
  region fixedRegion <> "" /\
  untouched start
    (GenUploadPartSignedUrl (W := world staticV4 offline noSeekError) fixedRegion
       "upload-1" "my-bucket" "key.bin" 3 1024 (3600 * time_Second) "" start).2.
Proof.
  assert (H : region fixedRegion <> "") by discriminate.
  split; [exact H|].
  exact (proj2 (newRequest_stays_home (W := world staticV4 offline noSeekError)
                  fixedRegion start)
           "upload-1" "my-bucket" "key.bin" 3 1024 (3600 * time_Second) ""
           (or_intror H)).
Defined.

Lemma getS3Endpoint_table_witness :
  awsS3EndpointMap !! "eu-west-1" = Some "s3.dualstack.eu-west-1.amazonaws.com" /\
  getS3Endpoint "eu-west-1" = "s3.dualstack.eu-west-1.amazonaws.com" /\
  awsS3EndpointMap !! "mars-1" = None /\
  getS3Endpoint "mars-1" = getS3Endpoint "us-east-1".
Proof.
  assert (H1 : awsS3EndpointMap !! "eu-west-1"
               = Some "s3.dualstack.eu-west-1.amazonaws.com")
    by (vm_compute; reflexivity).
  assert (H2 : awsS3EndpointMap !! "mars-1" = None) by (vm_compute; reflexivity).
  split; [exact H1|].
  split; [exact (proj1 (proj1 (getS3Endpoint_table "eu-west-1") _ H1))|].
  split; [exact H2|].
  exact (proj2 (getS3Endpoint_table "mars-1") H2).
Defined.

Lemma makeTargetURL_other_endpoint_witness :
  IsAmazonEndpoint minio = false /\
  makeTargetURL accelerated minio "my.bucket" "key.bin" "eu-west-1" false ∅
  = makeTargetURL anyRegion minio "my.bucket" "key.bin" "us-east-1" false ∅.
Proof.
  split; [reflexivity|].
  exact (proj1 (makeTargetURL_other_endpoint accelerated anyRegion minio "my.bucket"
                  "key.bin" "eu-west-1" "us-east-1" false ∅ eq_refl)).
Defined.

Lemma newRequest_location_witness :
  newRequestTarget (W := world staticV4 offline noSeekError)
    anyRegion "PUT" (presignPut 3600) start
  = (Ok ("us-east-1", true, bare ""), start) /\
  bucketLocation (presignPut 3600) <> "" /\
  "us-east-1" = bucketLocation (presignPut 3600) /\ start = start.
Proof.
  assert (H : bucketLocation (presignPut 3600) <> "") by discriminate.
  assert (Ht : newRequestTarget (W := world staticV4 offline noSeekError)
                 anyRegion "PUT" (presignPut 3600) start
               = (Ok ("us-east-1", true, bare ""), start))
    by (vm_compute; reflexivity).
  split; [exact Ht|]. split; [exact H|].
  exact (proj1 (newRequest_location (W := world staticV4 offline noSeekError)
                  anyRegion "PUT" (presignPut 3600) start start "us-east-1" true
                  (bare "") Ht) H).
Defined.

Lemma newRequest_style_witness :
  lookup dnsClient = BucketLookupDNS /\
  exists location isVirtualHost req s1,
    newRequestTarget (W := world staticV4 offline noSeekError)
      dnsClient "PUT" makeBucket start = (Ok (location, isVirtualHost, req), s1) /\
    isVirtualHost = false.
Proof.
  split; [reflexivity|].
  eexists _, _, _, _. split; [vm_compute; reflexivity|].
  refine (proj1 (newRequest_style (W := world staticV4 offline noSeekError)
                   dnsClient "PUT" makeBucket start _ _ _ _ _) eq_refl eq_refl eq_refl).
  vm_compute. reflexivity.
Defined.

Lemma setCustomHeaders_spec_witness :
  (forall k v, tagged !! k = Some v -> v <> []) /\
  exists h',
    setCustomHeaders tagged ∅ = Ok h' /\
    h' !! CanonicalHeaderKey "X-Amz-Meta-Tag" = Some ["blue"].
Proof.
  assert (H : forall k v, tagged !! k = Some v -> v <> []).
  { intros k v. unfold tagged. rewrite lookup_insert_Some, lookup_empty.
    intros [[_ <-]|[_ ?]]; done. }
  split; [exact H|].
  destruct (proj2 (setCustomHeaders_spec tagged ∅) H) as (h' & Hh & _ & _ & Hfirst).
  exists h'. split; [exact Hh|].
  apply (Hfirst) with ["green"].
  - intros k k' _ _ Hk. exact Hk.
  - reflexivity.
Defined.

Lemma newRequest_anonymous_witness :
  let h := Header_Set (Header (setUserAgent fixedRegion (bare "")))
                      "X-Amz-Meta-Tag" "blue" in
  SignerType anonymous = SignatureAnonymous /\
  overrideSignerType fixedRegion = SigV4 /\
  setCustomHeaders (customHeader putTagged)
                   (Header (setUserAgent fixedRegion (bare ""))) = Ok h /\
  newRequest (W := world anonymous offline noSeekError)
             fixedRegion "PUT" putTagged start
  = (Ok (mkRequest "PUT" (bareURL "")
           "my-bucket.s3.dualstack.us-east-1.amazonaws.com" h None 4 []),
     tick start) /\
  h !! "Authorization" = None.
Proof.
  intros h.
  split; [reflexivity|]. split; [reflexivity|].
  assert (Ht : newRequestTarget (W := world anonymous offline noSeekError)
                 fixedRegion (methodOrPOST "PUT") putTagged start
               = (Ok ("us-east-1", true, bare ""), start))
    by (vm_compute; reflexivity).
  assert (Hh : setCustomHeaders (customHeader putTagged)
                 (Header (setUserAgent fixedRegion (bare ""))) = Ok h)
    by (vm_compute; reflexivity).
  split; [exact Hh|]. split.
  - exact (proj2 (newRequest_anonymous (W := world anonymous offline noSeekError)
                    fixedRegion "PUT" putTagged start start "us-east-1" true
                    (bare "") anonymous eq_refl eq_refl Ht eq_refl eq_refl)
             (or_introl eq_refl) h Hh).
  - vm_compute. reflexivity.
Defined.

Lemma do_answers_witness :
  (httpClient_Do (World := world staticV4 closedEarly noSeekError)
     (clock start) (endpointURL start) (bare "")).1
  = (None, Some (ErrURL "Get" "https://s3.amazonaws.com/" "unexpected EOF")) /\
  (do (W := world staticV4 closedEarly noSeekError) fixedRegion (bare "") start).1
  = Err (ErrURL "Get" "https://s3.amazonaws.com/"
           "Connection closed by foreign host https://s3.amazonaws.com/. Retry again.").
Proof.
  split; [reflexivity|].
  exact (proj1 (proj2 (do_answers (W := world staticV4 closedEarly noSeekError)
                         fixedRegion (bare "") start))
           None "Get" "https://s3.amazonaws.com/" "unexpected EOF" eq_refl).
Defined.

Lemma success_ends_loop_witness :
  exists req s1 r s2,
    newRequest (W := world staticV4 alwaysOk noSeekError) fixedRegion "GET" getObject
               (attemptStart false start) = (Ok req, s1) /\
    do (W := world staticV4 alwaysOk noSeekError) fixedRegion req s1 = (Ok r, s2) /\
    In (StatusCode r) successStatus /\
    retryLoop (W := world staticV4 alwaysOk noSeekError) fixedRegion "GET" getObject
              false [1; 2; 3]%nat (mkLocals None None) start
    = (Ok (Some r, None), s2).
Proof.
  eexists _, _, _, _.
  split; [vm_compute; reflexivity|]. split; [vm_compute; reflexivity|].
  split; [left; reflexivity|].
  eapply (success_ends_loop (W := world staticV4 alwaysOk noSeekError) fixedRegion
           "GET" getObject false).
  - discriminate.
  - vm_compute. reflexivity.
  - vm_compute. reflexivity.
  - left. reflexivity.
Defined.

Lemma failure_answer_without_error_witness :
  ~ In 503%Z successStatus /\
  (retryLoop (W := world staticV4 alwaysUnavailable noSeekError) fixedRegion "GET"
             getObject false [1%nat] (mkLocals None None) start).1
  = Ok (Some (response 503 "503 Service Unavailable" ""), None).
Proof.
  assert (H : ~ In 503%Z successStatus).
  { simpl. intros [H|[H|[H|[]]]]; discriminate H. }
  split; [exact H|].
  eapply (failure_answer_without_error
            (W := world staticV4 alwaysUnavailable noSeekError) fixedRegion "GET"
            getObject false).
  - discriminate.
  - vm_compute. reflexivity.
  - vm_compute. reflexivity.
  - exact H.
  - reflexivity.
Defined.

Lemma error_ends_loop_witness :
  isS3CodeRetryable
    (Code (ToErrorResponse
             (ErrNew "Bucket name cannot be shorter than 3 characters"))) = false /\
  (retryLoop (W := world staticV4 alwaysOk noSeekError) fixedRegion "GET" shortName
             false [1; 2; 3]%nat (mkLocals None None) start).1
  = Ok (None, Some (ErrNew "Bucket name cannot be shorter than 3 characters")).
Proof.
  split; [reflexivity|].
  refine (f_equal fst
            (proj1 (proj1 (error_ends_loop
                             (W := world staticV4 alwaysOk noSeekError) fixedRegion
                             "GET" shortName false 1%nat [2; 3]%nat
                             (mkLocals None None) start _)
                      (ErrNew "Bucket name cannot be shorter than 3 characters")
                      (attemptStart false start) _) eq_refl)).
  - discriminate.
  - vm_compute. reflexivity.
Defined.

Lemma corrected_region_resolved_witness :
  let errResponse :=
    ToErrorResponse (httpRespToErrorResponse (Some wrongRegion) "my-bucket" "key.bin") in
  regionMismatch anyRegion getObject errResponse cached /\
  getBucketLocation (W := world staticV4 offline noSeekError) anyRegion "my-bucket"
                    (correctedState getObject errResponse cached)
  = (Ok "eu-west-1", correctedState getObject errResponse cached).
Proof.
  intros errResponse.
  assert (H : regionMismatch anyRegion getObject errResponse cached).
  { split; [reflexivity|]. split; [reflexivity|].
    split; [left; vm_compute; reflexivity|].
    split; [discriminate|].
    split; [vm_compute; intros H; discriminate H|].
    exists "us-east-1". vm_compute. reflexivity. }
  split; [exact H|].
  exact (corrected_region_resolved (W := world staticV4 offline noSeekError)
           anyRegion getObject errResponse cached H eq_refl).
Defined.

Lemma redirectHeaders_copies_witness :
  (length [signedRequest] < 5)%nat /\
  Host sameHost = Host signedRequest /\
  redirectHeaders (W := world staticV2 offline noSeekError)
                  anyRegion sameHost [signedRequest] start
  = (Ok (withHeader sameHost (copyHeaders sameHost signedRequest).2),
     tick (mkState (rURL sameHost) (items start) (clock start) (events start))).
Proof.
  assert (Hlen : (length [signedRequest] < 5)%nat) by (simpl; lia).
  split; [exact Hlen|]. split; [reflexivity|].
  exact (proj1 (proj2 (redirectHeaders_copies
                         (W := world staticV2 offline noSeekError)
                         anyRegion sameHost [signedRequest] start)
                  signedRequest Hlen eq_refl)
           staticV2 (or_introl eq_refl) eq_refl).
Defined.

Lemma getBucketLocationRequest_plain_witness :
  overrideSignerType fixedRegion = overrideSignerType accelerated /\
  endpointURL start = endpointURL cached /\
  (getBucketLocationRequest (W := world staticV4 offline noSeekError)
     fixedRegion "my-bucket" start).1
  = (getBucketLocationRequest (W := world staticV4 offline noSeekError)
       accelerated "my-bucket" cached).1.
Proof.
  split; [reflexivity|]. split; [reflexivity|].
  exact (getBucketLocationRequest_plain (W := world staticV4 offline noSeekError)
           fixedRegion accelerated "my-bucket" start cached
           eq_refl eq_refl eq_refl eq_refl eq_refl eq_refl).
Defined.

Lemma New_client_witness :
  New "s3.amazonaws.com" "AKIAEXAMPLE" "secret" true = Ok (anyRegion, start) /\
  overrideSignerType anyRegion = SigV4 /\
  nonEmptyCache start.
Proof.
  assert (H : New "s3.amazonaws.com" "AKIAEXAMPLE" "secret" true
              = Ok (anyRegion, start)) by reflexivity.
  split; [exact H|].
  destruct (proj2 (New_client (W := world staticV4 offline noSeekError)
                     "s3.amazonaws.com" "AKIAEXAMPLE" "secret" true)
              anyRegion start H) as (_ & _ & _ & _ & Hc & _ & Ho & _).
  split; [exact Ho | exact Hc].
Defined.

Lemma correction_entry_present_witness :
  exists req s1,
    newRequest (W := world staticV4 hinted noSeekError) anyRegion "GET" getObject start
    = (Ok req, s1) /\
    is_Some (items s1 !! "my-bucket") /\
    is_Some (items (do (W := world staticV4 hinted noSeekError) anyRegion req s1).2
             !! "my-bucket").
Proof.
  eexists _, _. split; [vm_compute; reflexivity|].
  eapply (correction_entry_present (W := world staticV4 hinted noSeekError)
            anyRegion "GET" getObject start).
  - vm_compute. reflexivity.
  - reflexivity.
  - reflexivity.
  - discriminate.
Defined.
